(** * Liquidity monitor: analytics engine

    A shallow embedding of [src/index.js]: the alert detector, the risk
    analyzer, the sentiment analyzer, the report builder and the cache
    update of the [monitorLiquidity] capability.

    JavaScript numbers are IEEE 754 binary64 values; they are modelled by
    Rocq's primitive floats, so every arithmetic operation and comparison
    below rounds and treats NaN, infinities and signed zeros as the
    JavaScript engine does.  Strings are [string]; arrays are lists; an
    absent argument is [None]; a function that can throw returns a
    [Completion].  The two process-wide stores [dataCache] and
    [priceHistory] are finite maps keyed by the token key (a token key
    holds a hyphen, so it is never a property an empty object inherits).
    What an invocation reads from outside the process (the fetched pair,
    the clock, the stored file, the environment) is an argument of [run],
    and what it does to the outside (console lines, the saved file) is
    part of its result.

    The fetch itself, [getTokenData] and the normalizer
    [transformDexResponse], works on the parsed response, a value of any
    shape; [typed] relates what it returns to the snapshot the analysis
    reads. *)

Set Warnings "-inexact-float".
From Stdlib Require Import ZArith Floats String Ascii List Bool Lia DecimalString.
From stdpp Require Import gmap strings list.
Import ListNotations.

(** * The JavaScript built-ins the program calls *)

Module JS.

Notation "x >? y" := (PrimFloat.ltb y x)
  (at level 70, no associativity, only parsing) : float_scope.

Section Numbers.
Local Open Scope float_scope.

(** [ToBoolean] of a number: [0], [-0] and [NaN] are falsy. *)
Definition truthy (x : float) : bool := negb (is_zero x || is_nan x).

(** [x || 0] for a number [x]. *)
Definition or_zero (x : float) : float := if truthy x then x else 0.

(** [Math.abs] *)
Definition Math_abs (x : float) : float := abs x.

(** [Math.min] of two numbers: [NaN] if either is, and [-0] below [+0]. *)
Definition Math_min (x y : float) : float :=
  if is_nan x then x
  else if is_nan y then y
  else if x <? y then x
  else if y <? x then y
  else match classify x with NZero => x | _ => y end.

(** [Math.max] of two numbers: [NaN] if either is, and [+0] above [-0]. *)
Definition Math_max (x y : float) : float :=
  if is_nan x then x
  else if is_nan y then y
  else if x <? y then y
  else if y <? x then x
  else match classify x with PZero => x | _ => y end.

End Numbers.

(** ** [parseFloat] and [Number.prototype.toFixed]

    [parseFloat] skips leading white space, reads the longest prefix that is
    a decimal literal and rounds its value to the nearest binary64 number,
    ties to even; with no such prefix it returns [NaN].  Strings are byte
    strings here, so only the ASCII white space is skipped.

    [toFixed] prints the exact value of the number rounded half up to the
    requested number of decimals; from 10^21 on it prints the shortest
    decimal that reads back as the number, in exponent form. *)

Section Parse.
Local Open Scope string_scope.
Local Open Scope Z_scope.

(** TAB, LF, VT, FF, CR and SP. *)
Definition is_white_space (c : ascii) : bool :=
  let n := Z.of_N (N_of_ascii c) in
  ((9 <=? n) && (n <=? 13)) || (n =? 32).

(** [s] without its leading white space. *)
Fixpoint trim_start (s : string) : string :=
  match s with
  | String c r => if is_white_space c then trim_start r else s
  | EmptyString => s
  end.

(** The value of a decimal digit. *)
Definition digit_of (c : ascii) : option Z :=
  let n := Z.of_N (N_of_ascii c) in
  if (48 <=? n) && (n <=? 57) then Some (n - 48) else None.

(** The leading decimal digits of [s]: their value on top of [acc], their
    number on top of [len], and the rest of [s]. *)
Fixpoint span_digits (s : string) (acc len : Z) : Z * Z * string :=
  match s with
  | String c r =>
      match digit_of c with
      | Some d => span_digits r (10 * acc + d) (len + 1)
      | None => (acc, len, s)
      end
  | EmptyString => (acc, len, s)
  end.

(** The digits of an exponent, with an optional sign. *)
Definition signed_integer (s : string) : option Z :=
  let '(neg, u) :=
    match s with
    | String "-" r => (true, r)
    | String "+" r => (false, r)
    | _ => (false, s)
    end in
  let '(e, n, _) := span_digits u 0 0 in
  if n =? 0 then None else Some (if neg : bool then - e else e).

(** [e] or [E] and a signed integer; anything else is no exponent. *)
Definition exponent_part (s : string) : Z :=
  match s with
  | String c r =>
      if Ascii.eqb c "e" || Ascii.eqb c "E"
      then match signed_integer r with Some e => e | None => 0 end
      else 0
  | EmptyString => 0
  end.

(** An unsigned literal: [Infinity], or [m * 10 ^ e] read from [digits]
    decimal digits. *)
Variant literal : Type :=
  | LitInfinity
  | LitDecimal (m digits e : Z).

(** The longest unsigned literal that starts [s], if there is one. *)
Definition parse_unsigned (s : string) : option literal :=
  if String.prefix "Infinity" s then Some LitInfinity
  else
    let '(i, ni, r1) := span_digits s 0 0 in
    let '(m, nf, r2) :=
      match r1 with
      | String "." r => span_digits r i 0
      | _ => (i, 0, r1)
      end in
    if ni + nf =? 0 then None
    else Some (LitDecimal m (ni + nf) (exponent_part r2 - nf)).

(** The binary64 number nearest to [m * 10 ^ e]: the quotient of two
    integers, correctly rounded.  Exponents far outside the range of
    binary64 are cut short; they give an infinity or a zero. *)
Definition decimal_to_float (neg : bool) (m digits e : Z) : float :=
  match m with
  | Zpos _ =>
      if 400 <? e then (if neg then PrimFloat.neg_infinity else PrimFloat.infinity)
      else if e <? - (digits + 400) then (if neg then PrimFloat.neg_zero else PrimFloat.zero)
      else
        SF2Prim (SF64div (S754_finite neg (Z.to_pos (m * 10 ^ Z.max e 0)) 0)
                         (S754_finite false (Z.to_pos (10 ^ Z.max (- e) 0)) 0))
  | _ => if neg then PrimFloat.neg_zero else PrimFloat.zero
  end.

(** [parseFloat(s)] *)
Definition parseFloat (s : string) : float :=
  let t := trim_start s in
  let '(neg, u) :=
    match t with
    | String "-" r => (true, r)
    | String "+" r => (false, r)
    | _ => (false, t)
    end in
  match parse_unsigned u with
  | None => PrimFloat.nan
  | Some LitInfinity => if neg then PrimFloat.neg_infinity else PrimFloat.infinity
  | Some (LitDecimal m d e) => decimal_to_float neg m d e
  end.

(** The decimal digits of a natural number. *)
Definition decimal_of_Z (n : Z) : string := NilZero.string_of_uint (N.to_uint (Z.to_N n)).

(** [n] zeros. *)
Fixpoint zeros (n : nat) : string :=
  match n with O => "" | S k => String "0" (zeros k) end.

(** [n / 10 ^ f] printed with [f] decimals. *)
Definition fixed_digits (n : Z) (f : nat) : string :=
  let m := decimal_of_Z n in
  match f with
  | O => m
  | _ =>
      let m := zeros (S f - String.length m) ++ m in
      let k := String.length m in
      substring 0 (k - f) m ++ "." ++ substring (k - f) f m
  end.

(** [m * 2 ^ e * 10 ^ f] rounded to the nearest integer, halves up. *)
Definition scaled_round (m : positive) (e : Z) (f : nat) : Z :=
  let p := Zpos m * 10 ^ Z.of_nat f in
  if 0 <=? e then p * 2 ^ e else (2 * p + 2 ^ (- e)) / 2 ^ (1 - e).

(** The binary64 number nearest to an integer. *)
Definition round_int (X : Z) : float := SF2Prim (binary_normalize prec emax X 0 false).

(** Does the [k]-digit decimal [s * 10 ^ (n - k)] read back as [x]? *)
Definition roundtrips (x : float) (k : Z) (c : Z * Z) : bool :=
  PrimFloat.Leibniz.eqb (round_int (fst c * 10 ^ (snd c - k))) x.

(** The [k]-digit decimals next to [X] that read back as [x]. *)
Definition candidates (x : float) (X D k : Z) : list (Z * Z) :=
  let s0 := X / 10 ^ (D - k) in
  let c1 := if s0 + 1 <? 10 ^ k then (s0 + 1, D) else (10 ^ (k - 1), D + 1) in
  List.filter (roundtrips x k) [(s0, D); c1].

(** Of two decimals the one nearer to [X]; on a tie the even one. *)
Definition closest (X k : Z) (c0 c1 : Z * Z) : Z * Z :=
  let d0 := Z.abs (X - fst c0 * 10 ^ (snd c0 - k)) in
  let d1 := Z.abs (fst c1 * 10 ^ (snd c1 - k) - X) in
  if d0 <? d1 then c0 else if d1 <? d0 then c1
  else if Z.even (fst c0) then c0 else c1.

(** The first digit count, from [k] up, that has a decimal reading back as
    [x]; seventeen digits always do. *)
Fixpoint shortest (fuel : nat) (x : float) (X D k : Z) : Z * Z * Z :=
  match fuel with
  | O => (X / 10 ^ (D - k), D, k)
  | S fuel' =>
      match candidates x X D k with
      | [] => shortest fuel' x X D (k + 1)
      | [c] => (c, k)
      | c0 :: c1 :: _ => (closest X k c0 c1, k)
      end
  end.

(** [Number::toString] for a number [x = X >= 10 ^ 21]. *)
Definition exponential_string (x : float) (X : Z) : string :=
  let D := Z.of_nat (String.length (decimal_of_Z X)) in
  let '(s, n, k) := shortest 17 x X D 1 in
  let ds := decimal_of_Z s in
  let mant :=
    match ds with
    | String d "" => ds
    | String d r => String d ("." ++ r)
    | EmptyString => ds
    end in
  mant ++ "e+" ++ decimal_of_Z (n - 1).

(** [x.toFixed(f)], for [f] up to 100. *)
Definition toFixed (x : float) (f : nat) : string :=
  match Prim2SF x with
  | S754_nan => "NaN"
  | S754_infinity s => if s then "-Infinity" else "Infinity"
  | S754_zero _ => fixed_digits 0 f
  | S754_finite s m e =>
      (if s then "-" else "") ++
      (if (0 <=? e) && (10 ^ 21 <=? Zpos m * 2 ^ e)
       then exponential_string (abs x) (Zpos m * 2 ^ e)
       else fixed_digits (scaled_round m e f) f)
  end.

End Parse.
End JS.
Import JS.

(** * Configuration constants *)

Record Thresholds : Type := {
  liquidity_min : float;
  volatility_threshold : float;
  abnormal_tx_ratio : float;
  impermanent_loss_risk : float;
  quick_dump_risk : float;
  new_token_risk_days : float;
  healthy_buy_sell_ratio : float;
  pump_warning_threshold : float
}.

Definition THRESHOLDS : Thresholds := {|
  liquidity_min := 100000;
  volatility_threshold := 20;
  abnormal_tx_ratio := 10;
  impermanent_loss_risk := 30;
  quick_dump_risk := 15;
  new_token_risk_days := 7;
  healthy_buy_sell_ratio := 1.2;
  pump_warning_threshold := 50
|}.

Record AlertConfig : Type := {
  price_change_threshold : float;
  volume_change_threshold : float;
  liquidity_change_threshold : float;
  sentiment_change_threshold : float
}.

Definition ALERT_CONFIG : AlertConfig := {|
  price_change_threshold := 10;
  volume_change_threshold := 50;
  liquidity_change_threshold := 20;
  sentiment_change_threshold := 0.3
|}.

(** * The market snapshot built by [transformDexResponse]

    Field names are the snake-case names of the object the normalizer
    returns.  [price_native] and [price_usd] stay strings; the other numeric
    fields are numbers.  The opaque [info] and [boosts] fields are passed
    through by the normalizer and read by nothing; they are left out. *)

Record Token : Type := {
  address : string;
  name : string;
  symbol : string
}.

Record TxCount : Type := {
  buys : float;
  sells : float
}.

(** One value per time window; used for [txns], [volume] and [price_change]. *)
Record Windows (A : Type) : Type := {
  m5 : A;
  h1 : A;
  h6 : A;
  h24 : A
}.
Arguments m5 {A} _.
Arguments h1 {A} _.
Arguments h6 {A} _.
Arguments h24 {A} _.

Record Liquidity : Type := {
  usd : float;
  base : float;
  quote : float
}.

Record TokenData : Type := {
  chain_id : string;
  dex_id : string;
  url : string;
  pair_address : string;
  labels : list string;
  base_token : Token;
  quote_token : Token;
  price_native : string;
  price_usd : string;
  txns : Windows TxCount;
  volume : Windows float;
  price_change : Windows float;
  liquidity : Liquidity;
  fdv : float;
  market_cap : float;
  pair_created_at : float
}.

(** * Exceptions

    Reading a property of [undefined] throws a [TypeError]; a function that
    can throw returns [Throw] or [Return]. *)

Variant JsError : Type :=
  | TypeError (message : string).

Variant Completion (A : Type) : Type :=
  | Throw (e : JsError)
  | Return (a : A).
Arguments Throw {A} _.
Arguments Return {A} _.

Definition bind {A B : Type} (c : Completion A) (k : A -> Completion B) : Completion B :=
  match c with
  | Throw e => Throw e
  | Return a => k a
  end.

Notation "'let*' x := c 'in' k" := (bind c (fun x => k))
  (at level 10, x name, c at level 100, k at level 200).

(** [array.push(x)] *)
Definition push {A : Type} (array : list A) (x : A) : list A := array ++ [x].

(** * detectAlerts *)

Section DetectAlerts.
Local Open Scope string_scope.
Local Open Scope float_scope.

(** [detectAlerts(current, previous)], lines 65-95.  [previous] is [None] when
    the caller passes [undefined]; the first read of [previous.price_usd]
    then throws. *)
Definition detectAlerts (current : TokenData) (previous : option TokenData)
  : Completion (list string) :=
  let alerts : list string := [] in
  let currentPrice := parseFloat current.(price_usd) in
  match previous with
  | None =>
      Throw (TypeError "Cannot read properties of undefined (reading 'price_usd')")
  | Some previous =>
      let previousPrice := parseFloat previous.(price_usd) in
      let alerts :=
        if previousPrice >? 0 then
          let priceChange :=
            Math_abs ((currentPrice - previousPrice) / previousPrice * 100) in
          if priceChange >? ALERT_CONFIG.(price_change_threshold) then
            let direction :=
              if currentPrice >? previousPrice then "increased" else "decreased" in
            push alerts ("PRICE ALERT: " ++ current.(base_token).(symbol) ++ " "
                         ++ direction ++ " by " ++ toFixed priceChange 2 ++ "%")
          else alerts
        else alerts in
      let currentVol := current.(volume).(h1) in
      let previousVol := previous.(volume).(h1) in
      let alerts :=
        if previousVol >? 0 then
          let volChange :=
            Math_abs ((currentVol - previousVol) / previousVol * 100) in
          if volChange >? ALERT_CONFIG.(volume_change_threshold) then
            let direction :=
              if currentVol >? previousVol then "increased" else "decreased" in
            push alerts ("VOLUME ALERT: Volume " ++ direction ++ " by "
                         ++ toFixed volChange 2 ++ "%")
          else alerts
        else alerts in
      let currentLiq := current.(liquidity).(usd) in
      let previousLiq := previous.(liquidity).(usd) in
      let alerts :=
        if previousLiq >? 0 then
          let liqChange :=
            Math_abs ((currentLiq - previousLiq) / previousLiq * 100) in
          if liqChange >? ALERT_CONFIG.(liquidity_change_threshold) then
            let direction :=
              if currentLiq >? previousLiq then "increased" else "decreased" in
            push alerts ("LIQUIDITY ALERT: Liquidity " ++ direction ++ " by "
                         ++ toFixed liqChange 2 ++ "%")
          else alerts
        else alerts in
      Return alerts
  end.

End DetectAlerts.

(** * analyzeTokenRisk *)

Record RiskAnalysis : Type := {
  risk_score : float;
  vulnerabilities : list string;
  recommendations : list string
}.

Section AnalyzeTokenRisk.
Local Open Scope string_scope.
Local Open Scope float_scope.

(** The three statements every rule runs when it fires:
    [vulnerabilities.push(v); risk_score += w; recommendations.push(r)]. *)
Definition flag (v : string) (w : float) (r : string) (acc : RiskAnalysis)
  : RiskAnalysis :=
  {| risk_score := acc.(risk_score) + w;
     vulnerabilities := push acc.(vulnerabilities) v;
     recommendations := push acc.(recommendations) r |}.

(** [(Date.now() / 1000 - pair_created_at) / 86400], lines 207-208; [now] is
    the value [Date.now()] returns, in milliseconds. *)
Definition token_age (now : float) (tokenData : TokenData) : float :=
  let currentTime := now / 1000 in
  (currentTime - tokenData.(pair_created_at)) / 86400.

(** [if (c) { body }] over the running result. *)
Definition when {S : Type} (c : bool) (body : S -> S) (s : S) : S :=
  if c then body s else s.

(** [analyzeTokenRisk(tokenData, previousData)], lines 165-254. *)
Definition analyzeTokenRisk (now : float) (tokenData : TokenData)
    (previousData : option TokenData) : RiskAnalysis :=
  let acc := {| risk_score := 0; vulnerabilities := []; recommendations := [] |} in
  (* Liquidity check *)
  let acc :=
    when (tokenData.(liquidity).(usd) <? THRESHOLDS.(liquidity_min))
      (flag "Low liquidity" 30
            "Increase liquidity or wait for higher liquidity levels") acc in
  (* Price volatility *)
  let volatility := Math_abs tokenData.(price_change).(h6) in
  let acc :=
    when (volatility >? THRESHOLDS.(volatility_threshold))
      (fun acc =>
         let acc :=
           flag ("High volatility: " ++ toFixed volatility 2 ++ "% over 6h") 20
                "Exercise caution due to high fluctuations" acc in
         when (volatility >? THRESHOLDS.(impermanent_loss_risk))
           (flag "High impermanent loss risk" 10
                 "Consider impermanent loss risks") acc) acc in
  (* Transaction patterns *)
  let tx_h6 := or_zero tokenData.(txns).(h6).(buys)
               + or_zero tokenData.(txns).(h6).(sells) in
  let tx_h1 := or_zero tokenData.(txns).(h1).(buys)
               + or_zero tokenData.(txns).(h1).(sells) in
  let acc :=
    when ((tx_h1 >? 0) && (tx_h6 / tx_h1 >? THRESHOLDS.(abnormal_tx_ratio)))
      (flag "Unusual transaction pattern" 20
            "Monitor for market manipulation") acc in
  (* Market cap vs liquidity *)
  let acc :=
    when ((tokenData.(market_cap) >? 0)
          && (tokenData.(market_cap) <? tokenData.(liquidity).(usd)))
      (flag "Market cap < liquidity" 20 "Review valuation") acc in
  (* Token age *)
  let acc :=
    when (token_age now tokenData <? THRESHOLDS.(new_token_risk_days))
      (flag ("New token (" ++ toFixed (token_age now tokenData) 1 ++ " days old)") 15
            "Consider smaller position size") acc in
  (* Sell pressure *)
  let h24_buys := or_zero tokenData.(txns).(h24).(buys) in
  let h24_sells := or_zero tokenData.(txns).(h24).(sells) in
  let total_tx := h24_buys + h24_sells in
  let acc :=
    when (total_tx >? 10)
      (fun acc =>
         let sell_pct := (h24_sells / total_tx) * 100 in
         when (sell_pct >? THRESHOLDS.(quick_dump_risk))
           (flag ("High selling pressure: " ++ toFixed sell_pct 1 ++ "%") 25
                 "Watch for potential sell-off") acc) acc in
  (* Pump detection *)
  let acc :=
    when (tokenData.(price_change).(h24) >? THRESHOLDS.(pump_warning_threshold))
      (flag ("Possible pump: " ++ toFixed tokenData.(price_change).(h24) 2 ++ "%") 5
            "Extreme caution advised") acc in
  (* Sudden price changes *)
  let acc :=
    match previousData with
    | Some previousData =>
        let previousPrice := parseFloat previousData.(price_usd) in
        let currentPrice := parseFloat tokenData.(price_usd) in
        when (previousPrice >? 0)
          (fun acc =>
             let price_diff :=
               Math_abs (currentPrice - previousPrice) / previousPrice * 100 in
             when (price_diff >? ALERT_CONFIG.(price_change_threshold))
               (flag ("Sudden price change: " ++ toFixed price_diff 2 ++ "%") 10
                     "Investigate price movement") acc) acc
    | None => acc
    end in
  {| risk_score := Math_min acc.(risk_score) 70;
     vulnerabilities := acc.(vulnerabilities);
     recommendations := acc.(recommendations) |}.

End AnalyzeTokenRisk.

(** * analyzeMarketSentiment *)

Record Breakdown : Type := {
  social : float;
  transactions : float;
  price_action : float
}.

Record Sentiment : Type := {
  score : float;
  breakdown : Breakdown;
  trends : list string
}.

Section AnalyzeMarketSentiment.
Local Open Scope string_scope.
Local Open Scope float_scope.

(** [analyzeMarketSentiment(tokenData, previousSentiment)], lines 256-313. *)
Definition analyzeMarketSentiment (tokenData : TokenData)
    (previousSentiment : option Sentiment) : Sentiment :=
  let h24_buys := or_zero tokenData.(txns).(h24).(buys) in
  let h24_sells := or_zero tokenData.(txns).(h24).(sells) in
  let total_tx := h24_buys + h24_sells in
  let tx_sentiment :=
    if total_tx >? 0 then (h24_buys - h24_sells) / total_tx else 0 in
  let price_1h := tokenData.(price_change).(h1) / 100 in
  let price_24h := tokenData.(price_change).(h24) / 100 in
  let price_sentiment := (price_1h * 0.6) + (price_24h * 0.4) in
  let price_sentiment := Math_max (-1.0) (Math_min 1.0 price_sentiment) in
  let social_sentiment := (price_1h * 0.3) + (price_24h * 0.7) in
  let overall_sentiment :=
    (tx_sentiment * 0.4) + (price_sentiment * 0.4) + (social_sentiment * 0.2) in
  let trends : list string := [] in
  let trends :=
    if overall_sentiment >? 0.7 then push trends "Strong bullish sentiment"
    else if overall_sentiment >? 0.3 then push trends "Moderate bullish"
    else if overall_sentiment <? -0.7 then push trends "Strong bearish"
    else if overall_sentiment <? -0.3 then push trends "Moderate bearish"
    else push trends "Neutral" in
  let trends :=
    if (price_1h >? 0) && (price_24h <? 0)
    then push trends "Positive momentum vs negative trend"
    else if (price_1h <? 0) && (price_24h >? 0)
    then push trends "Negative momentum vs positive trend"
    else trends in
  let trends :=
    if h24_buys >? h24_sells * 2 then push trends "Strong buying pressure"
    else if h24_sells >? h24_buys * 2 then push trends "Strong selling pressure"
    else trends in
  let trends :=
    match previousSentiment with
    | Some previousSentiment =>
        if Math_abs (overall_sentiment - previousSentiment.(score)) >? 0.3 then
          let direction :=
            if overall_sentiment >? previousSentiment.(score)
            then "positive" else "negative" in
          push trends ("Significant " ++ direction ++ " shift")
        else trends
    | None => trends
    end in
  {| score := overall_sentiment;
     breakdown := {| social := social_sentiment;
                     transactions := tx_sentiment;
                     price_action := price_sentiment |};
     trends := trends |}.

End AnalyzeMarketSentiment.

(** * Array.prototype.slice *)

Section Slice.
Local Open Scope Z_scope.

(** A relative index of [slice]: negative indices count from the end, and
    the result is clamped to [0, len]. *)
Definition relative_index (len i : Z) : Z :=
  if i <? 0 then Z.max (len + i) 0 else Z.min i len.

(** [array.slice(start, end)]; [end_ = None] is [array.slice(start)]. *)
Definition slice {A : Type} (array : list A) (start : Z) (end_ : option Z) : list A :=
  let len := Z.of_nat (length array) in
  let k := relative_index len start in
  let final := match end_ with None => len | Some e => relative_index len e end in
  take (Z.to_nat (final - k)) (drop (Z.to_nat k) array).

End Slice.

(** * generateAIInsights and generateAnalyticsReport *)

Module Report.

(** The [h1], [h6], [h24] object of [metrics.price.change] and
    [metrics.volume]. *)
Record Per3 : Type := {
  h1 : float;
  h6 : float;
  h24 : float
}.

Record Price : Type := {
  current : float;
  change : Per3
}.

(** [metrics.transactions.h1] *)
Record TxH1 : Type := {
  buys : float;
  sells : float;
  ratio : float
}.

(** [metrics.transactions]; its only key is [h1]. *)
Record Transactions : Type := {
  tx_h1 : TxH1
}.

Record Metrics : Type := {
  price : Price;
  volume : Per3;
  liquidity : float;
  market_cap : float;
  fdv : float;
  transactions : Transactions
}.

Record t : Type := {
  token_name : string;
  token_symbol : string;
  timestamp : float;
  metrics : Metrics;
  risk : RiskAnalysis;
  ai_insights : list string
}.

End Report.

Section Reporting.
Local Open Scope string_scope.
Local Open Scope float_scope.

(** [generateAIInsights], lines 315-331.  [CLAUDE_API_KEY] is
    [process.env.CLAUDE_API_KEY]: [None] when the variable is unset; an empty
    string is falsy as well.  The three arguments are not read. *)
Definition generateAIInsights (CLAUDE_API_KEY : option string)
    (tokenData : TokenData) (weeklyData : option Report.t) (sentiment : Sentiment)
  : list string :=
  match CLAUDE_API_KEY with
  | None | Some "" => ["AI insights unavailable - API key missing"]
  | Some _ =>
      let insights :=
        ["Monitor liquidity closely.";
         "Consider impermanent loss risk.";
         "Unusual transaction pattern detected."] in
      slice insights 0%Z (Some 5%Z)
  end.

(** [generateAnalyticsReport], lines 333-367; [now] is the value of
    [Date.now()] read for the report's timestamp. *)
Definition generateAnalyticsReport (CLAUDE_API_KEY : option string) (now : float)
    (tokenData : TokenData) (riskAnalysis : RiskAnalysis)
    (weeklyData : option Report.t) (sentiment : Sentiment) : Report.t :=
  let ai_insights := generateAIInsights CLAUDE_API_KEY tokenData weeklyData sentiment in
  {| Report.token_name := tokenData.(base_token).(name);
     Report.token_symbol := tokenData.(base_token).(symbol);
     Report.timestamp := now / 1000;
     Report.metrics := {|
       Report.price := {|
         Report.current := parseFloat tokenData.(price_usd);
         Report.change := {|
           Report.h1 := tokenData.(price_change).(h1);
           Report.h6 := tokenData.(price_change).(h6);
           Report.h24 := tokenData.(price_change).(h24) |} |};
       Report.volume := {|
         Report.h1 := tokenData.(volume).(h1);
         Report.h6 := tokenData.(volume).(h6);
         Report.h24 := tokenData.(volume).(h24) |};
       Report.liquidity := tokenData.(liquidity).(usd);
       Report.market_cap := tokenData.(market_cap);
       Report.fdv := tokenData.(fdv);
       Report.transactions := {|
         Report.tx_h1 := {|
           Report.buys := tokenData.(txns).(h1).(buys);
           Report.sells := tokenData.(txns).(h1).(sells);
           Report.ratio :=
             if truthy tokenData.(txns).(h1).(sells)
             then tokenData.(txns).(h1).(buys) / tokenData.(txns).(h1).(sells)
             else tokenData.(txns).(h1).(buys) |} |} |};
     Report.risk := riskAnalysis;
     Report.ai_insights := ai_insights |}.

End Reporting.

(** * The [monitorLiquidity] capability *)

Module PricePoint.
Record t : Type := {
  timestamp : float;
  price : float;
  volume : float
}.
End PricePoint.

(** The two process-wide stores, lines 30-31. *)
Record Stores : Type := {
  dataCache : gmap string TokenData;
  priceHistory : gmap string (list PricePoint.t)
}.

Definition initial_stores : Stores :=
  {| dataCache := ∅; priceHistory := ∅ |}.

(** What one invocation reads from outside the process: the result of
    [getTokenData] ([None] for [null]), the three successive readings of
    [Date.now()], the file [loadWeeklyData] returns and the environment
    variable. *)
Record World : Type := {
  fetched : option TokenData;
  now_point : float;
  now_risk : float;
  now_report : float;
  weekly : option Report.t;
  api_key : option string
}.

(** What one invocation does to the outside. *)
Variant Effect : Type :=
  | ConsoleLog (line : string)
  | SaveWeeklyData (tokenKey : string) (report : Report.t).

(** The value [run] resolves to; the report stands for its
    [JSON.stringify] text. *)
Variant RunResult : Type :=
  | ErrorText (message : string)
  | ReportText (report : Report.t).

Section Run.

(** Lines 402-411: alerts are computed only if the cache has an entry. *)
Definition process_alerts (tokenData : TokenData) (previousData : option TokenData)
  : Completion (list Effect) :=
  match previousData with
  | Some previous =>
      let* alerts := detectAlerts tokenData (Some previous) in
      Return
        (if (0 <? length alerts)%nat
         then [ConsoleLog (String "010" "=== ALERTS ===")]
              ++ map ConsoleLog alerts
              ++ [ConsoleLog ("==============" ++ String "010" "")%string]
         else [])
  | None => Return []
  end.

(** Lines 415-426: append the price point and keep the newest 1000. *)
Definition record_price (priceHistory : gmap string (list PricePoint.t))
    (tokenKey : string) (pricePoint : PricePoint.t)
  : gmap string (list PricePoint.t) :=
  let priceHistory :=
    match priceHistory !! tokenKey with
    | None => <[tokenKey := []]> priceHistory
    | Some _ => priceHistory
    end in
  let history := push (default [] (priceHistory !! tokenKey)) pricePoint in
  let priceHistory := <[tokenKey := history]> priceHistory in
  if (1000 <? length history)%nat
  then <[tokenKey := slice history (-1000)%Z None]> priceHistory
  else priceHistory.

(** [run({ args })], lines 394-438. *)
Definition run (chainId tokenAddress : string) (w : World) (st : Stores)
  : Completion (Stores * list Effect * RunResult) :=
  let tokenKey := (chainId ++ "-" ++ tokenAddress)%string in
  match w.(fetched) with
  | None =>
      Return (st, [],
              ErrorText ("Error: Token data not found for " ++ tokenAddress
                         ++ " on " ++ chainId)%string)
  | Some tokenData =>
      let previousData := st.(dataCache) !! tokenKey in
      let* logged := process_alerts tokenData previousData in
      let dataCache := <[tokenKey := tokenData]> st.(dataCache) in
      let pricePoint :=
        {| PricePoint.timestamp := (w.(now_point) / 1000)%float;
           PricePoint.price := parseFloat tokenData.(price_usd);
           PricePoint.volume := tokenData.(volume).(h1) |} in
      let priceHistory := record_price st.(priceHistory) tokenKey pricePoint in
      let weeklyData := w.(weekly) in
      let sentiment := analyzeMarketSentiment tokenData None in
      let riskAnalysis := analyzeTokenRisk w.(now_risk) tokenData previousData in
      let report :=
        generateAnalyticsReport w.(api_key) w.(now_report) tokenData riskAnalysis
                                weeklyData sentiment in
      Return ({| dataCache := dataCache; priceHistory := priceHistory |},
              logged ++ [SaveWeeklyData tokenKey report],
              ReportText report)
  end.

(** The stores after a sequence of invocations, oldest first. *)
Fixpoint run_all (calls : list (string * string * World)) (st : Stores)
  : Completion Stores :=
  match calls with
  | [] => Return st
  | (chainId, tokenAddress, w) :: rest =>
      let* r := run chainId tokenAddress w st in
      run_all rest (fst (fst r))
  end.

End Run.

(** * The risk rules as a table

    The specification lists the rules of the risk analyzer one by one, each
    with its condition, its weight and its two messages; the nested
    impermanent-loss rule is a row of its own whose condition includes the
    volatility rule's.  [risk_rules] is that table, in evaluation order. *)

Record Rule : Type := {
  fired : bool;
  weight : float;
  vulnerability : string;
  recommendation : string
}.

Section RiskRules.
Local Open Scope string_scope.
Local Open Scope float_scope.

Definition risk_rules (now : float) (tokenData : TokenData)
    (previousData : option TokenData) : list Rule :=
  let volatility := Math_abs tokenData.(price_change).(h6) in
  let tx_h6 := or_zero tokenData.(txns).(h6).(buys)
               + or_zero tokenData.(txns).(h6).(sells) in
  let tx_h1 := or_zero tokenData.(txns).(h1).(buys)
               + or_zero tokenData.(txns).(h1).(sells) in
  let h24_sells := or_zero tokenData.(txns).(h24).(sells) in
  let total_tx := or_zero tokenData.(txns).(h24).(buys) + h24_sells in
  let sell_pct := (h24_sells / total_tx) * 100 in
  [ {| fired := tokenData.(liquidity).(usd) <? 100000;
       weight := 30;
       vulnerability := "Low liquidity";
       recommendation := "Increase liquidity or wait for higher liquidity levels" |};
    {| fired := volatility >? 20;
       weight := 20;
       vulnerability := "High volatility: " ++ toFixed volatility 2 ++ "% over 6h";
       recommendation := "Exercise caution due to high fluctuations" |};
    {| fired := (volatility >? 20) && (volatility >? 30);
       weight := 10;
       vulnerability := "High impermanent loss risk";
       recommendation := "Consider impermanent loss risks" |};
    {| fired := (tx_h1 >? 0) && (tx_h6 / tx_h1 >? 10);
       weight := 20;
       vulnerability := "Unusual transaction pattern";
       recommendation := "Monitor for market manipulation" |};
    {| fired := (tokenData.(market_cap) >? 0)
                && (tokenData.(market_cap) <? tokenData.(liquidity).(usd));
       weight := 20;
       vulnerability := "Market cap < liquidity";
       recommendation := "Review valuation" |};
    {| fired := token_age now tokenData <? 7;
       weight := 15;
       vulnerability :=
         "New token (" ++ toFixed (token_age now tokenData) 1 ++ " days old)";
       recommendation := "Consider smaller position size" |};
    {| fired := (total_tx >? 10) && (sell_pct >? 15);
       weight := 25;
       vulnerability := "High selling pressure: " ++ toFixed sell_pct 1 ++ "%";
       recommendation := "Watch for potential sell-off" |};
    {| fired := tokenData.(price_change).(h24) >? 50;
       weight := 5;
       vulnerability :=
         "Possible pump: " ++ toFixed tokenData.(price_change).(h24) 2 ++ "%";
       recommendation := "Extreme caution advised" |};
    match previousData with
    | Some previousData =>
        let previousPrice := parseFloat previousData.(price_usd) in
        let currentPrice := parseFloat tokenData.(price_usd) in
        let price_diff :=
          Math_abs (currentPrice - previousPrice) / previousPrice * 100 in
        {| fired := (previousPrice >? 0) && (price_diff >? 10);
           weight := 10;
           vulnerability := "Sudden price change: " ++ toFixed price_diff 2 ++ "%";
           recommendation := "Investigate price movement" |}
    | None =>
        {| fired := false;
           weight := 10;
           vulnerability := "";
           recommendation := "" |}
    end ].

(** The rules that fired, and the sum of their weights. *)
Definition fired_rules (now : float) (tokenData : TokenData)
    (previousData : option TokenData) : list Rule :=
  List.filter fired (risk_rules now tokenData previousData).

Definition weight_sum (rules : list Rule) : float :=
  fold_left (fun total r => total + r.(weight)) rules 0.

End RiskRules.

(** One rule applied to the running result. *)
Definition apply_rule (acc : RiskAnalysis) (r : Rule) : RiskAnalysis :=
  when r.(fired) (flag r.(vulnerability) r.(weight) r.(recommendation)) acc.

(** * The trend ladder and the alert of one metric, as the specification
      words them *)

Section SpecSide.
Local Open Scope string_scope.
Local Open Scope float_scope.

(** The five labels of the ladder, with the text the analyzer pushes. *)
Definition ladder_labels : list string :=
  ["Strong bullish sentiment"; "Moderate bullish"; "Strong bearish";
   "Moderate bearish"; "Neutral"].

(** The label the thresholds select for an overall score. *)
Definition ladder_label (overall : float) : string :=
  if overall >? 0.7 then "Strong bullish sentiment"
  else if overall >? 0.3 then "Moderate bullish"
  else if overall <? -0.7 then "Strong bearish"
  else if overall <? -0.3 then "Moderate bearish"
  else "Neutral".

Definition is_ladder_label (labels : list string) (t : string) : bool :=
  existsb (String.eqb t) labels.

(** The percentage by which a metric moved: [|current - previous| /
    previous * 100]. *)
Definition percent_change (current previous : float) : float :=
  Math_abs (current - previous) / previous * 100.

Definition direction (current previous : float) : string :=
  if current >? previous then "increased" else "decreased".

(** The alert of one metric: none unless the previous value is positive and
    the change exceeds the threshold. *)
Definition metric_alert (threshold current previous : float)
    (render : string -> string -> string) : list string :=
  if (previous >? 0) && (percent_change current previous >? threshold)
  then [render (direction current previous)
               (toFixed (percent_change current previous) 2)]
  else [].

Definition price_alert (current previous : TokenData) : list string :=
  metric_alert 10 (parseFloat current.(price_usd)) (parseFloat previous.(price_usd))
    (fun dir pct =>
       "PRICE ALERT: " ++ current.(base_token).(symbol) ++ " " ++ dir
       ++ " by " ++ pct ++ "%").

Definition volume_alert (current previous : TokenData) : list string :=
  metric_alert 50 current.(volume).(h1) previous.(volume).(h1)
    (fun dir pct => "VOLUME ALERT: Volume " ++ dir ++ " by " ++ pct ++ "%").

Definition liquidity_alert (current previous : TokenData) : list string :=
  metric_alert 20 current.(liquidity).(usd) previous.(liquidity).(usd)
    (fun dir pct => "LIQUIDITY ALERT: Liquidity " ++ dir ++ " by " ++ pct ++ "%").

End SpecSide.

(** * The history of one token over a sequence of invocations *)

Definition token_key (chainId tokenAddress : string) : string :=
  (chainId ++ "-" ++ tokenAddress)%string.

(** The price point an invocation appends, if its fetch succeeded. *)
Definition price_point_of (w : World) : option PricePoint.t :=
  match w.(fetched) with
  | Some tokenData =>
      Some {| PricePoint.timestamp := (w.(now_point) / 1000)%float;
              PricePoint.price := parseFloat tokenData.(price_usd);
              PricePoint.volume := tokenData.(volume).(h1) |}
  | None => None
  end.

(** Every point appended for [key], oldest first. *)
Fixpoint appended (key : string) (calls : list (string * string * World))
  : list PricePoint.t :=
  match calls with
  | [] => []
  | (chainId, tokenAddress, w) :: rest =>
      match price_point_of w with
      | Some p =>
          if String.eqb (token_key chainId tokenAddress) key
          then p :: appended key rest
          else appended key rest
      | None => appended key rest
      end
  end.

(** The newest [n] elements of a list, in order. *)
Definition newest {A : Type} (n : nat) (l : list A) : list A :=
  drop (length l - n) l.

(** The buffer of [key]; a key never seen has no buffer. *)
Definition history (st : Stores) (key : string) : list PricePoint.t :=
  default [] (st.(priceHistory) !! key).

(** * Sample inputs *)

Section Samples.
Local Open Scope float_scope.

Definition no_token : Token := {| address := ""; name := ""; symbol := "" |}.

Definition no_tx : TxCount := {| buys := 0; sells := 0 |}.

(** The snapshot the normalizer returns for an empty provider record. *)
Definition blank : TokenData := {|
  chain_id := ""; dex_id := ""; url := ""; pair_address := ""; labels := [];
  base_token := no_token; quote_token := no_token;
  price_native := "0"; price_usd := "0";
  txns := {| m5 := no_tx; h1 := no_tx; h6 := no_tx; h24 := no_tx |};
  volume := {| m5 := 0; h1 := 0; h6 := 0; h24 := 0 |};
  price_change := {| m5 := 0; h1 := 0; h6 := 0; h24 := 0 |};
  liquidity := {| usd := 0; base := 0; quote := 0 |};
  fdv := 0; market_cap := 0; pair_created_at := 0 |}.

(** The blank snapshot with the given 24-hour counts. *)
Definition counted (b s : float) : TokenData := {|
  chain_id := ""; dex_id := ""; url := ""; pair_address := ""; labels := [];
  base_token := no_token; quote_token := no_token;
  price_native := "0"; price_usd := "0";
  txns := {| m5 := no_tx; h1 := no_tx; h6 := no_tx;
             h24 := {| buys := b; sells := s |} |};
  volume := {| m5 := 0; h1 := 0; h6 := 0; h24 := 0 |};
  price_change := {| m5 := 0; h1 := 0; h6 := 0; h24 := 0 |};
  liquidity := {| usd := 0; base := 0; quote := 0 |};
  fdv := 0; market_cap := 0; pair_created_at := 0 |}.

(** The risk example of the specification: every field zero but the ones it
    names; [created] is [pair_created_at]. *)
Definition risky (created : float) : TokenData := {|
  chain_id := ""; dex_id := ""; url := ""; pair_address := ""; labels := [];
  base_token := no_token; quote_token := no_token;
  price_native := "0"; price_usd := "0";
  txns := {| m5 := no_tx; h1 := no_tx; h6 := no_tx;
             h24 := {| buys := 10; sells := 95 |} |};
  volume := {| m5 := 0; h1 := 0; h6 := 0; h24 := 0 |};
  price_change := {| m5 := 0; h1 := 0; h6 := 25; h24 := 60 |};
  liquidity := {| usd := 50000; base := 0; quote := 0 |};
  fdv := 0; market_cap := 0; pair_created_at := created |}.

(** A snapshot whose price changes are 1000 percent over both windows. *)
Definition soaring : TokenData := {|
  chain_id := ""; dex_id := ""; url := ""; pair_address := ""; labels := [];
  base_token := no_token; quote_token := no_token;
  price_native := "0"; price_usd := "0";
  txns := {| m5 := no_tx; h1 := no_tx; h6 := no_tx; h24 := no_tx |};
  volume := {| m5 := 0; h1 := 0; h6 := 0; h24 := 0 |};
  price_change := {| m5 := 0; h1 := 1000; h6 := 0; h24 := 1000 |};
  liquidity := {| usd := 0; base := 0; quote := 0 |};
  fdv := 0; market_cap := 0; pair_created_at := 0 |}.

(** [tokenData] with another [price_usd]. *)
Definition with_price_usd (p : string) (tokenData : TokenData) : TokenData := {|
  chain_id := tokenData.(chain_id); dex_id := tokenData.(dex_id);
  url := tokenData.(url); pair_address := tokenData.(pair_address);
  labels := tokenData.(labels);
  base_token := tokenData.(base_token); quote_token := tokenData.(quote_token);
  price_native := tokenData.(price_native); price_usd := p;
  txns := tokenData.(txns); volume := tokenData.(volume);
  price_change := tokenData.(price_change); liquidity := tokenData.(liquidity);
  fdv := tokenData.(fdv); market_cap := tokenData.(market_cap);
  pair_created_at := tokenData.(pair_created_at) |}.

End Samples.

(** * Further definitions the statements use *)

Section StatementSide.
Local Open Scope string_scope.
Local Open Scope float_scope.

(** The weights of the table, in order. *)
Definition rule_weights : list float := [30; 20; 10; 20; 20; 15; 25; 5; 10].

(** The ladder labels as the specification spells them. *)
Definition spec_ladder_labels : list string :=
  ["Strong bullish"; "Moderate bullish"; "Strong bearish"; "Moderate bearish";
   "Neutral"].

(** The weighted price sum before it is clamped, lines 266-268. *)
Definition price_sum (tokenData : TokenData) : float :=
  let price_1h := tokenData.(price_change).(h1) / 100 in
  let price_24h := tokenData.(price_change).(h24) / 100 in
  (price_1h * 0.6) + (price_24h * 0.4).

(** A positive number, finite or infinite, as its specification value. *)
Definition positive_spec (x : spec_float) : Prop :=
  match x with
  | S754_infinity false | S754_finite false _ _ => True
  | _ => False
  end.

(** Which alerts carry a given tag. *)
Definition tagged (tag : string) (alerts : list string) : list string :=
  List.filter (String.prefix tag) alerts.

End StatementSide.

(** * Binary64 values as integers

    A finite binary64 number is [m * 2 ^ e] with [e >= -1074], and no rounding
    step of an addition, a subtraction or a division of two such numbers goes
    below the exponent -3000: scaled by [2 ^ 3000] every value is an integer,
    and the order of the numbers is the order of these integers. *)

Section ScaledValues.
Local Open Scope Z_scope.

(** The value [m * 2 ^ e], scaled. *)
Definition scaled (m e : Z) : Z := m * 2 ^ (e + 3000).

(** Nothing was shifted out. *)
Definition exact_record (mrs : shr_record) : bool :=
  negb (shr_r mrs) && negb (shr_s mrs).

Definition exact_location (l : location) : bool :=
  match l with loc_Exact => true | loc_Inexact _ => false end.

(** The exponent is the one the format gives a mantissa of that many digits. *)
Definition canonical (m : positive) (e : Z) : Prop :=
  SpecFloat.fexp prec emax (Zpos (digits2_pos m) + e) = e.

(** The number 1. *)
Definition one_spec : spec_float := S754_finite false 4503599627370496 (-52).

(** A count: zero, or a positive finite number. *)
Definition count_spec (x : spec_float) : Prop :=
  match x with
  | S754_zero false => True
  | S754_finite false m e => canonical m e /\ e <= 971
  | _ => False
  end.

End ScaledValues.

(** * The values of a parsed response

    What [axios] hands over is the parsed JSON text of the response, or the
    text itself: a value without functions, getters or cycles.  The
    properties of an object are listed in lookup order. *)

Set Warnings "-register-all".
Inductive Value : Type :=
  | Undefined
  | Null
  | Boolean (b : bool)
  | Number (x : float)
  | Text (s : string)
  | Array (items : list Value)
  | Object (properties : list (string * Value)).

Section Values.
Local Open Scope string_scope.

(** The own property [key] of an object; [undefined] when there is none. *)
Fixpoint own (properties : list (string * Value)) (key : string) : Value :=
  match properties with
  | [] => Undefined
  | (k, v) :: rest => if String.eqb k key then v else own rest key
  end.

Definition has_key (properties : list (string * Value)) (key : string) : bool :=
  existsb (fun p => String.eqb (fst p) key) properties.

(** [v.key] for the property names the program reads.  None of them is
    defined on a number, a string, a boolean or an array, nor inherited by an
    object, so only an own property of an object is found; reading from
    [undefined] or [null] throws. *)
Definition get_property (v : Value) (key : string) : Completion Value :=
  match v with
  | Undefined =>
      Throw (TypeError ("Cannot read properties of undefined (reading '" ++ key ++ "')"))
  | Null =>
      Throw (TypeError ("Cannot read properties of null (reading '" ++ key ++ "')"))
  | Object properties => Return (own properties key)
  | _ => Return Undefined
  end.

(** [v?.key] *)
Definition get_optional (v : Value) (key : string) : Value :=
  match v with
  | Object properties => own properties key
  | _ => Undefined
  end.

(** [ToBoolean] *)
Definition truthy_value (v : Value) : bool :=
  match v with
  | Undefined | Null => false
  | Boolean b => b
  | Number x => truthy x
  | Text s => negb (String.eqb s "")
  | Array _ | Object _ => true
  end.

(** [v || d] *)
Definition or_else (v d : Value) : Value := if truthy_value v then v else d.

End Values.

(** ** [Number::toString]

    The decimal with the fewest digits that reads back as the number; of two
    such decimals the nearer one, and the even one on a tie.  It is printed
    plainly when the decimal point falls within 21 digits before or 6 zeros
    after it, and in exponent form otherwise. *)

Section NumberToString.
Local Open Scope string_scope.
Local Open Scope Z_scope.

(** A lower bound of the number of decimal digits before the point of a
    number of [b] binary digits before the point: 0.3 < log10 2 < 0.31. *)
Definition magnitude_from (b : Z) : Z :=
  if 0 <=? b - 1 then (b - 1) * 3 / 10 else (b - 1) * 31 / 100.

(** The least [n], from [n] up, with [N / D < 10 ^ n]. *)
Fixpoint magnitude (fuel : nat) (N D n : Z) : Z :=
  match fuel with
  | O => n
  | S fuel' =>
      if N * 10 ^ Z.max (- n) 0 <? D * 10 ^ Z.max n 0 then n
      else magnitude fuel' N D (n + 1)
  end.

(** Does the [k]-digit decimal [s * 10 ^ (n - k)] read back as [x]? *)
Definition reads_back (x : float) (k : Z) (c : Z * Z) : bool :=
  PrimFloat.Leibniz.eqb (decimal_to_float false (fst c) k (snd c - k)) x.

(** The [k]-digit decimals on either side of [N / D], whose magnitude is
    [n]: the digits [s] and the magnitude of each. *)
Definition neighbours (N D n k : Z) : (Z * Z) * (Z * Z) :=
  let P := N * 10 ^ Z.max (k - n) 0 in
  let Q := D * 10 ^ Z.max (n - k) 0 in
  let s0 := P / Q in
  ((s0, n), if s0 + 1 <? 10 ^ k then (s0 + 1, n) else (10 ^ (k - 1), n + 1)).

(** Of the two the one nearer to [N / D]; on a tie the even one. *)
Definition nearer (N D n k : Z) (c0 c1 : Z * Z) : Z * Z :=
  let P := N * 10 ^ Z.max (k - n) 0 in
  let Q := D * 10 ^ Z.max (n - k) 0 in
  let d0 := P - fst c0 * Q in
  let d1 := (fst c0 + 1) * Q - P in
  if d0 <? d1 then c0 else if d1 <? d0 then c1
  else if Z.even (fst c0) then c0 else c1.

(** The first digit count, from [k] up, that has a decimal reading back as
    [x]; seventeen digits always do. *)
Fixpoint shortest_decimal (fuel : nat) (x : float) (N D n k : Z) : Z * Z * Z :=
  match fuel with
  | O => (fst (neighbours N D n k), k)
  | S fuel' =>
      let '(c0, c1) := neighbours N D n k in
      match reads_back x k c0, reads_back x k c1 with
      | true, true => (nearer N D n k c0 c1, k)
      | true, false => (c0, k)
      | false, true => (c1, k)
      | false, false => shortest_decimal fuel' x N D n (k + 1)
      end
  end.

(** The characters of [s] from position [i] on, [n] of them. *)
Definition digits_between (s : string) (i n : Z) : string :=
  substring (Z.to_nat i) (Z.to_nat n) s.

Definition Number_toString (x : float) : string :=
  match Prim2SF x with
  | S754_nan => "NaN"
  | S754_zero _ => "0"
  | S754_infinity s => if s then "-Infinity" else "Infinity"
  | S754_finite s m e =>
      let N := if 0 <=? e then Zpos m * 2 ^ e else Zpos m in
      let D := if 0 <=? e then 1 else 2 ^ (- e) in
      let n := magnitude 20 N D (magnitude_from (Zpos (digits2_pos m) + e)) in
      let '(d, n, k) := shortest_decimal 17 (abs x) N D n 1 in
      let ds := decimal_of_Z d in
      (if s then "-" else "") ++
      (if (-5 <=? n) && (n <=? 21) then
         if k <=? n then ds ++ zeros (Z.to_nat (n - k))
         else if 0 <? n then digits_between ds 0 n ++ "." ++ digits_between ds n (k - n)
         else "0." ++ zeros (Z.to_nat (- n)) ++ ds
       else
         let exponent :=
           (if 0 <=? n - 1 then "+" else "-") ++ decimal_of_Z (Z.abs (n - 1)) in
         if k =? 1 then ds ++ "e" ++ exponent
         else digits_between ds 0 1 ++ "." ++ digits_between ds 1 (k - 1)
              ++ "e" ++ exponent)
  end.

End NumberToString.

(** * ToString, parseFloat of a value *)

Section Conversions.
Local Open Scope string_scope.

(** [ToString]: an array prints its elements separated by commas, with
    nothing for [undefined] and [null]; an object prints as
    [[object Object]], unless it has a property [toString] of its own, which
    is no function: then there is no primitive value to convert to. *)
Fixpoint ToString (v : Value) : Completion string :=
  match v with
  | Undefined => Return "undefined"
  | Null => Return "null"
  | Boolean b => Return (if b then "true" else "false")
  | Number x => Return (Number_toString x)
  | Text s => Return s
  | Array items =>
      (fix join (items : list Value) : Completion string :=
         match items with
         | [] => Return ""
         | item :: rest =>
             let* s :=
               match item with
               | Undefined | Null => Return ""
               | _ => ToString item
               end in
             match rest with
             | [] => Return s
             | _ => let* r := join rest in Return (s ++ "," ++ r)
             end
         end) items
  | Object properties =>
      if has_key properties "toString"
      then Throw (TypeError "Cannot convert object to primitive value")
      else Return "[object Object]"
  end.

(** [parseFloat(v)] *)
Definition parseFloat_value (v : Value) : Completion float :=
  let* s := ToString v in Return (parseFloat s).

(** [parseFloat(v) || 0] *)
Definition parseFloat_or_zero (v : Value) : Completion float :=
  let* x := parseFloat_value v in Return (or_zero x).

End Conversions.

(** * transformDexResponse *)

Module Raw.

Record Token : Type := {
  address : Value;
  name : Value;
  symbol : Value
}.

(** The object [transformDexResponse] returns.  The fields read through
    [parseFloat] are numbers; the others hold whatever the response held. *)
Record t : Type := {
  chain_id : Value;
  dex_id : Value;
  url : Value;
  pair_address : Value;
  labels : Value;
  base_token : Token;
  quote_token : Token;
  price_native : Value;
  price_usd : Value;
  txns : Windows Value;
  volume : Windows float;
  price_change : Windows float;
  liquidity : Liquidity;
  fdv : float;
  market_cap : float;
  pair_created_at : Value;
  info : Value;
  boosts : Value
}.

End Raw.

Section TransformDexResponse.
Local Open Scope string_scope.

(** [{ buys: 0, sells: 0 }] *)
Definition no_counts : Value :=
  Object [("buys", Number 0); ("sells", Number 0)].

(** [transformDexResponse(pair)], lines 115-163, property by property in the
    order of the object literal. *)
Definition transformDexResponse (pair : Value) : Completion Raw.t :=
  let* chainId := get_property pair "chainId" in
  let* dexId := get_property pair "dexId" in
  let* url := get_property pair "url" in
  let* pairAddress := get_property pair "pairAddress" in
  let* labels := get_property pair "labels" in
  let* baseToken := get_property pair "baseToken" in
  let* quoteToken := get_property pair "quoteToken" in
  let* priceNative := get_property pair "priceNative" in
  let* priceUsd := get_property pair "priceUsd" in
  let* txns := get_property pair "txns" in
  let* volume := get_property pair "volume" in
  let* volume_h24 := parseFloat_or_zero (get_optional volume "h24") in
  let* volume_h6 := parseFloat_or_zero (get_optional volume "h6") in
  let* volume_h1 := parseFloat_or_zero (get_optional volume "h1") in
  let* volume_m5 := parseFloat_or_zero (get_optional volume "m5") in
  let* priceChange := get_property pair "priceChange" in
  let* change_m5 := parseFloat_or_zero (get_optional priceChange "m5") in
  let* change_h1 := parseFloat_or_zero (get_optional priceChange "h1") in
  let* change_h6 := parseFloat_or_zero (get_optional priceChange "h6") in
  let* change_h24 := parseFloat_or_zero (get_optional priceChange "h24") in
  let* liquidity := get_property pair "liquidity" in
  let* liquidity_usd := parseFloat_or_zero (get_optional liquidity "usd") in
  let* liquidity_base := parseFloat_or_zero (get_optional liquidity "base") in
  let* liquidity_quote := parseFloat_or_zero (get_optional liquidity "quote") in
  let* fdv := get_property pair "fdv" in
  let* fdv := parseFloat_or_zero fdv in
  let* marketCap := get_property pair "marketCap" in
  let* marketCap := parseFloat_or_zero marketCap in
  let* pairCreatedAt := get_property pair "pairCreatedAt" in
  let* info := get_property pair "info" in
  let* boosts := get_property pair "boosts" in
  Return
    {| Raw.chain_id := or_else chainId (Text "");
       Raw.dex_id := or_else dexId (Text "");
       Raw.url := or_else url (Text "");
       Raw.pair_address := or_else pairAddress (Text "");
       Raw.labels := or_else labels (Array []);
       Raw.base_token :=
         {| Raw.address := or_else (get_optional baseToken "address") (Text "");
            Raw.name := or_else (get_optional baseToken "name") (Text "");
            Raw.symbol := or_else (get_optional baseToken "symbol") (Text "") |};
       Raw.quote_token :=
         {| Raw.address := or_else (get_optional quoteToken "address") (Text "");
            Raw.name := or_else (get_optional quoteToken "name") (Text "");
            Raw.symbol := or_else (get_optional quoteToken "symbol") (Text "") |};
       Raw.price_native := or_else priceNative (Text "0");
       Raw.price_usd := or_else priceUsd (Text "0");
       Raw.txns :=
         {| m5 := or_else (get_optional txns "m5") no_counts;
            h1 := or_else (get_optional txns "h1") no_counts;
            h6 := or_else (get_optional txns "h6") no_counts;
            h24 := or_else (get_optional txns "h24") no_counts |};
       Raw.volume :=
         {| m5 := volume_m5; h1 := volume_h1; h6 := volume_h6; h24 := volume_h24 |};
       Raw.price_change :=
         {| m5 := change_m5; h1 := change_h1; h6 := change_h6; h24 := change_h24 |};
       Raw.liquidity :=
         {| usd := liquidity_usd; base := liquidity_base; quote := liquidity_quote |};
       Raw.fdv := fdv;
       Raw.market_cap := marketCap;
       Raw.pair_created_at := or_else pairCreatedAt (Number 0);
       Raw.info := info;
       Raw.boosts := boosts |}.

End TransformDexResponse.

(** * getTokenData *)

(** What the [catch] block of [getTokenData] caught and printed: the
    rejection of the request, or an error thrown while the response was
    read. *)
Variant Caught : Type :=
  | Rejected
  | Thrown (e : JsError).

Section GetTokenData.
Local Open Scope string_scope.

(** [p => p.chainId === chainId]: a string is strictly equal to that string
    only. *)
Definition is_chain (chainId : string) (p : Value) : Completion bool :=
  let* c := get_property p "chainId" in
  Return (match c with Text s => String.eqb s chainId | _ => false end).

(** [items.find(predicate)] *)
Fixpoint Array_find (predicate : Value -> Completion bool) (items : list Value)
  : Completion Value :=
  match items with
  | [] => Return Undefined
  | item :: rest =>
      let* found := predicate item in
      if found : bool then Return item else Array_find predicate rest
  end.

(** The address requested, line 99. *)
Definition endpoint (tokenAddress : string) : string :=
  "https://api.dexscreener.com/latest/dex/tokens/" ++ tokenAddress.

(** [getTokenData(chainId, tokenAddress)], lines 97-113.  [request url] is the
    data of the response [axios.get(url)] resolves to, [None] if it is
    rejected.  The result is the snapshot, [None] for [null], and what the
    [catch] block printed, if it was entered. *)
Definition getTokenData (request : string -> option Value)
    (chainId tokenAddress : string) : option Raw.t * option Caught :=
  let url := endpoint tokenAddress in
  match request url with
  | None => (None, Some Rejected)
  | Some data =>
      let attempt : Completion (option Raw.t) :=
        if truthy_value data then
          let* pairs := get_property data "pairs" in
          if truthy_value pairs then
            let* pair :=
              match pairs with
              | Array items => Array_find (is_chain chainId) items
              | _ => Throw (TypeError "data.pairs.find is not a function")
              end in
            if truthy_value pair then
              let* snapshot := transformDexResponse pair in
              Return (Some snapshot)
            else Return None
          else Return None
        else Return None in
      match attempt with
      | Return r => (r, None)
      | Throw e => (None, Some (Thrown e))
      end
  end.

End GetTokenData.

(** The numbers of a snapshot. *)
Definition numbers (snapshot : Raw.t) : list float :=
  [snapshot.(Raw.volume).(m5); snapshot.(Raw.volume).(h1);
   snapshot.(Raw.volume).(h6); snapshot.(Raw.volume).(h24);
   snapshot.(Raw.price_change).(m5); snapshot.(Raw.price_change).(h1);
   snapshot.(Raw.price_change).(h6); snapshot.(Raw.price_change).(h24);
   snapshot.(Raw.liquidity).(usd); snapshot.(Raw.liquidity).(base);
   snapshot.(Raw.liquidity).(quote); snapshot.(Raw.fdv); snapshot.(Raw.market_cap)].

(** A pair as the provider sends it, cut down to a few properties. *)
Definition sample_pair (chainId : string) : Value :=
  Object [("chainId", Text chainId); ("dexId", Text "raydium");
          ("baseToken", Object [("symbol", Text "SOL")]);
          ("priceUsd", Text "1.15");
          ("txns", Object [("h24", Object [("buys", Number 10); ("sells", Number 95)])]);
          ("volume", Object [("h24", Number 1234.5); ("h1", Text "abc")]);
          ("priceChange", Object [("h6", Number (-25)); ("h24", Null)]);
          ("liquidity", Object [("usd", Number 50000)]);
          ("fdv", Number (-0)%float);
          ("pairCreatedAt", Number 1761782400000)].

(** * From the normalized object to the snapshot the analysis reads

    The analysis reads identifiers and prices as strings and counts and the
    creation time as numbers.  [typed] is the normalized object as that
    record; it is defined when the properties passed through have these
    types, as they have in the provider's responses. *)

Section Typed.
Local Open Scope string_scope.

Definition as_text (v : Value) : option string :=
  match v with Text s => Some s | _ => None end.

Definition as_number (v : Value) : option float :=
  match v with Number x => Some x | _ => None end.

Definition as_counts (v : Value) : option TxCount :=
  b ← as_number (get_optional v "buys");
  s ← as_number (get_optional v "sells");
  Some {| buys := b; sells := s |}.

Definition as_labels (v : Value) : option (list string) :=
  match v with
  | Array items => mapM as_text items
  | _ => None
  end.

Definition as_token (token : Raw.Token) : option Token :=
  a ← as_text token.(Raw.address);
  n ← as_text token.(Raw.name);
  s ← as_text token.(Raw.symbol);
  Some {| address := a; name := n; symbol := s |}.

Definition typed (snapshot : Raw.t) : option TokenData :=
  chain_id ← as_text snapshot.(Raw.chain_id);
  dex_id ← as_text snapshot.(Raw.dex_id);
  url ← as_text snapshot.(Raw.url);
  pair_address ← as_text snapshot.(Raw.pair_address);
  labels ← as_labels snapshot.(Raw.labels);
  base_token ← as_token snapshot.(Raw.base_token);
  quote_token ← as_token snapshot.(Raw.quote_token);
  price_native ← as_text snapshot.(Raw.price_native);
  price_usd ← as_text snapshot.(Raw.price_usd);
  txns_m5 ← as_counts snapshot.(Raw.txns).(m5);
  txns_h1 ← as_counts snapshot.(Raw.txns).(h1);
  txns_h6 ← as_counts snapshot.(Raw.txns).(h6);
  txns_h24 ← as_counts snapshot.(Raw.txns).(h24);
  pair_created_at ← as_number snapshot.(Raw.pair_created_at);
  Some {| chain_id := chain_id; dex_id := dex_id; url := url;
          pair_address := pair_address; labels := labels;
          base_token := base_token; quote_token := quote_token;
          price_native := price_native; price_usd := price_usd;
          txns := {| m5 := txns_m5; h1 := txns_h1; h6 := txns_h6; h24 := txns_h24 |};
          volume := snapshot.(Raw.volume);
          price_change := snapshot.(Raw.price_change);
          liquidity := snapshot.(Raw.liquidity);
          fdv := snapshot.(Raw.fdv);
          market_cap := snapshot.(Raw.market_cap);
          pair_created_at := pair_created_at |}.

(** What an invocation fetches, for the analysis: the [fetched] of its
    [World]. *)
Definition fetch (request : string -> option Value) (chainId tokenAddress : string)
  : option TokenData :=
  snapshot ← fst (getTokenData request chainId tokenAddress);
  typed snapshot.

(** The numbers of a snapshot that the normalizer read through
    [parseFloat]. *)
Definition parsed_numbers (tokenData : TokenData) : list float :=
  [tokenData.(volume).(m5); tokenData.(volume).(h1);
   tokenData.(volume).(h6); tokenData.(volume).(h24);
   tokenData.(price_change).(m5); tokenData.(price_change).(h1);
   tokenData.(price_change).(h6); tokenData.(price_change).(h24);
   tokenData.(liquidity).(usd); tokenData.(liquidity).(base);
   tokenData.(liquidity).(quote); tokenData.(fdv); tokenData.(market_cap)].

End Typed.

(** * The file of a token's weekly data *)

Section Replace.
Local Open Scope string_scope.

(** [s] without its first [n] characters. *)
Fixpoint skip (n : nat) (s : string) : string :=
  match n, s with
  | S k, String _ r => skip k r
  | _, _ => s
  end.

(** The text before and the text after the first occurrence of [pattern] in
    [s], if there is one. *)
Fixpoint split_at_first (pattern s : string) : option (string * string) :=
  if String.prefix pattern s then Some ("", skip (String.length pattern) s)
  else
    match s with
    | String c r =>
        match split_at_first pattern r with
        | Some (before, after) => Some (String c before, after)
        | None => None
        end
    | EmptyString => None
    end.

(** [GetSubstitution] for a string pattern: in the replacement text [$$] is a
    dollar sign, [$&] the matched text, [$`] the text before the match and
    [$'] the text after it; without captures every other [$] stands for
    itself. *)
Fixpoint substitution (matched before after template : string) : string :=
  match template with
  | String "$" t =>
      match t with
      | String "$" r => "$" ++ substitution matched before after r
      | String "&" r => matched ++ substitution matched before after r
      | String "`" r => before ++ substitution matched before after r
      | String "'" r => after ++ substitution matched before after r
      | _ => String "$" (substitution matched before after t)
      end
  | String c t => String c (substitution matched before after t)
  | EmptyString => ""
  end.

(** [s.replace(pattern, replacement)] for a string pattern and a string
    replacement: only the first occurrence is replaced. *)
Definition replace (pattern replacement s : string) : string :=
  match split_at_first pattern s with
  | Some (before, after) =>
      before ++ substitution pattern before after replacement ++ after
  | None => s
  end.

(** The name of the file of a token under the data directory, lines 47 and
    57: [`${tokenKey.replace('/', '_')}.json`]. *)
Definition weekly_file (tokenKey : string) : string :=
  replace "/" "_" tokenKey ++ ".json".

End Replace.

(** * Further definitions the statements about the invocations use *)

(** Does [c] occur in [s]? *)
Fixpoint has_char (c : ascii) (s : string) : bool :=
  match s with
  | String d r => Ascii.eqb c d || has_char c r
  | EmptyString => false
  end.

(** The console lines of lines 406-410 for a list of alerts. *)
Definition alert_block (alerts : list string) : list Effect :=
  match alerts with
  | [] => []
  | _ => [ConsoleLog (String "010" "=== ALERTS ===")]
         ++ map ConsoleLog alerts
         ++ [ConsoleLog ("==============" ++ String "010" "")%string]
  end.



(** * Further sample inputs *)

Section MoreSamples.
Local Open Scope string_scope.
Local Open Scope float_scope.

(** The blank snapshot with the given hourly volume and liquidity. *)
Definition trading (vol liq : float) : TokenData := {|
  chain_id := ""; dex_id := ""; url := ""; pair_address := ""; labels := [];
  base_token := no_token; quote_token := no_token;
  price_native := "0"; price_usd := "0";
  txns := {| m5 := no_tx; h1 := no_tx; h6 := no_tx; h24 := no_tx |};
  volume := {| m5 := 0; h1 := vol; h6 := 0; h24 := 0 |};
  price_change := {| m5 := 0; h1 := 0; h6 := 0; h24 := 0 |};
  liquidity := {| usd := liq; base := 0; quote := 0 |};
  fdv := 0; market_cap := 0; pair_created_at := 0 |}.

(** An invocation that fetched [tokenData] at time zero, with no stored
    file and no key. *)
Definition fetching (tokenData : TokenData) : World :=
  {| fetched := Some tokenData; now_point := 0; now_risk := 0; now_report := 0;
     weekly := None; api_key := None |}.

(** A response with pairs of two chains, at the address of one token. *)
Definition sample_request (url : string) : option Value :=
  if String.eqb url (endpoint "So11")
  then Some (Object [("schemaVersion", Text "1.0.0");
                     ("pairs", Array [sample_pair "ethereum"; sample_pair "solana"])])
  else None.

End MoreSamples.

Arguments toFixed : simpl never.
Arguments parseFloat : simpl never.
Arguments Math_min : simpl never.
Arguments Math_max : simpl never.
Arguments Math_abs : simpl never.
Arguments or_zero : simpl never.
Arguments truthy : simpl never.
Arguments token_age : simpl never.

(** * Proof automation *)

(** Case analysis on the comparisons of exponents and mantissas under
    [SFcompare]. *)
Ltac order_cases :=
  unfold CompOpp in *;
  repeat match goal with
  | |- context [Z.compare ?a ?b] => destruct (Z.compare_spec a b)
  | H : context [Z.compare ?a ?b] |- _ => destruct (Z.compare_spec a b)
  | |- context [Pos.compare_cont Eq ?a ?b] =>
      change (Pos.compare_cont Eq a b) with (Pos.compare a b) in *;
      destruct (Pos.compare_spec a b)
  | H : context [Pos.compare_cont Eq ?a ?b] |- _ =>
      change (Pos.compare_cont Eq a b) with (Pos.compare a b) in *;
      destruct (Pos.compare_spec a b)
  end;
  try congruence; try lia.

(** The shapes of a specification float, signs apart. *)
Ltac spec_cases x := destruct x as [[|]|[|]| |[|] ? ?].

(** The rows of [risk_rules] a membership hypothesis ranges over. *)
Ltac rule_rows H :=
  unfold risk_rules in H; cbv zeta in H;
  repeat (destruct H as [H|H]; [subst|]); [..|destruct H].

(** Case analysis on every condition and optional argument in the goal. *)
Ltac split_ifs :=
  repeat match goal with
  | |- context [if ?b then _ else _] => destruct b
  | |- context [match ?o with Some _ => _ | None => _ end] => destruct o
  end.

(** * The built-ins on known values *)

Section BuiltinExamples.
Local Open Scope string_scope.
Local Open Scope float_scope.

Example parseFloat_decimal :
  List.map parseFloat ["1.15"; "1.00"; "0"; "  12.5e2xyz"; ".5"; "5."; "-.5e-2"]
  = [1.15; 1; 0; 1250; 0.5; 5; -0.005].
Proof. vm_compute. reflexivity. Qed.

Example parseFloat_not_a_number :
  List.map (fun s => is_nan (parseFloat s)) ["abc"; ""; "."; "e5"; "-"]
  = [true; true; true; true; true].
Proof. vm_compute. reflexivity. Qed.

Example parseFloat_limits :
  List.map parseFloat ["1e999"; "-Infinity"; "1e-999"; "5e-324"; "1.7976931348623157e308"]
  = [infinity; neg_infinity; 0; 5e-324; 1.7976931348623157e308].
Proof. vm_compute. reflexivity. Qed.

Example toFixed_rounds_the_exact_value :
  [toFixed 25 2; toFixed 0.005 2; toFixed 1.005 2; toFixed 2.5 0; toFixed (-2.5) 0;
   toFixed 1.45 1; toFixed (-0.001) 2; toFixed (-0) 2; toFixed 123.456 10]
  = ["25.00"; "0.01"; "1.00"; "3"; "-3"; "1.4"; "-0.00"; "0.00"; "123.4560000000"].
Proof. vm_compute. reflexivity. Qed.

Example toFixed_large :
  [toFixed 999999999999999900000 2; toFixed 1e21 2; toFixed 1180591620717411303424 2;
   toFixed nan 2; toFixed infinity 2]
  = ["999999999999999868928.00"; "1e+21"; "1.1805916207174113e+21"; "NaN"; "Infinity"].
Proof. vm_compute. reflexivity. Qed.

Example Math_min_max :
  (Math_min 95 70, Math_min 0 (-0), Math_max (-1) (Math_min 1 10), is_nan (Math_min nan 70))
  = (70, -0, 1, true).
Proof. vm_compute. reflexivity. Qed.

Example slice_relative :
  (slice [1; 2; 3; 4; 5]%Z (-2) None, slice [1; 2; 3; 4; 5]%Z (-20) None,
   slice [1; 2; 3; 4; 5]%Z 1 (Some (-1)%Z), slice [1; 2; 3]%Z 0 (Some 5%Z))
  = ([4; 5]%Z, [1; 2; 3; 4; 5]%Z, [2; 3; 4]%Z, [1; 2; 3]%Z).
Proof. reflexivity. Qed.

End BuiltinExamples.

(** * Order facts on binary64 numbers *)

Section SpecOrder.

Lemma SFltb_trans x y z :
  SFltb x y = true -> SFltb y z = true -> SFltb x z = true.
Proof.
  unfold SFltb, SFcompare.
  spec_cases x; spec_cases y; try discriminate; spec_cases z;
    try discriminate; try reflexivity; intros; order_cases.
Qed.

Lemma SFleb_trans x y z :
  SFleb x y = true -> SFleb y z = true -> SFleb x z = true.
Proof.
  unfold SFleb, SFcompare.
  spec_cases x; spec_cases y; try discriminate; spec_cases z;
    try discriminate; try reflexivity; intros; order_cases.
Qed.

Lemma SFltb_SFleb x y : SFltb x y = true -> SFleb x y = true.
Proof.
  unfold SFltb, SFleb. destruct (SFcompare x y) as [[| |]|]; congruence.
Qed.

Lemma SFleb_total x y :
  x <> S754_nan -> y <> S754_nan -> SFltb y x = false -> SFleb x y = true.
Proof.
  unfold SFltb, SFleb, SFcompare.
  spec_cases x; spec_cases y; try congruence; try reflexivity;
    intros; order_cases.
Qed.

End SpecOrder.

Section FloatOrder.
Local Open Scope float_scope.

Lemma is_nan_false (x : float) : is_nan x = false -> Prim2SF x <> S754_nan.
Proof.
  unfold is_nan. rewrite FloatAxioms.eqb_spec. intros H E. rewrite E in H. discriminate.
Qed.

Lemma float_ltb_trans (x y z : float) :
  (x <? y) = true -> (y <? z) = true -> (x <? z) = true.
Proof. rewrite !ltb_spec. apply SFltb_trans. Qed.

Lemma float_leb_trans (x y z : float) :
  (x <=? y) = true -> (y <=? z) = true -> (x <=? z) = true.
Proof. rewrite !leb_spec. apply SFleb_trans. Qed.

Lemma float_ltb_leb (x y : float) : (x <? y) = true -> (x <=? y) = true.
Proof. rewrite ltb_spec, leb_spec. apply SFltb_SFleb. Qed.

Lemma float_leb_total (x y : float) :
  is_nan x = false -> is_nan y = false -> (y <? x) = false -> (x <=? y) = true.
Proof.
  intros Hx Hy. rewrite ltb_spec, leb_spec.
  apply SFleb_total; by apply is_nan_false.
Qed.

(** The clamp [Math.max(-1, Math.min(1, x))] of a number stays in [-1, 1]. *)
Lemma clamp_unit (x : float) :
  is_nan x = false ->
  let c := Math_max (-1) (Math_min 1 x) in
  (-1 <=? c) = true /\ (c <=? 1) = true.
Proof.
  intros Hx. unfold Math_max, Math_min.
  change (is_nan 1) with false. change (is_nan (-1)) with false.
  rewrite Hx. cbv iota.
  change (classify 1) with PNormal. change (classify (-1)) with NNormal. cbv iota.
  destruct (1 <? x) eqn:H1.
  - change (is_nan 1) with false. vm_compute. done.
  - assert (Hle : (x <=? 1) = true) by (by apply float_leb_total).
    assert (E : (if x <? 1 then x else x) = x) by (by destruct (x <? 1)).
    rewrite E, Hx.
    destruct (-1 <? x) eqn:H2.
    + split; [by apply float_ltb_leb | done].
    + destruct (x <? -1) eqn:H3.
      * vm_compute. done.
      * split; [by apply float_leb_total | done].
Qed.

End FloatOrder.

(** * Rounding never crosses a binary64 number

    The sum of two positive numbers is rounded to a number not below either of
    them, the difference to a number not above the larger, and the quotient of
    a number by one at least as large to a number not above 1. *)

Section Rounding.
Local Open Scope Z_scope.

Local Abbreviation fexp := (SpecFloat.fexp prec emax).

Lemma SFabs_binary_round_aux s m e l :
  SFabs (binary_round_aux prec emax s m e l) = binary_round_aux prec emax false m e l.
Proof.
  unfold binary_round_aux.
  destruct (shr_fexp prec emax m e l) as [mrs' e'].
  destruct (shr_fexp prec emax _ e' loc_Exact) as [mrs'' e''].
  destruct (shr_m mrs''); [reflexivity| |reflexivity].
  destruct (Z.leb e'' (Z.sub emax prec)); reflexivity.
Qed.

Lemma fexp_eq e : fexp e = Z.max (e - 53) (-1074).
Proof. reflexivity. Qed.

Lemma pow2_pos a : 0 <= a -> 0 < 2 ^ a.
Proof. intros. by apply Z.pow_pos_nonneg. Qed.

Lemma pow2_split a b : 0 <= a -> 0 <= b -> 2 ^ (a + b) = 2 ^ a * 2 ^ b.
Proof. intros. by apply Z.pow_add_r. Qed.

Lemma digits2_pos_bounds (m : positive) :
  2 ^ (Zpos (digits2_pos m) - 1) <= Zpos m < 2 ^ Zpos (digits2_pos m).
Proof.
  induction m as [m IH|m IH|]; cbn [digits2_pos].
  - rewrite Pos2Z.inj_succ.
    replace (Z.succ (Zpos (digits2_pos m)) - 1) with ((Zpos (digits2_pos m) - 1) + 1) by lia.
    rewrite Z.pow_succ_r by lia.
    destruct (Z.eq_dec (Zpos (digits2_pos m)) 1) as [E|E].
    + rewrite E in *. cbn in *. lia.
    + rewrite pow2_split by lia. lia.
  - rewrite Pos2Z.inj_succ.
    replace (Z.succ (Zpos (digits2_pos m)) - 1) with ((Zpos (digits2_pos m) - 1) + 1) by lia.
    rewrite Z.pow_succ_r by lia.
    rewrite pow2_split by lia. lia.
  - cbn. lia.
Qed.

Lemma Zdigits2_bounds (m : Z) :
  0 < m -> 2 ^ (Zdigits2 m - 1) <= m < 2 ^ Zdigits2 m.
Proof. destruct m as [|p|p]; try lia. intros _. apply digits2_pos_bounds. Qed.

Lemma Zdigits2_pos (m : Z) : 0 < m -> 0 < Zdigits2 m.
Proof. destruct m; cbn; lia. Qed.

Lemma pow2_lt_inv a b : 0 <= b -> 2 ^ a < 2 ^ b -> a < b.
Proof.
  intros Hb H. destruct (Z_lt_le_dec a b) as [|Hle]; [done|].
  apply (Z.pow_le_mono_r 2) in Hle; lia.
Qed.

(** A number below a power of two has no more digits than its exponent. *)
Lemma Zdigits2_le (m d : Z) : 0 < m -> 0 <= d -> m < 2 ^ d -> Zdigits2 m <= d.
Proof.
  intros Hm Hd Hlt. pose proof (Zdigits2_bounds m Hm) as [Hlo _].
  pose proof (Zdigits2_pos m Hm).
  assert (2 ^ (Zdigits2 m - 1) < 2 ^ d) by lia.
  apply pow2_lt_inv in H0; lia.
Qed.

Lemma Zdigits2_ge (m d : Z) : 0 < m -> 2 ^ d <= m -> d < Zdigits2 m.
Proof.
  intros Hm Hle. pose proof (Zdigits2_bounds m Hm) as [_ Hhi].
  pose proof (Zdigits2_pos m Hm).
  apply pow2_lt_inv; lia.
Qed.

(** The digits of a number shifted right. *)
Lemma Zdigits2_shift (m n : Z) :
  0 < m -> 0 <= n -> n < Zdigits2 m -> Zdigits2 (m / 2 ^ n) = Zdigits2 m - n.
Proof.
  intros Hm Hn Hlt.
  pose proof (Zdigits2_bounds m Hm) as [Hlo Hhi].
  pose proof (pow2_pos n Hn) as Hp.
  assert (Hq : 2 ^ (Zdigits2 m - n - 1) <= m / 2 ^ n < 2 ^ (Zdigits2 m - n)).
  { split.
    - apply Z.div_le_lower_bound; [lia|].
      rewrite <- pow2_split by lia.
      by replace (n + (Zdigits2 m - n - 1)) with (Zdigits2 m - 1) by lia.
    - apply Z.div_lt_upper_bound; [lia|].
      rewrite <- pow2_split by lia.
      by replace (n + (Zdigits2 m - n)) with (Zdigits2 m) by lia. }
  assert (Hq0 : 0 < m / 2 ^ n).
  { pose proof (pow2_pos (Zdigits2 m - n - 1)). lia. }
  pose proof (Zdigits2_le (m / 2 ^ n) (Zdigits2 m - n) Hq0).
  pose proof (Zdigits2_ge (m / 2 ^ n) (Zdigits2 m - n - 1) Hq0).
  lia.
Qed.

Lemma shift_zero (m n : Z) : 0 <= m -> 0 <= n -> Zdigits2 m <= n -> m / 2 ^ n = 0.
Proof.
  intros Hm Hn Hd. destruct (Z.eq_dec m 0) as [->|Hne]; [by rewrite Z.div_0_l by (pose proof (pow2_pos n); lia)|].
  apply Z.div_small. split; [lia|].
  pose proof (Zdigits2_bounds m ltac:(lia)) as [_ Hhi].
  pose proof (Z.pow_le_mono_r 2 (Zdigits2 m) n). lia.
Qed.


(** ** Shifting a mantissa right *)

Lemma exact_location_record mrs :
  exact_location (loc_of_shr_record mrs) = exact_record mrs.
Proof. by destruct mrs as [m [|] [|]]. Qed.

Lemma exact_record_location m l :
  exact_record (shr_record_of_loc m l) = exact_location l
  /\ shr_m (shr_record_of_loc m l) = m.
Proof. by destruct l as [|[| |]]. Qed.

Lemma shr_1_spec mrs :
  0 <= shr_m mrs ->
  shr_m (shr_1 mrs) = shr_m mrs / 2
  /\ exact_record (shr_1 mrs) = exact_record mrs && Z.even (shr_m mrs).
Proof.
  destruct mrs as [m r s]. cbn [shr_m]. intros Hm.
  destruct m as [|[p|p|]|p]; try lia; unfold exact_record; cbn [shr_1 shr_m shr_r shr_s].
  - by destruct r, s.
  - split; [|by destruct r, s].
    rewrite Pos2Z.inj_xI. apply Z.div_unique with 1; lia.
  - split; [|by destruct r, s].
    rewrite Pos2Z.inj_xO. apply Z.div_unique with 0; lia.
  - by destruct r, s.
Qed.

Lemma iter_pos_nat {A : Type} (f : A -> A) (n : positive) (x : A) :
  SpecFloat.iter_pos f n x = Nat.iter (Pos.to_nat n) f x.
Proof.
  revert x. induction n as [n IH|n IH|]; intros x; cbn [SpecFloat.iter_pos].
  - rewrite !IH, Pos2Nat.inj_xI.
    replace (S (2 * Pos.to_nat n))%nat with (Pos.to_nat n + (Pos.to_nat n + 1))%nat by lia.
    rewrite !Nat.iter_add. reflexivity.
  - rewrite !IH, Pos2Nat.inj_xO.
    replace (2 * Pos.to_nat n)%nat with (Pos.to_nat n + Pos.to_nat n)%nat by lia.
    by rewrite Nat.iter_add.
  - reflexivity.
Qed.

Lemma even_step (m k : Z) :
  0 <= m -> 0 <= k ->
  (m mod 2 ^ k =? 0) && Z.even (m / 2 ^ k) = (m mod 2 ^ (k + 1) =? 0).
Proof.
  intros Hm Hk. pose proof (pow2_pos k Hk) as Hp.
  rewrite pow2_split by lia. change (2 ^ 1) with 2.
  pose proof (Z.div_mod m (2 ^ k) ltac:(lia)) as Hdm.
  pose proof (Z.mod_pos_bound m (2 ^ k) Hp) as Hb.
  pose proof (Z.div_mod (m / 2 ^ k) 2 ltac:(lia)) as Hdm2.
  pose proof (Z.mod_pos_bound (m / 2 ^ k) 2 ltac:(lia)) as Hb2.
  rewrite Zeven_mod.
  assert (Hmod : m mod (2 ^ k * 2) = (m / 2 ^ k) mod 2 * 2 ^ k + m mod 2 ^ k).
  { symmetry. apply Z.mod_unique with ((m / 2 ^ k) / 2); nia. }
  rewrite Hmod.
  destruct (Z.eqb_spec (m mod 2 ^ k) 0) as [E|E],
           (Z.eqb_spec ((m / 2 ^ k) mod 2) 0) as [E2|E2]; cbn [andb];
    symmetry; first [apply Z.eqb_eq | apply Z.eqb_neq]; nia.
Qed.

Lemma shr_iter (k : nat) mrs :
  0 <= shr_m mrs ->
  shr_m (Nat.iter k shr_1 mrs) = shr_m mrs / 2 ^ Z.of_nat k
  /\ exact_record (Nat.iter k shr_1 mrs)
     = exact_record mrs && (shr_m mrs mod 2 ^ Z.of_nat k =? 0).
Proof.
  intros Hm. induction k as [|k [IHm IHe]].
  - change (Nat.iter 0 shr_1 mrs) with mrs. change (2 ^ Z.of_nat 0) with 1.
    rewrite Z.div_1_r, Z.mod_1_r. by rewrite andb_true_r.
  - rewrite Nat.iter_succ.
    assert (Hk : 0 <= shr_m (Nat.iter k shr_1 mrs)).
    { rewrite IHm. apply Z.div_pos; [lia|]. apply pow2_pos. lia. }
    destruct (shr_1_spec _ Hk) as [Hm1 He1].
    rewrite Hm1, He1, IHm, IHe.
    replace (Z.of_nat (S k)) with (Z.of_nat k + 1) by lia. split.
    + rewrite Z.div_div by (try apply pow2_pos; lia).
      rewrite pow2_split by lia. reflexivity.
    + rewrite <- andb_assoc. f_equal. apply even_step; lia.
Qed.

Lemma shr_fexp_spec (m e : Z) (l : location) :
  0 <= m -> e <= fexp (Zdigits2 m + e) ->
  let n := fexp (Zdigits2 m + e) - e in
  snd (shr_fexp prec emax m e l) = e + n
  /\ shr_m (fst (shr_fexp prec emax m e l)) = m / 2 ^ n
  /\ exact_record (fst (shr_fexp prec emax m e l))
     = exact_location l && (m mod 2 ^ n =? 0).
Proof.
  intros Hm He n. unfold shr_fexp, shr. fold n.
  destruct (exact_record_location m l) as [Hex Hrm].
  destruct n as [|p|p] eqn:Hn; try lia; cbn [fst snd].
  - change (2 ^ 0) with 1. rewrite Z.div_1_r, Z.mod_1_r, andb_true_r, Z.add_0_r. done.
  - rewrite iter_pos_nat.
    destruct (shr_iter (Pos.to_nat p) (shr_record_of_loc m l)) as [H1 H2]; [by rewrite Hrm|].
    rewrite H1, H2, Hrm, Hex. by rewrite positive_nat_Z.
Qed.

(** ** Comparing canonical numbers *)

Lemma valid_canonical s m e :
  SpecFloat.valid_binary prec emax (S754_finite s m e) = true ->
  canonical m e /\ e <= 971.
Proof.
  cbn [SpecFloat.valid_binary]. unfold bounded, canonical_mantissa, canonical.
  intros H. apply andb_prop in H as [H1 H2].
  apply Z.eqb_eq in H1. apply Z.leb_le in H2. split; [done|]. exact H2.
Qed.

Lemma scaled_mono_m (m m' e : Z) : -3000 <= e -> m <= m' -> scaled m e <= scaled m' e.
Proof. intros. unfold scaled. pose proof (pow2_pos (e + 3000)). nia. Qed.

Lemma scaled_shift (m e n : Z) :
  -3000 <= e -> 0 <= n -> scaled m (e + n) = scaled (m * 2 ^ n) e.
Proof.
  intros. unfold scaled. replace (e + n + 3000) with (n + (e + 3000)) by lia.
  rewrite pow2_split by lia. lia.
Qed.

(** A positive number lies in the binade its digits and exponent name. *)
Lemma scaled_bounds (m e : Z) :
  0 < m -> -3000 <= e ->
  2 ^ (Zdigits2 m + e + 2999) <= scaled m e < 2 ^ (Zdigits2 m + e + 3000).
Proof.
  intros Hm He. unfold scaled.
  pose proof (Zdigits2_bounds m Hm) as [Hlo Hhi].
  pose proof (Zdigits2_pos m Hm).
  pose proof (pow2_pos (e + 3000) ltac:(lia)).
  replace (Zdigits2 m + e + 2999) with ((Zdigits2 m - 1) + (e + 3000)) by lia.
  replace (Zdigits2 m + e + 3000) with (Zdigits2 m + (e + 3000)) by lia.
  rewrite (pow2_split (Zdigits2 m - 1)), (pow2_split (Zdigits2 m)) by lia.
  split.
  - apply Z.mul_le_mono_nonneg_r; lia.
  - apply Z.mul_lt_mono_pos_r; lia.
Qed.

Lemma fexp_mono (a b : Z) : a <= b -> fexp a <= fexp b.
Proof. rewrite !fexp_eq. lia. Qed.

Lemma canonical_exponent_le (m m' : positive) (e e' : Z) :
  canonical m e -> canonical m' e' ->
  scaled (Zpos m) e <= scaled (Zpos m') e' -> e <= e'.
Proof.
  unfold canonical. intros Hc Hc' Hle.
  assert (He : -1074 <= e) by (rewrite fexp_eq in Hc; lia).
  assert (He' : -1074 <= e') by (rewrite fexp_eq in Hc'; lia).
  pose proof (scaled_bounds (Zpos m) e ltac:(lia) ltac:(lia)) as [Hlo _].
  pose proof (scaled_bounds (Zpos m') e' ltac:(lia) ltac:(lia)) as [_ Hhi].
  cbn [Zdigits2] in Hlo, Hhi.
  assert (Hd : Zpos (digits2_pos m) + e + 2999 < Zpos (digits2_pos m') + e' + 3000).
  { apply pow2_lt_inv; lia. }
  rewrite <- Hc, <- Hc'. apply fexp_mono. lia.
Qed.

Lemma compare_canonical (m m' : positive) (e e' : Z) :
  canonical m e -> canonical m' e' ->
  SFcompare (S754_finite false m e) (S754_finite false m' e')
  = Some (Z.compare (scaled (Zpos m) e) (scaled (Zpos m') e')).
Proof.
  intros Hc Hc'. cbn [SFcompare]. f_equal.
  assert (He : -1074 <= e) by (unfold canonical in Hc; rewrite fexp_eq in Hc; lia).
  assert (He' : -1074 <= e') by (unfold canonical in Hc'; rewrite fexp_eq in Hc'; lia).
  destruct (Z.compare_spec e e') as [->|Hlt|Hgt].
  - change (Pos.compare_cont Eq m m') with (Z.compare (Zpos m) (Zpos m')).
    unfold scaled. pose proof (pow2_pos (e' + 3000) ltac:(lia)).
    destruct (Z.compare_spec (Zpos m) (Zpos m')); symmetry;
      [apply Z.compare_eq_iff | apply Z.compare_lt_iff | apply Z.compare_gt_iff]; nia.
  - symmetry. apply Z.compare_lt_iff.
    destruct (Z_lt_le_dec (scaled (Zpos m) e) (scaled (Zpos m') e')) as [|Hle]; [done|].
    pose proof (canonical_exponent_le m' m e' e Hc' Hc Hle). lia.
  - symmetry. apply Z.compare_gt_iff.
    destruct (Z_lt_le_dec (scaled (Zpos m') e') (scaled (Zpos m) e)) as [|Hle]; [done|].
    pose proof (canonical_exponent_le m m' e e' Hc Hc' Hle). lia.
Qed.


(** ** Rounding never crosses a representable number *)

Lemma Zdigits2_mono (a b : Z) : 0 < a -> a <= b -> Zdigits2 a <= Zdigits2 b.
Proof.
  intros Ha Hab.
  pose proof (Zdigits2_bounds a Ha) as [Hlo _].
  pose proof (Zdigits2_bounds b ltac:(lia)) as [_ Hhi].
  pose proof (Zdigits2_pos b ltac:(lia)).
  assert (Zdigits2 a - 1 < Zdigits2 b) by (apply pow2_lt_inv; lia). lia.
Qed.

Lemma canonical_exponent (m : positive) (e : Z) : canonical m e -> -1074 <= e.
Proof. unfold canonical. rewrite fexp_eq. lia. Qed.

(** Between two multiples of a power of two there is no third. *)
Lemma scaled_floor (m e n : Z) :
  0 <= m -> -3000 <= e -> 0 <= n ->
  scaled (m / 2 ^ n) (e + n) <= scaled m e < scaled (m / 2 ^ n + 1) (e + n).
Proof.
  intros Hm He Hn. rewrite !scaled_shift by lia. unfold scaled.
  pose proof (pow2_pos n Hn). pose proof (pow2_pos (e + 3000) ltac:(lia)).
  pose proof (Z.div_mod m (2 ^ n) ltac:(lia)).
  pose proof (Z.mod_pos_bound m (2 ^ n) ltac:(lia)).
  split.
  - apply Z.mul_le_mono_nonneg_r; lia.
  - apply Z.mul_lt_mono_pos_r; lia.
Qed.

(** The largest multiple of the target exponent below a number is above
    every canonical number below it. *)
Lemma floor_above (m e : Z) (my : positive) (ey : Z) :
  0 <= m -> -3000 <= e -> e <= fexp (Zdigits2 m + e) ->
  canonical my ey ->
  scaled (Zpos my) ey <= scaled m e ->
  scaled (Zpos my) ey <= scaled (m / 2 ^ (fexp (Zdigits2 m + e) - e)) (fexp (Zdigits2 m + e)).
Proof.
  intros Hm He Hfe Hcy Hle.
  set (e1 := fexp (Zdigits2 m + e)) in *. set (n := e1 - e).
  pose proof (canonical_exponent my ey Hcy) as Hey.
  assert (Hy0 : 0 < scaled (Zpos my) ey).
  { unfold scaled. pose proof (pow2_pos (ey + 3000) ltac:(lia)). lia. }
  assert (Hm0 : 0 < m).
  { destruct (Z.eq_dec m 0) as [->|]; [unfold scaled in Hle; lia | lia]. }
  pose proof (pow2_pos n ltac:(lia)) as Hpn.
  destruct (Z_le_gt_dec e1 ey) as [Hge|Hlt].
  - (* the canonical number is a multiple of the target exponent *)
    replace ey with (e1 + (ey - e1)) by lia.
    rewrite scaled_shift by lia.
    apply scaled_mono_m; [lia|].
    apply Z.div_le_lower_bound; [lia|].
    replace ey with (e + (n + (ey - e1))) in Hle by lia.
    rewrite scaled_shift in Hle by lia.
    unfold scaled in Hle. pose proof (pow2_pos (e + 3000) ltac:(lia)).
    rewrite pow2_split in Hle by lia.
    apply Z.mul_le_mono_pos_r in Hle; lia.
  - (* the canonical number is in a lower binade *)
    assert (Hd : Zpos (digits2_pos my) + ey < Zdigits2 m + e).
    { destruct (Z_lt_le_dec (Zpos (digits2_pos my) + ey) (Zdigits2 m + e)) as [|Hc]; [done|].
      apply fexp_mono in Hc. unfold canonical in Hcy. fold e1 in Hc. lia. }
    destruct (Z_lt_le_dec n (Zdigits2 m)) as [Hn|Hn].
    + pose proof (Zdigits2_shift m n Hm0 ltac:(lia) Hn) as Hds.
      assert (Hq0 : 0 < m / 2 ^ n).
      { destruct (Z.eq_dec (m / 2 ^ n) 0) as [E|]; [|pose proof (Z.div_pos m (2 ^ n)); lia].
        rewrite E in Hds. cbn in Hds. lia. }
      pose proof (scaled_bounds (m / 2 ^ n) e1 Hq0 ltac:(lia)) as [Hlo _].
      pose proof (scaled_bounds (Zpos my) ey ltac:(lia) ltac:(lia)) as [_ Hhi].
      cbn [Zdigits2] in Hhi. rewrite Hds in Hlo.
      pose proof (Z.pow_le_mono_r 2 (Zpos (digits2_pos my) + ey + 3000)
                    (Zdigits2 m - n + e1 + 2999) ltac:(lia) ltac:(lia)).
      lia.
    + subst n e1. rewrite fexp_eq in *. lia.
Qed.

Lemma round_nearest_even_cases (m : Z) (l : location) :
  (round_nearest_even m l = m \/ round_nearest_even m l = m + 1)
  /\ (exact_location l = true -> round_nearest_even m l = m).
Proof.
  destruct l as [|[| |]]; cbn [round_nearest_even exact_location];
    try destruct (Z.even m); split; auto; discriminate.
Qed.

(** The exponent of the first shift is canonical for every mantissa from
    the shifted one up. *)
Lemma shifted_exponent (m e m2 : Z) :
  0 <= m -> -3000 <= e -> e <= fexp (Zdigits2 m + e) ->
  m / 2 ^ (fexp (Zdigits2 m + e) - e) <= m2 ->
  fexp (Zdigits2 m + e) <= fexp (Zdigits2 m2 + fexp (Zdigits2 m + e)).
Proof.
  intros Hm He Hfe Hm2.
  set (e1 := fexp (Zdigits2 m + e)) in *. set (n := e1 - e) in *.
  destruct (Z_lt_le_dec n (Zdigits2 m)) as [Hn|Hn].
  - assert (Hm0 : 0 < m) by (destruct m; cbn in Hn; lia).
    pose proof (Zdigits2_shift m n Hm0 ltac:(lia) Hn) as Hds.
    assert (Hq0 : 0 < m / 2 ^ n).
    { destruct (Z.eq_dec (m / 2 ^ n) 0) as [E|];
        [|pose proof (Z.div_pos m (2 ^ n) ltac:(lia) (pow2_pos n ltac:(lia))); lia].
      rewrite E in Hds. cbn in Hds. lia. }
    pose proof (Zdigits2_mono _ _ Hq0 Hm2).
    transitivity (fexp (Zdigits2 (m / 2 ^ n) + e1)); [|apply fexp_mono; lia].
    rewrite Hds. replace (Zdigits2 m - n + e1) with (Zdigits2 m + e) by lia. done.
  - assert (Zdigits2 m >= 0) by (destruct m; cbn; lia).
    subst e1 n. rewrite !fexp_eq in *. lia.
Qed.

(** What [binary_round_aux] returns, in terms of the two shifts. *)
Lemma binary_round_aux_spec (sx : bool) (mx ex : Z) (lx : location) :
  0 <= mx -> -3000 <= ex -> ex <= fexp (Zdigits2 mx + ex) ->
  let e1 := fexp (Zdigits2 mx + ex) in
  let m1 := mx / 2 ^ (e1 - ex) in
  exists m2,
    (m2 = m1 \/ m2 = m1 + 1)
    /\ (exact_location lx && (mx mod 2 ^ (e1 - ex) =? 0) = true -> m2 = m1)
    /\ e1 <= fexp (Zdigits2 m2 + e1)
    /\ binary_round_aux prec emax sx mx ex lx =
       match m2 / 2 ^ (fexp (Zdigits2 m2 + e1) - e1) with
       | Z0 => S754_zero sx
       | Zpos m =>
           if fexp (Zdigits2 m2 + e1) <=? 971
           then S754_finite sx m (fexp (Zdigits2 m2 + e1))
           else S754_infinity sx
       | Zneg _ => S754_nan
       end.
Proof.
  intros Hmx Hex Hfe e1 m1.
  destruct (shr_fexp_spec mx ex lx Hmx Hfe) as (He' & Hm' & Hx').
  unfold binary_round_aux.
  destruct (shr_fexp prec emax mx ex lx) as [mrs' e'] eqn:Hshr. cbn [fst snd] in *.
  fold e1 in He', Hm', Hx'. replace (ex + (e1 - ex)) with e1 in He' by lia. subst e'.
  fold m1 in Hm'.
  destruct (round_nearest_even_cases (shr_m mrs') (loc_of_shr_record mrs')) as [Hr Hrx].
  rewrite exact_location_record, Hx' in Hrx.
  set (m2 := round_nearest_even (shr_m mrs') (loc_of_shr_record mrs')) in *.
  clearbody m2. rewrite Hm' in Hr, Hrx.
  assert (Hm1 : 0 <= m1) by (apply Z.div_pos; [lia | apply pow2_pos; lia]).
  assert (Hm2 : m1 <= m2) by (destruct Hr as [-> | ->]; lia).
  pose proof (shifted_exponent mx ex m2 Hmx Hex Hfe Hm2) as He2. fold e1 in He2.
  exists m2. split; [done|]. split; [done|]. split; [done|].
  destruct (shr_fexp_spec m2 e1 loc_Exact ltac:(lia) He2) as (He'' & Hm'' & _).
  destruct (shr_fexp prec emax m2 e1 loc_Exact) as [mrs'' e''] eqn:Hshr2.
  cbn [fst snd] in *.
  replace (e1 + (fexp (Zdigits2 m2 + e1) - e1)) with (fexp (Zdigits2 m2 + e1)) in He'' by lia.
  subst e''. rewrite Hm''. reflexivity.
Qed.


Lemma shifted_canonical (m e : Z) (p : positive) :
  0 <= m -> e <= fexp (Zdigits2 m + e) ->
  m / 2 ^ (fexp (Zdigits2 m + e) - e) = Zpos p ->
  canonical p (fexp (Zdigits2 m + e)).
Proof.
  intros Hm Hfe Hp. unfold canonical.
  set (e1 := fexp (Zdigits2 m + e)) in *. set (n := e1 - e) in *.
  destruct (Z_lt_le_dec n (Zdigits2 m)) as [Hn|Hn].
  - assert (Hm0 : 0 < m) by (destruct m; cbn in Hn; lia).
    pose proof (Zdigits2_shift m n Hm0 ltac:(lia) Hn) as Hds.
    rewrite Hp in Hds. cbn [Zdigits2] in Hds. rewrite Hds.
    replace (Zdigits2 m - n + e1) with (Zdigits2 m + e) by lia. done.
  - rewrite shift_zero in Hp by lia. discriminate.
Qed.

(** Rounding a number below a canonical one stays below it. *)
Lemma round_below (mx ex : Z) (lx : location) (my : positive) (ey : Z) :
  0 <= mx -> -3000 <= ex -> ex <= fexp (Zdigits2 mx + ex) ->
  canonical my ey -> ey <= 971 ->
  scaled mx ex <= scaled (Zpos my) ey ->
  (exact_location lx = false -> scaled mx ex < scaled (Zpos my) ey) ->
  SFleb (binary_round_aux prec emax false mx ex lx) (S754_finite false my ey) = true.
Proof.
  intros Hmx Hex Hfe Hcy Hey Hle Hlt.
  destruct (binary_round_aux_spec false mx ex lx Hmx Hex Hfe) as (m2 & Hm2 & Hexact & He3 & ->).
  set (e1 := fexp (Zdigits2 mx + ex)) in *. set (n := e1 - ex) in *.
  set (m1 := mx / 2 ^ n) in *.
  pose proof (canonical_exponent my ey Hcy) as Hey0.
  pose proof (scaled_floor mx ex n Hmx Hex ltac:(lia)) as [Hfl _].
  replace (ex + n) with e1 in Hfl by lia. fold m1 in Hfl.
  assert (Hm1 : 0 <= m1) by (apply Z.div_pos; [lia | apply pow2_pos; lia]).
  assert (He1 : -3000 <= e1) by lia.
  (* the rounded mantissa is still below the canonical number *)
  assert (Hm2y : scaled m2 e1 <= scaled (Zpos my) ey).
  { destruct Hm2 as [->| ->]; [lia|].
    assert (Hstrict : scaled m1 e1 < scaled (Zpos my) ey).
    { destruct (exact_location lx) eqn:Hl; [|specialize (Hlt eq_refl); lia].
      destruct (Z.eqb_spec (mx mod 2 ^ n) 0) as [Hz|Hnz];
        [specialize (Hexact eq_refl); lia|].
      pose proof (pow2_pos n ltac:(lia)).
      pose proof (Z.div_mod mx (2 ^ n) ltac:(lia)).
      pose proof (Z.mod_pos_bound mx (2 ^ n) ltac:(lia)).
      assert (scaled (m1 * 2 ^ n) ex < scaled mx ex).
      { unfold scaled. apply Z.mul_lt_mono_pos_r; [apply pow2_pos; lia|]. subst m1. lia. }
      replace e1 with (ex + n) by lia. rewrite scaled_shift by lia. lia. }
    assert (Hge : e1 <= ey).
    { destruct (Z.eq_dec mx 0) as [E|E].
      - subst e1. rewrite E in *. cbn [Zdigits2] in *. rewrite fexp_eq in *. lia.
      - pose proof (scaled_bounds mx ex ltac:(lia) Hex) as [Hlo _].
        pose proof (scaled_bounds (Zpos my) ey ltac:(lia) ltac:(lia)) as [_ Hhi].
        cbn [Zdigits2] in Hhi.
        assert (Zdigits2 mx + ex + 2999 < Zpos (digits2_pos my) + ey + 3000).
        { apply pow2_lt_inv; lia. }
        unfold canonical in Hcy. rewrite <- Hcy. apply fexp_mono. lia. }
    replace ey with (e1 + (ey - e1)) in Hstrict |- * by lia.
    rewrite scaled_shift in Hstrict |- * by lia.
    apply scaled_mono_m; [lia|].
    unfold scaled in Hstrict.
    apply Z.mul_lt_mono_pos_r in Hstrict; [lia | apply pow2_pos; lia]. }
  assert (Hm2pos : 0 <= m2) by (destruct Hm2 as [->| ->]; lia).
  set (e3 := fexp (Zdigits2 m2 + e1)) in *.
  pose proof (scaled_floor m2 e1 (e3 - e1) Hm2pos He1 ltac:(lia)) as [Hfl3 _].
  replace (e1 + (e3 - e1)) with e3 in Hfl3 by lia.
  destruct (m2 / 2 ^ (e3 - e1)) as [|p|p] eqn:Hm3.
  - reflexivity.
  - pose proof (shifted_canonical m2 e1 p Hm2pos He3 Hm3) as Hc3. fold e3 in Hc3.
    pose proof (canonical_exponent_le p my e3 ey Hc3 Hcy ltac:(lia)) as He3y.
    destruct (Z.leb_spec e3 971) as [_|]; [|lia].
    unfold SFleb. rewrite compare_canonical by done.
    destruct (Z.compare_spec (scaled (Zpos p) e3) (scaled (Zpos my) ey)); [done|done|lia].
  - assert (Hn3 : 0 <= e3 - e1) by (clear -He3; lia).
    pose proof (Z.div_pos m2 (2 ^ (e3 - e1)) Hm2pos (pow2_pos _ Hn3)) as H.
    rewrite Hm3 in H. lia.
Qed.

(** Rounding a number above a canonical one stays above it. *)
Lemma round_above (mx ex : Z) (lx : location) (my : positive) (ey : Z) :
  0 <= mx -> -3000 <= ex -> ex <= fexp (Zdigits2 mx + ex) ->
  canonical my ey ->
  scaled (Zpos my) ey <= scaled mx ex ->
  SFleb (S754_finite false my ey) (binary_round_aux prec emax false mx ex lx) = true.
Proof.
  intros Hmx Hex Hfe Hcy Hle.
  destruct (binary_round_aux_spec false mx ex lx Hmx Hex Hfe) as (m2 & Hm2 & _ & He3 & ->).
  set (e1 := fexp (Zdigits2 mx + ex)) in *. set (n := e1 - ex) in *.
  set (m1 := mx / 2 ^ n) in *.
  pose proof (canonical_exponent my ey Hcy) as Hey0.
  pose proof (floor_above mx ex my ey Hmx Hex Hfe Hcy Hle) as Hy1.
  fold e1 n m1 in Hy1.
  assert (Hm1 : 0 <= m1) by (apply Z.div_pos; [lia | apply pow2_pos; lia]).
  assert (He1 : -3000 <= e1) by lia.
  assert (Hm2pos : 0 <= m2) by (destruct Hm2 as [->| ->]; lia).
  assert (Hy2 : scaled (Zpos my) ey <= scaled m2 e1).
  { pose proof (scaled_mono_m m1 m2 e1 He1 ltac:(destruct Hm2 as [->| ->]; lia)). lia. }
  pose proof (floor_above m2 e1 my ey Hm2pos He1 He3 Hcy Hy2) as Hy3.
  set (e3 := fexp (Zdigits2 m2 + e1)) in *.
  assert (Hy0 : 0 < scaled (Zpos my) ey).
  { unfold scaled. pose proof (pow2_pos (ey + 3000) ltac:(lia)). lia. }
  destruct (m2 / 2 ^ (e3 - e1)) as [|p|p] eqn:Hm3.
  - unfold scaled in Hy3. lia.
  - destruct (Z.leb_spec e3 971) as [_|]; [|reflexivity].
    pose proof (shifted_canonical m2 e1 p Hm2pos He3 Hm3) as Hc3. fold e3 in Hc3.
    unfold SFleb. rewrite compare_canonical by done.
    destruct (Z.compare_spec (scaled (Zpos my) ey) (scaled (Zpos p) e3)); [done|done|lia].
  - unfold scaled in Hy3. pose proof (pow2_pos (e3 + 3000) ltac:(lia)). nia.
Qed.


(** ** Sums and differences *)

Lemma Zdigits2_mul_pow2 (m k : Z) :
  0 < m -> 0 <= k -> Zdigits2 (m * 2 ^ k) = Zdigits2 m + k.
Proof.
  intros Hm Hk.
  pose proof (Zdigits2_bounds m Hm) as [Hlo Hhi].
  pose proof (Zdigits2_pos m Hm).
  pose proof (pow2_pos k Hk).
  assert (Hmk : 0 < m * 2 ^ k) by lia.
  assert (H1 : m * 2 ^ k < 2 ^ (Zdigits2 m + k)).
  { rewrite pow2_split by lia. apply Z.mul_lt_mono_pos_r; lia. }
  assert (H2 : 2 ^ (Zdigits2 m - 1 + k) <= m * 2 ^ k).
  { rewrite pow2_split by lia. apply Z.mul_le_mono_nonneg_r; lia. }
  pose proof (Zdigits2_le _ (Zdigits2 m + k) Hmk ltac:(lia) H1).
  pose proof (Zdigits2_ge _ (Zdigits2 m - 1 + k) Hmk H2).
  lia.
Qed.

Lemma iter_xO (m d : positive) : Zpos (Pos.iter xO m d) = Zpos m * 2 ^ Zpos d.
Proof.
  induction d as [|d IH] using Pos.peano_ind.
  - cbn. lia.
  - rewrite Pos.iter_succ, Pos2Z.inj_xO, IH, Pos2Z.inj_succ, Z.pow_succ_r by lia. lia.
Qed.

Lemma shl_align_spec (mx : positive) (ex ex' : Z) :
  snd (shl_align mx ex ex') = Z.min ex ex'
  /\ Zpos (fst (shl_align mx ex ex')) = Zpos mx * 2 ^ (ex - Z.min ex ex').
Proof.
  unfold shl_align. destruct (ex' - ex) as [|d|d] eqn:Hd; cbn [fst snd].
  - replace (Z.min ex ex') with ex by lia. rewrite Z.sub_diag. cbn. lia.
  - replace (Z.min ex ex') with ex by lia. rewrite Z.sub_diag. cbn. lia.
  - replace (Z.min ex ex') with ex' by lia. rewrite iter_xO.
    replace (ex - ex') with (Zpos d) by lia. done.
Qed.

(** What [binary_round] hands to [binary_round_aux]. *)
Lemma binary_round_spec (sx : bool) (mx : positive) (ex : Z) :
  -3000 <= ex ->
  exists mz ez,
    SpecFloat.binary_round prec emax sx mx ex
    = binary_round_aux prec emax sx (Zpos mz) ez loc_Exact
    /\ scaled (Zpos mz) ez = scaled (Zpos mx) ex
    /\ ez <= fexp (Zdigits2 (Zpos mz) + ez)
    /\ -3000 <= ez.
Proof.
  intros Hex. unfold binary_round.
  set (fe := fexp (Zpos (digits2_pos mx) + ex)).
  destruct (shl_align_spec mx ex fe) as [He Hm].
  destruct (shl_align mx ex fe) as [mz ez]. cbn [fst snd] in *.
  exists mz, ez. split; [done|].
  assert (Hfe : -1074 <= fe) by (subst fe; rewrite fexp_eq; lia).
  rewrite <- He in Hm.
  split; [|split; [|lia]].
  - rewrite Hm, <- (scaled_shift (Zpos mx) ez (ex - ez)) by lia. f_equal. lia.
  - rewrite Hm, Zdigits2_mul_pow2 by lia. cbn [Zdigits2].
    replace (Zpos (digits2_pos mx) + (ex - ez) + ez)
      with (Zpos (digits2_pos mx) + ex) by lia.
    fold fe. lia.
Qed.

Lemma aligned_scaled (m : positive) (e ez : Z) :
  -3000 <= ez -> ez <= e ->
  scaled (Zpos (fst (shl_align m e ez))) ez = scaled (Zpos m) e.
Proof.
  intros Hez Hle. destruct (shl_align_spec m e ez) as [_ ->].
  replace (Z.min e ez) with ez by lia.
  rewrite <- (scaled_shift (Zpos m) ez (e - ez)) by lia. f_equal. lia.
Qed.

(** The sum of two positive numbers is above each of them. *)
Lemma SFadd_above (mb ms : positive) (eb es : Z) :
  canonical mb eb -> canonical ms es ->
  let total := SF64add (S754_finite false mb eb) (S754_finite false ms es) in
  SFleb (S754_finite false mb eb) total = true
  /\ SFleb (S754_finite false ms es) total = true.
Proof.
  intros Hcb Hcs total. subst total. unfold SF64add, SFadd.
  pose proof (canonical_exponent _ _ Hcb). pose proof (canonical_exponent _ _ Hcs).
  set (ez := Z.min eb es). cbn [cond_Zopp].
  pose proof (aligned_scaled mb eb ez ltac:(lia) ltac:(lia)) as Hb.
  pose proof (aligned_scaled ms es ez ltac:(lia) ltac:(lia)) as Hs.
  set (b' := fst (shl_align mb eb ez)) in *. set (s' := fst (shl_align ms es ez)) in *.
  change (Zpos b' + Zpos s') with (Zpos (b' + s')). cbn [binary_normalize].
  destruct (binary_round_spec false (b' + s') ez ltac:(lia)) as (mz & ez' & -> & Hv & Hfe & Hez).
  assert (Hsum : scaled (Zpos mz) ez' = scaled (Zpos mb) eb + scaled (Zpos ms) es).
  { rewrite Hv, <- Hb, <- Hs. unfold scaled. lia. }
  assert (0 < scaled (Zpos mb) eb /\ 0 < scaled (Zpos ms) es) as [? ?].
  { unfold scaled. pose proof (pow2_pos (eb + 3000)). pose proof (pow2_pos (es + 3000)). lia. }
  split; (apply round_above; [lia | done | done | done | lia]).
Qed.

(** The difference of two positive numbers is, in absolute value, below the
    larger of them. *)
Lemma SFsub_below (mb ms : positive) (eb es : Z) :
  canonical mb eb -> eb <= 971 -> canonical ms es -> es <= 971 ->
  let diff := SFabs (SF64sub (S754_finite false mb eb) (S754_finite false ms es)) in
  SFleb diff (S754_finite false mb eb) = true
  \/ SFleb diff (S754_finite false ms es) = true.
Proof.
  intros Hcb Hb971 Hcs Hs971 diff. subst diff. unfold SF64sub, SFsub.
  pose proof (canonical_exponent _ _ Hcb). pose proof (canonical_exponent _ _ Hcs).
  set (ez := Z.min eb es). cbn [cond_Zopp].
  pose proof (aligned_scaled mb eb ez ltac:(lia) ltac:(lia)) as Hb.
  pose proof (aligned_scaled ms es ez ltac:(lia) ltac:(lia)) as Hs.
  set (b' := fst (shl_align mb eb ez)) in *. set (s' := fst (shl_align ms es ez)) in *.
  destruct (Zpos b' - Zpos s') as [|p|p] eqn:Hd; cbn [binary_normalize SFabs].
  - left. reflexivity.
  - left.
    destruct (binary_round_spec false p ez ltac:(lia)) as (mz & ez' & -> & Hv & Hfe & Hez).
    rewrite SFabs_binary_round_aux.
    apply round_below; [lia | done | done | done | done | | discriminate].
    rewrite Hv, <- Hb. apply scaled_mono_m; lia.
  - right.
    destruct (binary_round_spec true p ez ltac:(lia)) as (mz & ez' & -> & Hv & Hfe & Hez).
    rewrite SFabs_binary_round_aux.
    apply round_below; [lia | done | done | done | done | | discriminate].
    rewrite Hv, <- Hs. apply scaled_mono_m; lia.
Qed.


(** ** Quotients *)

Lemma new_location_exact (nb k : Z) :
  exact_location (new_location nb k) = (k =? 0).
Proof.
  unfold new_location, new_location_even, new_location_odd.
  destruct (Z.even nb), (k =? 0); reflexivity.
Qed.

Lemma SFdiv_core_spec (md mt : positive) (ed et : Z) :
  let e' := Z.min (fexp (Zpos (digits2_pos md) + ed - (Zpos (digits2_pos mt) + et))) (ed - et) in
  let s := ed - et - e' in
  exists q r,
    SFdiv_core_binary prec emax (Zpos md) ed (Zpos mt) et
    = (q, e', new_location (Zpos mt) r)
    /\ Zpos md * 2 ^ s = Zpos mt * q + r
    /\ 0 <= r < Zpos mt
    /\ 0 <= q.
Proof.
  intros e' s. unfold SFdiv_core_binary. cbn [Zdigits2]. fold e'. fold s.
  assert (Hs : 0 <= s) by (subst s e'; lia).
  set (m' := match s with Z0 => Zpos md | Zpos _ => Z.shiftl (Zpos md) s | Zneg _ => 0 end).
  assert (Hm' : m' = Zpos md * 2 ^ s).
  { subst m'. destruct s as [|p|p] eqn:Es; [cbn; lia| |lia].
    by rewrite Z.shiftl_mul_pow2 by lia. }
  pose proof (Z_div_mod m' (Zpos mt) ltac:(lia)) as Hdm.
  destruct (Z.div_eucl m' (Zpos mt)) as [q r].
  destruct Hdm as [Heq Hr].
  exists q, r. split; [reflexivity|]. split; [lia|]. split; [lia|].
  pose proof (pow2_pos s Hs). nia.
Qed.

(** A quotient of a number by one at least as large is at most one. *)
Lemma SFdiv_below_one (sd : bool) (md mt : positive) (ed et : Z) :
  canonical md ed -> ed <= 971 -> canonical mt et -> et <= 971 ->
  scaled (Zpos md) ed <= scaled (Zpos mt) et ->
  SFleb (SFabs (SF64div (S754_finite sd md ed) (S754_finite false mt et))) one_spec = true.
Proof.
  intros Hcd Hd971 Hct Ht971 Hle.
  pose proof (canonical_exponent _ _ Hcd) as Hed. pose proof (canonical_exponent _ _ Hct) as Het.
  unfold SF64div, SFdiv.
  destruct (SFdiv_core_spec md mt ed et) as (q & r & -> & Hqr & Hr & Hq).
  set (d1 := Zpos (digits2_pos md)) in *. set (d2 := Zpos (digits2_pos mt)) in *.
  set (delta := d1 + ed - (d2 + et)) in *.
  set (e' := Z.min (fexp delta) (ed - et)) in *. set (s := ed - et - e') in *.
  rewrite SFabs_binary_round_aux.
  assert (Hfd : -1074 <= fexp delta) by (rewrite fexp_eq; lia).
  assert (He' : -3000 <= e') by lia.
  assert (Hs : 0 <= s) by lia.
  pose proof (pow2_pos s Hs) as Hps.
  pose proof (digits2_pos_bounds md) as [Hd1lo Hd1hi]. fold d1 in Hd1lo, Hd1hi.
  pose proof (digits2_pos_bounds mt) as [Hd2lo Hd2hi]. fold d2 in Hd2lo, Hd2hi.
  assert (Hd1 : 0 < d1) by (subst d1; lia). assert (Hd2 : 0 < d2) by (subst d2; lia).
  (* the dividend, shifted, is at least 2^(d1 - 1 + s) and the divisor below 2^d2 *)
  assert (Hnum : 2 ^ (d1 - 1 + s) <= Zpos md * 2 ^ s).
  { rewrite pow2_split by lia. apply Z.mul_le_mono_nonneg_r; lia. }
  apply round_below; [done | done | | reflexivity | lia | | ].
  - (* the quotient is precise enough *)
    destruct (Z.eq_dec q 0) as [->|Hq0].
    + cbn [Zdigits2]. rewrite Z.add_0_l.
      assert (Hlt : 2 ^ (d1 - 1 + s) < 2 ^ d2) by lia.
      apply pow2_lt_inv in Hlt; [|lia].
      assert (delta <= e') by (subst delta s; lia).
      subst e'. rewrite !fexp_eq in *. lia.
    + assert (Hqpos : 0 < q) by lia.
      assert (Hdq : delta - e' <= Zdigits2 q).
      { destruct (Z_le_gt_dec (d1 + s - d2) 0) as [Hsmall|Hbig].
        - pose proof (Zdigits2_pos q Hqpos). subst delta s. lia.
        - assert (Hge : 2 ^ (d1 - 1 + s - d2) <= q).
          { assert (H1 : 2 ^ (d1 - 1 + s - d2) * 2 ^ d2 < (q + 1) * 2 ^ d2).
            { rewrite <- pow2_split by lia.
              replace (d1 - 1 + s - d2 + d2) with (d1 - 1 + s) by lia.
              pose proof (pow2_pos d2 ltac:(lia)). nia. }
            apply Z.mul_lt_mono_pos_r in H1; [lia | apply pow2_pos; lia]. }
          pose proof (Zdigits2_ge q _ Hqpos Hge). subst delta s. lia. }
      transitivity (fexp delta); [lia|]. apply fexp_mono. lia.
  - (* the quotient is at most one *)
    unfold scaled in *. change (2 ^ (-52 + 3000)) with (2 ^ 2948).
    change (Zpos 4503599627370496) with (2 ^ 52).
    rewrite <- (pow2_split 52 2948) by lia. change (52 + 2948) with 3000.
    set (P := 2 ^ (e' + 3000)). set (R := 2 ^ (et + 3000)) in *.
    set (W := 2 ^ (ed + 3000)) in *. set (C := 2 ^ 3000).
    assert (HP : 0 < P) by (apply pow2_pos; lia).
    assert (HR : 0 < R) by (apply pow2_pos; lia).
    assert (HSPR : 2 ^ s * P * R = W * C).
    { subst P R W C. rewrite <- !pow2_split by lia. f_equal. subst s. lia. }
    assert (H : q * P * (Zpos mt * R) <= C * (Zpos mt * R)) by nia.
    apply Z.mul_le_mono_pos_r in H; nia.
  - (* and strictly below one when inexact *)
    rewrite new_location_exact. intros Hr0. apply Z.eqb_neq in Hr0.
    unfold scaled in *. change (2 ^ (-52 + 3000)) with (2 ^ 2948).
    change (Zpos 4503599627370496) with (2 ^ 52).
    rewrite <- (pow2_split 52 2948) by lia. change (52 + 2948) with 3000.
    set (P := 2 ^ (e' + 3000)). set (R := 2 ^ (et + 3000)) in *.
    set (W := 2 ^ (ed + 3000)) in *. set (C := 2 ^ 3000).
    assert (HP : 0 < P) by (apply pow2_pos; lia).
    assert (HR : 0 < R) by (apply pow2_pos; lia).
    assert (HSPR : 2 ^ s * P * R = W * C).
    { subst P R W C. rewrite <- !pow2_split by lia. f_equal. subst s. lia. }
    assert (H : q * P * (Zpos mt * R) < C * (Zpos mt * R)) by nia.
    apply Z.mul_lt_mono_pos_r in H; nia.
Qed.

End Rounding.

(** * The net share of buys *)

Section NetShare.
Local Open Scope float_scope.

Lemma valid_count (x : spec_float) :
  valid_binary x = true ->
  SFleb (S754_zero false) x = true -> SFltb x (S754_infinity false) = true ->
  match x with
  | S754_zero _ => True
  | S754_finite false m e => canonical m e /\ (e <= 971)%Z
  | _ => False
  end.
Proof.
  intros Hv Hlo Hhi. spec_cases x; try done; try discriminate.
  by apply valid_canonical in Hv.
Qed.

Lemma or_zero_count (x : float) :
  (0 <=? x) = true -> (x <? infinity) = true -> count_spec (Prim2SF (or_zero x)).
Proof.
  rewrite leb_spec, ltb_spec. intros Hlo Hhi.
  pose proof (valid_count _ (Prim2SF_valid x) Hlo Hhi) as Hx.
  unfold or_zero, truthy, is_zero, is_nan. rewrite !FloatAxioms.eqb_spec.
  change (Prim2SF 0) with (S754_zero false) in *.
  change (Prim2SF PrimFloat.zero) with (S754_zero false).
  destruct (Prim2SF x) as [[|]|[|]| |[|] m e] eqn:E; try done.
  unfold SFeqb, SFcompare.
  change (Pos.compare_cont Eq m m) with (Pos.compare m m).
  rewrite Z.compare_refl, Pos.compare_refl. cbn [orb negb]. by rewrite E.
Qed.

Lemma SFleb_opp (x y : spec_float) :
  SFleb x y = true -> SFleb (SFopp y) (SFopp x) = true.
Proof.
  unfold SFleb, SFcompare.
  spec_cases x; spec_cases y; cbn [SFopp negb]; try discriminate; try reflexivity;
    intros; order_cases.
Qed.

(** A number whose magnitude is at most one lies between -1 and 1. *)
Lemma SFabs_unit (q : spec_float) :
  SFleb (SFabs q) one_spec = true ->
  SFleb (Prim2SF (-1)) q = true /\ SFleb q one_spec = true.
Proof.
  change (Prim2SF (-1)) with (SFopp one_spec).
  intros H. pose proof (SFleb_opp _ _ H) as H'.
  spec_cases q; cbn [SFabs SFopp negb] in *;
    try discriminate; split; try exact H; try exact H'; reflexivity.
Qed.

(** The quotient of the difference of two counts by their sum, when the sum is
    positive, has a magnitude of at most one. *)
Lemma ratio_unit (b s : spec_float) :
  count_spec b -> count_spec s ->
  valid_binary (SF64add b s) = true -> valid_binary (SF64sub b s) = true ->
  SFltb (S754_zero false) (SF64add b s) = true ->
  SFleb (SFabs (SF64div (SF64sub b s) (SF64add b s))) one_spec = true.
Proof.
  intros Hb Hs Hvt Hvd Hpos.
  destruct b as [[|]| | |[|] mb eb]; try done;
    destruct s as [[|]| | |[|] ms es]; try done.
  - (* only sells *)
    destruct Hs as [Hc He]. cbn [SF64add SFadd SF64sub SFsub negb].
    apply SFdiv_below_one; try assumption. lia.
  - (* only buys *)
    destruct Hb as [Hc He]. cbn [SF64add SFadd SF64sub SFsub negb].
    apply SFdiv_below_one; try assumption. lia.
  - (* both *)
    destruct Hb as [Hcb Heb], Hs as [Hcs Hes].
    destruct (SFadd_above mb ms eb es Hcb Hcs) as [Hbt Hst].
    pose proof (SFsub_below mb ms eb es Hcb Heb Hcs Hes) as Hd.
    cbv zeta in Hbt, Hst, Hd.
    set (t := SF64add _ _) in *. set (d := SF64sub _ _) in *.
    assert (Hfin : match d with S754_zero _ | S754_finite _ _ _ => True | _ => False end).
    { destruct Hd as [Hd|Hd]; destruct d as [|[|]| |]; (exact I || discriminate Hd). }
    assert (Hdt : SFleb (SFabs d) t = true).
    { destruct Hd as [Hd|Hd]; eapply SFleb_trans; eauto. }
    clear Hd Hst.
    destruct t as [[|]|[|]| |[|] mt et]; try discriminate Hbt.
    + (* the sum overflows *)
      destruct d as [sd| | |sd md ed]; try contradiction; reflexivity.
    + apply valid_canonical in Hvt as [Hct Het].
      destruct d as [sd| | |sd md ed]; try contradiction; [reflexivity|].
      apply valid_canonical in Hvd as [Hcd Hed].
      apply SFdiv_below_one; try assumption.
      cbn [SFabs] in Hdt. unfold SFleb in Hdt.
      rewrite (compare_canonical md mt ed et Hcd Hct) in Hdt.
      destruct (Z.compare_spec (scaled (Zpos md) ed) (scaled (Zpos mt) et));
        try discriminate Hdt; lia.
Qed.

(** The same on the numbers of the program: for two finite counts that are
    not negative, the net share of buys is in [-1, 1]. *)
Lemma net_share_unit (buys sells : float) :
  (0 <=? buys) = true -> (buys <? infinity) = true ->
  (0 <=? sells) = true -> (sells <? infinity) = true ->
  let h24_buys := or_zero buys in
  let h24_sells := or_zero sells in
  let total_tx := h24_buys + h24_sells in
  let tx_sentiment :=
    if total_tx >? 0 then (h24_buys - h24_sells) / total_tx else 0 in
  (-1 <=? tx_sentiment) = true /\ (tx_sentiment <=? 1) = true.
Proof.
  intros Hb0 Hb1 Hs0 Hs1. cbv zeta.
  pose proof (or_zero_count buys Hb0 Hb1) as Hb.
  pose proof (or_zero_count sells Hs0 Hs1) as Hs.
  set (b := or_zero buys) in *. set (s := or_zero sells) in *.
  destruct (0 <? b + s) eqn:Hpos; [|by vm_compute].
  rewrite !leb_spec. change (Prim2SF 1) with one_spec.
  apply SFabs_unit.
  rewrite div_spec, sub_spec, add_spec.
  rewrite ltb_spec, add_spec in Hpos.
  apply ratio_unit; try done.
  - rewrite <- add_spec. apply Prim2SF_valid.
  - rewrite <- sub_spec. apply Prim2SF_valid.
Qed.

End NetShare.

(** * The risk analyzer against the rule table *)

Section RiskRefinement.
Local Open Scope float_scope.

Lemma fold_apply_rule (rules : list Rule) (acc : RiskAnalysis) :
  fold_left apply_rule rules acc =
  {| risk_score :=
       fold_left (fun total r => total + r.(weight))
                 (List.filter fired rules) acc.(risk_score);
     vulnerabilities :=
       acc.(vulnerabilities) ++ List.map vulnerability (List.filter fired rules);
     recommendations :=
       acc.(recommendations) ++ List.map recommendation (List.filter fired rules) |}.
Proof.
  revert acc. induction rules as [|r rules IH]; intros acc; simpl.
  - destruct acc; simpl. by rewrite !app_nil_r.
  - rewrite IH. unfold apply_rule, when. destruct (fired r); simpl; [|done].
    unfold push. by rewrite <- !app_assoc.
Qed.

Lemma analyzeTokenRisk_fold now td prev :
  analyzeTokenRisk now td prev =
  let acc := fold_left apply_rule (risk_rules now td prev)
               {| risk_score := 0; vulnerabilities := []; recommendations := [] |} in
  {| risk_score := Math_min acc.(risk_score) 70;
     vulnerabilities := acc.(vulnerabilities);
     recommendations := acc.(recommendations) |}.
Proof.
  unfold analyzeTokenRisk, risk_rules; cbv zeta.
  cbv [THRESHOLDS ALERT_CONFIG liquidity_min volatility_threshold abnormal_tx_ratio
       impermanent_loss_risk quick_dump_risk new_token_risk_days
       pump_warning_threshold price_change_threshold].
  destruct prev as [prev|];
    destruct (Math_abs (h6 (price_change td)) >? 20);
    destruct (or_zero (buys (h24 (txns td))) + or_zero (sells (h24 (txns td))) >? 10);
    try destruct (parseFloat (price_usd prev) >? 0).
  all: cbn [when fold_left apply_rule andb fired weight vulnerability recommendation].
  all: reflexivity.
Qed.

(** The analyzer returns the messages of the rules that fired, in table
    order, and the clamped sum of their weights. *)
Lemma analyzeTokenRisk_rules now td prev :
  analyzeTokenRisk now td prev =
  {| risk_score := Math_min (weight_sum (fired_rules now td prev)) 70;
     vulnerabilities := List.map vulnerability (fired_rules now td prev);
     recommendations := List.map recommendation (fired_rules now td prev) |}.
Proof.
  rewrite analyzeTokenRisk_fold. cbv zeta. rewrite fold_apply_rule. reflexivity.
Qed.

Lemma risk_rules_weights now td prev :
  List.map weight (risk_rules now td prev) = rule_weights.
Proof. destruct prev; reflexivity. Qed.

(** Whatever subset of the nine rules fires, the clamped sum is in [0, 70]. *)
Lemma clamped_sum_bounds (rules : list Rule) :
  List.map weight rules = rule_weights ->
  let s := Math_min (weight_sum (List.filter fired rules)) 70 in
  (0 <=? s) = true /\ (s <=? 70) = true.
Proof.
  unfold rule_weights. intros H.
  do 10 (destruct rules as [|[[|] ? ? ?] rules]; try discriminate H).
  all: cbn [List.map weight] in H.
  all: injection H as -> -> -> -> -> -> -> -> ->.
  all: vm_compute; split; reflexivity.
Qed.

End RiskRefinement.

(** * Claims about the risk analyzer *)

Section RiskClaims.
Local Open Scope string_scope.
Local Open Scope float_scope.

(** C1.  For every snapshot and optional previous snapshot, the score
    [analyzeTokenRisk] returns is the sum of the weights of the rules that
    fired, clamped above at 70, and it lies in [0, 70]. *)
Theorem C1_risk_score_clamped (now : float) (tokenData : TokenData)
    (previousData : option TokenData) :
  let r := analyzeTokenRisk now tokenData previousData in
  r.(risk_score) = Math_min (weight_sum (fired_rules now tokenData previousData)) 70
  /\ (0 <=? r.(risk_score)) = true
  /\ (r.(risk_score) <=? 70) = true.
Proof.
  cbv zeta. rewrite analyzeTokenRisk_rules. cbn [risk_score].
  split; [reflexivity|].
  apply clamped_sum_bounds, risk_rules_weights.
Qed.

(** C4.  On the specification's example (liquidity 50000, 6h change 25, 24h
    change 60, created three days before [now], 10 buys and 95 sells over
    24h, everything else zero, no previous snapshot) the analyzer reports
    exactly the five named vulnerabilities; the weights of the fired rules
    add up to 95 and the returned score is 70. *)
Theorem C4_risk_example (now created : float) :
  token_age now (risky created) = 3 ->
  analyzeTokenRisk now (risky created) None =
  {| risk_score := 70;
     vulnerabilities :=
       ["Low liquidity"; "High volatility: 25.00% over 6h";
        "New token (3.0 days old)"; "High selling pressure: 90.5%";
        "Possible pump: 60.00%"];
     recommendations :=
       ["Increase liquidity or wait for higher liquidity levels";
        "Exercise caution due to high fluctuations";
        "Consider smaller position size"; "Watch for potential sell-off";
        "Extreme caution advised"] |}
  /\ weight_sum (fired_rules now (risky created) None) = 95
  /\ List.map weight (fired_rules now (risky created) None) = [30; 20; 15; 25; 5]
  /\ Math_min 95 70 = 70.
Proof.
  intros Hage.
  rewrite analyzeTokenRisk_rules.
  assert (E : fired_rules now (risky created) None =
    [ {| fired := true; weight := 30; vulnerability := "Low liquidity";
         recommendation := "Increase liquidity or wait for higher liquidity levels" |};
      {| fired := true; weight := 20;
         vulnerability := "High volatility: 25.00% over 6h";
         recommendation := "Exercise caution due to high fluctuations" |};
      {| fired := true; weight := 15; vulnerability := "New token (3.0 days old)";
         recommendation := "Consider smaller position size" |};
      {| fired := true; weight := 25; vulnerability := "High selling pressure: 90.5%";
         recommendation := "Watch for potential sell-off" |};
      {| fired := true; weight := 5; vulnerability := "Possible pump: 60.00%";
         recommendation := "Extreme caution advised" |} ]).
  { unfold fired_rules, risk_rules. cbv zeta. rewrite Hage. vm_compute. reflexivity. }
  rewrite E. vm_compute. repeat split; reflexivity.
Qed.

Lemma C4_risk_example_witness :
  token_age 1762041600000 (risky 1761782400) = 3
  /\ (analyzeTokenRisk 1762041600000 (risky 1761782400) None).(risk_score) = 70.
Proof.
  split; [vm_compute; reflexivity|].
  destruct (C4_risk_example 1762041600000 1761782400) as [E _];
    [vm_compute; reflexivity|].
  rewrite E. reflexivity.
Defined.

(** Membership in the messages of the fired rules. *)
Lemma In_fired_vulnerability now td prev (v : string) :
  In v (analyzeTokenRisk now td prev).(vulnerabilities) <->
  exists r, In r (risk_rules now td prev) /\ r.(fired) = true /\ r.(vulnerability) = v.
Proof.
  rewrite analyzeTokenRisk_rules. cbn [vulnerabilities]. unfold fired_rules.
  rewrite in_map_iff. split.
  - intros (r & <- & Hr). apply filter_In in Hr as [? ?]. eauto.
  - intros (r & ? & ? & <-). exists r. split; [done|]. by apply filter_In.
Qed.

(** C6.  The "High impermanent loss risk" entry is in the vulnerabilities
    exactly when |price_change.h6| > 30, the "High volatility" entry exactly
    when |price_change.h6| > 20, and so the former never appears without the
    latter; their rules weigh 10 and 20. *)
Theorem C6_impermanent_loss_nested (now : float) (tokenData : TokenData)
    (previousData : option TokenData) :
  let r := analyzeTokenRisk now tokenData previousData in
  let volatility := Math_abs tokenData.(price_change).(h6) in
  let high_volatility := "High volatility: " ++ toFixed volatility 2 ++ "% over 6h" in
  (In "High impermanent loss risk" r.(vulnerabilities) <-> (volatility >? 30) = true)
  /\ (In high_volatility r.(vulnerabilities) <-> (volatility >? 20) = true)
  /\ (In "High impermanent loss risk" r.(vulnerabilities) ->
      In high_volatility r.(vulnerabilities))
  /\ (forall rule, In rule (fired_rules now tokenData previousData) ->
      (rule.(vulnerability) = "High impermanent loss risk" -> rule.(weight) = 10)
      /\ (rule.(vulnerability) = high_volatility -> rule.(weight) = 20)).
Proof.
  cbv zeta.
  assert (Himp : In "High impermanent loss risk"
                    (analyzeTokenRisk now tokenData previousData).(vulnerabilities)
                 <-> (Math_abs tokenData.(price_change).(h6) >? 30) = true).
  { rewrite In_fired_vulnerability. split.
    - intros (r & Hin & Hf & Hv).
      destruct previousData; rule_rows Hin; cbn in Hf, Hv; try discriminate Hv.
      all: by apply andb_prop in Hf as [_ ?].
    - intros H30.
      eexists {| fired := _; weight := 10; vulnerability := _; recommendation := _ |}.
      split; [|split; [|reflexivity]].
      + unfold risk_rules; cbv zeta. do 2 right. left. reflexivity.
      + cbn. rewrite H30, andb_true_r.
        apply float_ltb_trans with 30; [reflexivity | done]. }
  assert (Hvol : In ("High volatility: "
                     ++ toFixed (Math_abs tokenData.(price_change).(h6)) 2 ++ "% over 6h")
                    (analyzeTokenRisk now tokenData previousData).(vulnerabilities)
                 <-> (Math_abs tokenData.(price_change).(h6) >? 20) = true).
  { rewrite In_fired_vulnerability. split.
    - intros (r & Hin & Hf & Hv).
      destruct previousData; rule_rows Hin; cbn in Hf, Hv; try discriminate Hv.
      all: done.
    - intros H20.
      eexists {| fired := _; weight := 20; vulnerability := _; recommendation := _ |}.
      split; [|split; [|reflexivity]].
      + unfold risk_rules; cbv zeta. right. left. reflexivity.
      + done. }
  split; [done|]. split; [done|]. split.
  - rewrite Himp, Hvol. intros H30. apply float_ltb_trans with 30; [reflexivity | done].
  - intros rule Hin. unfold fired_rules in Hin. apply filter_In in Hin as [Hin _].
    destruct previousData; rule_rows Hin; cbn; split; intros Hv;
      first [reflexivity | discriminate Hv].
Qed.

End RiskClaims.

(** * Claims about the sentiment analyzer *)

Section SentimentClaims.
Local Open Scope string_scope.
Local Open Scope float_scope.

(** The trends start with the ladder label of the score, and nothing after
    it is a ladder label. *)
Lemma trends_shape (tokenData : TokenData) (previousSentiment : option Sentiment) :
  let r := analyzeMarketSentiment tokenData previousSentiment in
  exists rest,
    r.(trends) = ladder_label r.(score) :: rest
    /\ List.filter (is_ladder_label ladder_labels) rest = [].
Proof.
  unfold analyzeMarketSentiment, ladder_label; cbv zeta; cbn [trends score].
  split_ifs; eexists; (split; [reflexivity | reflexivity]).
Qed.

Lemma ladder_label_in (overall : float) : In (ladder_label overall) ladder_labels.
Proof. unfold ladder_label, ladder_labels. split_ifs; simpl; tauto. Qed.

Lemma ladder_label_is (overall : float) :
  is_ladder_label ladder_labels (ladder_label overall) = true.
Proof. unfold ladder_label. split_ifs; reflexivity. Qed.

(** C5, as the specification words it, fails: above 0.7 the label pushed is
    "Strong bullish sentiment", so none of the five strings the
    specification lists is in the trends. *)
Lemma C5_spec_labels_counterexample :
  let r := analyzeMarketSentiment soaring None in
  (r.(score) >? 0.7) = true
  /\ r.(trends) = ["Strong bullish sentiment"]
  /\ length (List.filter (is_ladder_label spec_ladder_labels) r.(trends)) <> 1%nat
  /\ ~ In "Strong bullish" r.(trends).
Proof.
  vm_compute. repeat split; try reflexivity; try discriminate.
  intros [H|[]]. discriminate H.
Qed.

(** C5, amended.  For every snapshot exactly one of "Strong bullish
    sentiment", "Moderate bullish", "Strong bearish", "Moderate bearish",
    "Neutral" is in the trends; it is the one the thresholds > 0.7, > 0.3,
    < -0.7, < -0.3 select in that order, and it is the first element. *)
Theorem C5_one_ladder_label_first (tokenData : TokenData)
    (previousSentiment : option Sentiment) :
  let r := analyzeMarketSentiment tokenData previousSentiment in
  hd_error r.(trends) = Some (ladder_label r.(score))
  /\ In (ladder_label r.(score)) ladder_labels
  /\ List.filter (is_ladder_label ladder_labels) r.(trends) = [ladder_label r.(score)].
Proof.
  cbv zeta.
  destruct (trends_shape tokenData previousSentiment) as (rest & -> & Hrest).
  split; [reflexivity|]. split; [apply ladder_label_in|].
  cbn [List.filter]. by rewrite ladder_label_is, Hrest.
Qed.

(** C3, as stated, fails: the social component and the score are not
    clamped.  With both price changes at 1000 percent the social component is
    10 and the score exceeds 2. *)
Lemma C3_score_unbounded_counterexample :
  let r := analyzeMarketSentiment soaring None in
  r.(breakdown).(social) = 10
  /\ (r.(score) >? 2) = true
  /\ (r.(score) <=? 1) = false
  /\ (r.(breakdown).(social) <=? 1) = false.
Proof. vm_compute. repeat split; reflexivity. Qed.

(** C3, amended.  Two of the three components are in [-1, 1]:
    [price_action], which is clamped, whenever the weighted price sum is a
    number; and [transactions], the net share of buys, whenever the two
    24-hour counts are finite and not negative.  The social component is the
    unclamped sum 0.3 * h1/100 + 0.7 * h24/100 and the score is the unclamped
    combination of the three components. *)
Theorem C3_components_clamped (tokenData : TokenData)
    (previousSentiment : option Sentiment) :
  let r := analyzeMarketSentiment tokenData previousSentiment in
  let counts := tokenData.(txns).(h24) in
  (is_nan (price_sum tokenData) = false ->
     (-1 <=? r.(breakdown).(price_action)) = true
     /\ (r.(breakdown).(price_action) <=? 1) = true)
  /\ ((0 <=? counts.(buys)) = true -> (counts.(buys) <? infinity) = true ->
      (0 <=? counts.(sells)) = true -> (counts.(sells) <? infinity) = true ->
     (-1 <=? r.(breakdown).(transactions)) = true
     /\ (r.(breakdown).(transactions) <=? 1) = true)
  /\ r.(breakdown).(price_action) = Math_max (-1) (Math_min 1 (price_sum tokenData))
  /\ r.(breakdown).(social) =
       (tokenData.(price_change).(h1) / 100 * 0.3)
       + (tokenData.(price_change).(h24) / 100 * 0.7)
  /\ r.(score) =
       (r.(breakdown).(transactions) * 0.4) + (r.(breakdown).(price_action) * 0.4)
       + (r.(breakdown).(social) * 0.2).
Proof.
  cbv zeta. split; [|split].
  - intros Hnan. exact (clamp_unit (price_sum tokenData) Hnan).
  - intros Hb0 Hb1 Hs0 Hs1.
    exact (net_share_unit _ _ Hb0 Hb1 Hs0 Hs1).
  - repeat split; reflexivity.
Qed.

Lemma C3_components_clamped_witness :
  let r := analyzeMarketSentiment (risky 0) None in
  is_nan (price_sum (risky 0)) = false
  /\ (0 <=? 10) = true /\ (10 <? infinity) = true
  /\ (0 <=? 95) = true /\ (95 <? infinity) = true
  /\ ((-1 <=? r.(breakdown).(price_action)) = true
      /\ (r.(breakdown).(price_action) <=? 1) = true)
  /\ ((-1 <=? r.(breakdown).(transactions)) = true
      /\ (r.(breakdown).(transactions) <=? 1) = true).
Proof.
  cbv zeta.
  destruct (C3_components_clamped (risky 0) None) as (Hprice & Hcounts & _).
  repeat (split; [vm_compute; reflexivity|]).
  split; [apply Hprice | apply Hcounts]; vm_compute; reflexivity.
Defined.

(** The two conditions on the counts are needed: a negative count takes the
    net share of buys to -2, and an infinite one leaves no number. *)
Example net_share_other_counts :
  (analyzeMarketSentiment (counted (-1) 3) None).(breakdown).(transactions) = -2
  /\ is_nan (analyzeMarketSentiment (counted infinity 5) None).(breakdown).(transactions)
     = true
  /\ (analyzeMarketSentiment (counted 10 95) None).(breakdown).(transactions)
     = (10 - 95) / 105.
Proof. vm_compute. repeat split; reflexivity. Qed.

(** C8.  With no buys and no sells over 24 hours the transactions component
    is exactly 0: the total is not positive, so the quotient is not taken. *)
Theorem C8_no_transactions_zero (tokenData : TokenData)
    (previousSentiment : option Sentiment) :
  tokenData.(txns).(h24).(buys) = 0 ->
  tokenData.(txns).(h24).(sells) = 0 ->
  (analyzeMarketSentiment tokenData previousSentiment).(breakdown).(transactions) = 0.
Proof.
  intros Hb Hs. unfold analyzeMarketSentiment; cbv zeta.
  cbn [breakdown transactions]. rewrite Hb, Hs. reflexivity.
Qed.

Lemma C8_no_transactions_zero_witness :
  (analyzeMarketSentiment blank None).(breakdown).(transactions) = 0.
Proof. apply C8_no_transactions_zero; reflexivity. Defined.

End SentimentClaims.

(** * Absolute value and the percentage of change *)

Section AbsoluteChange.
Local Open Scope float_scope.

Lemma SFabs_div x y :
  positive_spec y -> SFabs (SF64div x y) = SF64div (SFabs x) y.
Proof.
  unfold SF64div, SFdiv.
  destruct x as [?|?| |? ? ?], y as [[|]|[|]| |[|] ? ?];
    cbn [positive_spec SFabs]; intros H; try contradiction; try reflexivity.
  destruct (SFdiv_core_binary _ _ _ _ _ _) as [[mz ez] lz].
  rewrite SFabs_binary_round_aux. reflexivity.
Qed.

Lemma SFabs_mul x y :
  positive_spec y -> SFabs (SF64mul x y) = SF64mul (SFabs x) y.
Proof.
  unfold SF64mul, SFmul.
  destruct x as [?|?| |? ? ?], y as [[|]|[|]| |[|] ? ?];
    cbn [positive_spec]; intros H; try contradiction; try reflexivity.
  rewrite SFabs_binary_round_aux. reflexivity.
Qed.

Lemma positive_spec_gt0 (p : float) : (p >? 0) = true -> positive_spec (Prim2SF p).
Proof.
  rewrite ltb_spec. change (Prim2SF 0) with (S754_zero false).
  unfold SFltb, SFcompare.
  destruct (Prim2SF p) as [[|]|[|]| |[|] ? ?]; simpl; congruence || done.
Qed.

(** For a positive previous value, the absolute value of the relative change
    is the relative absolute change: [detectAlerts] takes the former,
    [analyzeTokenRisk] and the specification the latter. *)
Lemma abs_percent (d p : float) :
  (p >? 0) = true ->
  Math_abs (d / p * 100) = Math_abs d / p * 100.
Proof.
  intros Hp. apply positive_spec_gt0 in Hp.
  unfold Math_abs. apply Prim2SF_inj.
  rewrite abs_spec, !mul_spec, !div_spec, abs_spec.
  rewrite SFabs_mul by (vm_compute; exact I).
  by rewrite SFabs_div.
Qed.

End AbsoluteChange.

(** * Claims about the alert detector *)

Section AlertClaims.
Local Open Scope string_scope.
Local Open Scope float_scope.

Lemma alert_step (alerts : list string) (threshold current previous : float)
    (render : string -> string -> string) :
  (if previous >? 0 then
     if Math_abs ((current - previous) / previous * 100) >? threshold
     then push alerts
            (render (if current >? previous then "increased" else "decreased")
                    (toFixed (Math_abs ((current - previous) / previous * 100)) 2))
     else alerts
   else alerts)
  = (alerts ++ metric_alert threshold current previous render)%list.
Proof.
  unfold metric_alert, percent_change, direction, push.
  destruct (previous >? 0) eqn:Hp; cbn [andb]; [|by rewrite app_nil_r].
  rewrite (abs_percent _ _ Hp).
  destruct (_ >? threshold); [reflexivity | by rewrite app_nil_r].
Qed.

Lemma detectAlerts_metrics (current previous : TokenData) :
  detectAlerts current (Some previous) =
  Return (price_alert current previous ++ volume_alert current previous
          ++ liquidity_alert current previous)%list.
Proof.
  unfold detectAlerts, price_alert, volume_alert, liquidity_alert; cbv zeta.
  cbv [ALERT_CONFIG price_change_threshold volume_change_threshold
       liquidity_change_threshold].
  rewrite (alert_step [] 10 _ _
    (fun dir pct => "PRICE ALERT: " ++ current.(base_token).(symbol) ++ " " ++ dir
                    ++ " by " ++ pct ++ "%")).
  rewrite (alert_step _ 50 _ _
    (fun dir pct => "VOLUME ALERT: Volume " ++ dir ++ " by " ++ pct ++ "%")).
  rewrite (alert_step _ 20 _ _
    (fun dir pct => "LIQUIDITY ALERT: Liquidity " ++ dir ++ " by " ++ pct ++ "%")).
  cbn [app]. by rewrite <- app_assoc.
Qed.

Lemma prefix_empty (s : string) : String.prefix "" s = true.
Proof. by destruct s. Qed.

Lemma tagged_app tag a b :
  tagged tag (a ++ b)%list = (tagged tag a ++ tagged tag b)%list.
Proof. apply List.filter_app. Qed.

Lemma metric_alert_cases threshold current previous render :
  metric_alert threshold current previous render =
  if (previous >? 0) && (percent_change current previous >? threshold)
  then [render (direction current previous)
               (toFixed (percent_change current previous) 2)]
  else [].
Proof. reflexivity. Qed.

(** C7.  With a previous snapshot present, [detectAlerts] returns the price,
    volume and liquidity alerts in that order, each decided on its own: a
    metric's alert is there exactly when its previous value is positive and
    [|current - previous| / previous * 100] exceeds its threshold (10, 50,
    20), worded "increased" when the current value is the greater and
    "decreased" otherwise.  From 1.00 to 1.15 the price alert reads
    "increased by 15.00%"; from 1.00 to 1.05 there is none. *)
Theorem C7_alerts_per_metric (current previous : TokenData) :
  let alerts := (price_alert current previous ++ volume_alert current previous
                 ++ liquidity_alert current previous)%list in
  let price := parseFloat current.(price_usd) in
  let price' := parseFloat previous.(price_usd) in
  let vol := current.(volume).(h1) in
  let vol' := previous.(volume).(h1) in
  let liq := current.(liquidity).(usd) in
  let liq' := previous.(liquidity).(usd) in
  detectAlerts current (Some previous) = Return alerts
  /\ tagged "PRICE ALERT: " alerts =
       (if (price' >? 0) && (percent_change price price' >? 10)
        then ["PRICE ALERT: " ++ current.(base_token).(symbol) ++ " "
              ++ (if price >? price' then "increased" else "decreased")
              ++ " by " ++ toFixed (percent_change price price') 2 ++ "%"]
        else [])
  /\ tagged "VOLUME ALERT: " alerts =
       (if (vol' >? 0) && (percent_change vol vol' >? 50)
        then ["VOLUME ALERT: Volume "
              ++ (if vol >? vol' then "increased" else "decreased")
              ++ " by " ++ toFixed (percent_change vol vol') 2 ++ "%"]
        else [])
  /\ tagged "LIQUIDITY ALERT: " alerts =
       (if (liq' >? 0) && (percent_change liq liq' >? 20)
        then ["LIQUIDITY ALERT: Liquidity "
              ++ (if liq >? liq' then "increased" else "decreased")
              ++ " by " ++ toFixed (percent_change liq liq') 2 ++ "%"]
        else [])
  /\ detectAlerts (with_price_usd "1.15" current) (Some (with_price_usd "1.00" previous))
     = Return (("PRICE ALERT: " ++ current.(base_token).(symbol)
                ++ " increased by 15.00%")
               :: (volume_alert current previous
                   ++ liquidity_alert current previous)%list)
  /\ detectAlerts (with_price_usd "1.05" current) (Some (with_price_usd "1.00" previous))
     = Return (volume_alert current previous ++ liquidity_alert current previous)%list.
Proof.
  cbv zeta. split; [apply detectAlerts_metrics|].
  rewrite !tagged_app.
  unfold price_alert, volume_alert, liquidity_alert.
  rewrite !metric_alert_cases. unfold direction.
  repeat split.
  - destruct (_ && _), (_ && _), (_ && _); simpl; rewrite ?prefix_empty; reflexivity.
  - destruct (_ && _), (_ && _), (_ && _); simpl; rewrite ?prefix_empty; reflexivity.
  - destruct (_ && _), (_ && _), (_ && _); simpl; rewrite ?prefix_empty; reflexivity.
  - rewrite detectAlerts_metrics. reflexivity.
  - rewrite detectAlerts_metrics. reflexivity.
Qed.

End AlertClaims.

(** * Claims about the invocation step *)

Section RunClaims.

Lemma process_alerts_returns (tokenData : TokenData) (previousData : option TokenData) :
  exists logged, process_alerts tokenData previousData = Return logged.
Proof.
  destruct previousData as [previous|]; cbn [process_alerts]; [|by eexists].
  rewrite detectAlerts_metrics. cbn [bind]. by eexists.
Qed.

(** C2, as stated, fails: called without a previous snapshot, [detectAlerts]
    reads [previous.price_usd] and throws. *)
Lemma C2_absent_previous_counterexample :
  detectAlerts blank None =
  Throw (TypeError "Cannot read properties of undefined (reading 'price_usd')")
  /\ detectAlerts blank None <> Return [].
Proof. split; [reflexivity | discriminate]. Qed.

(** C2, amended.  The guard is the caller's: when the cache holds no
    previous snapshot for the token, the invocation step does not call
    [detectAlerts], logs no alert and completes with its report; with a
    previous snapshot present [detectAlerts] always returns a list. *)
Theorem C2_no_previous_no_alerts (chainId tokenAddress : string) (w : World)
    (st : Stores) (tokenData : TokenData) :
  w.(fetched) = Some tokenData ->
  st.(dataCache) !! token_key chainId tokenAddress = None ->
  process_alerts tokenData (st.(dataCache) !! token_key chainId tokenAddress) = Return []
  /\ (exists st' report,
        run chainId tokenAddress w st =
        Return (st', [SaveWeeklyData (token_key chainId tokenAddress) report],
                ReportText report))
  /\ (forall previous, exists alerts,
        detectAlerts tokenData (Some previous) = Return alerts).
Proof.
  intros Hfetched Hcache. split; [by rewrite Hcache|]. split.
  - unfold run. fold (token_key chainId tokenAddress).
    rewrite Hfetched, Hcache. cbn [process_alerts bind app]. by eexists _, _.
  - intros previous. rewrite detectAlerts_metrics. by eexists.
Qed.

Lemma C2_no_previous_no_alerts_witness :
  process_alerts blank (initial_stores.(dataCache) !! token_key "solana" "So1") = Return [].
Proof.
  apply (C2_no_previous_no_alerts "solana" "So1"
           {| fetched := Some blank; now_point := 0; now_risk := 0; now_report := 0;
              weekly := None; api_key := None |} initial_stores blank);
    reflexivity.
Defined.

(** C10.  The report's [metrics.transactions.h1.ratio] is [buys / sells]
    when the h1 sell count is a nonzero number and the h1 buy count itself
    when the sell count is zero, so the quotient is never taken over zero. *)
Theorem C10_h1_ratio (CLAUDE_API_KEY : option string) (now : float)
    (tokenData : TokenData) (riskAnalysis : RiskAnalysis)
    (weeklyData : option Report.t) (sentiment : Sentiment) :
  let report := generateAnalyticsReport CLAUDE_API_KEY now tokenData riskAnalysis
                  weeklyData sentiment in
  let h1_buys := tokenData.(txns).(h1).(buys) in
  let h1_sells := tokenData.(txns).(h1).(sells) in
  let ratio := report.(Report.metrics).(Report.transactions).(Report.tx_h1).(Report.ratio) in
  ratio = (if is_zero h1_sells || is_nan h1_sells then h1_buys
           else (h1_buys / h1_sells)%float)
  /\ (is_zero h1_sells = true -> ratio = h1_buys)
  /\ (is_zero h1_sells = false -> is_nan h1_sells = false ->
      ratio = (h1_buys / h1_sells)%float).
Proof.
  cbv zeta. unfold generateAnalyticsReport; cbv zeta.
  cbn [Report.metrics Report.transactions Report.tx_h1 Report.ratio].
  unfold truthy.
  destruct (is_zero _), (is_nan _); cbn [orb negb]; repeat split; congruence.
Qed.

End RunClaims.

(** * The price history *)

Section HistoryClaims.

Lemma newest_length {A : Type} (n : nat) (l : list A) : length (newest n l) <= n.
Proof. unfold newest. rewrite length_drop. lia. Qed.

Lemma newest_short {A : Type} (n : nat) (l : list A) : length l <= n -> newest n l = l.
Proof. unfold newest. intros H. by replace (length l - n) with 0 by lia. Qed.

Lemma newest_app {A : Type} (n : nat) (l m : list A) :
  newest n (newest n l ++ m) = newest n (l ++ m).
Proof.
  destruct (decide (length l <= n)) as [Hle|Hgt].
  - by rewrite (newest_short n l).
  - unfold newest. rewrite !length_app, length_drop.
    replace (length l - (length l - n) + length m - n) with (length m) by lia.
    replace (length l + length m - n) with ((length l - n) + length m) by lia.
    rewrite <- drop_drop. f_equal.
    rewrite drop_app_le by lia. reflexivity.
Qed.

Lemma slice_newest {A : Type} (l : list A) :
  slice l (-1000) None = newest 1000 l.
Proof.
  unfold slice, newest, relative_index. cbn [Z.ltb Z.compare].
  replace (Z.to_nat (Z.max (Z.of_nat (length l) + -1000) 0)) with (length l - 1000) by lia.
  apply take_ge. rewrite length_drop. lia.
Qed.

Lemma record_price_lookup (priceHistory : gmap string (list PricePoint.t))
    (tokenKey : string) (pricePoint : PricePoint.t) :
  record_price priceHistory tokenKey pricePoint !! tokenKey =
  Some (newest 1000 (default [] (priceHistory !! tokenKey) ++ [pricePoint])).
Proof.
  unfold record_price, push.
  assert (E : default [] (match priceHistory !! tokenKey with
                          | None => <[tokenKey := []]> priceHistory
                          | Some _ => priceHistory
                          end !! tokenKey)
              = default [] (priceHistory !! tokenKey)).
  { destruct (priceHistory !! tokenKey) eqn:H; [by rewrite H|].
    by rewrite lookup_insert_eq. }
  rewrite E.
  destruct (1000 <? _) eqn:Hlen.
  - rewrite lookup_insert_eq. by rewrite slice_newest.
  - rewrite lookup_insert_eq. apply Nat.ltb_ge in Hlen. by rewrite newest_short.
Qed.

Lemma record_price_other (priceHistory : gmap string (list PricePoint.t))
    (tokenKey key : string) (pricePoint : PricePoint.t) :
  tokenKey <> key ->
  default [] (record_price priceHistory tokenKey pricePoint !! key)
  = default [] (priceHistory !! key).
Proof.
  intros Hne. unfold record_price.
  destruct (1000 <? _); rewrite ?lookup_insert_ne by done;
    destruct (priceHistory !! tokenKey); by rewrite ?lookup_insert_ne by done.
Qed.

(** One invocation completes, and leaves each history as the append says. *)
Lemma run_history (chainId tokenAddress : string) (w : World) (st : Stores) :
  exists st' effects result,
    run chainId tokenAddress w st = Return (st', effects, result)
    /\ forall key,
         history st' key =
         match price_point_of w with
         | Some p =>
             if String.eqb (token_key chainId tokenAddress) key
             then newest 1000 (history st key ++ [p])
             else history st key
         | None => history st key
         end.
Proof.
  unfold run, price_point_of. fold (token_key chainId tokenAddress).
  destruct (fetched w) as [tokenData|]; [|by eexists _, _, _].
  destruct (process_alerts_returns tokenData
              (dataCache st !! token_key chainId tokenAddress)) as [logged ->].
  cbn [bind]. eexists _, _, _. split; [reflexivity|].
  intros key. unfold history; cbn [priceHistory].
  destruct (String.eqb_spec (token_key chainId tokenAddress) key) as [<-|Hne].
  - by rewrite record_price_lookup.
  - by apply record_price_other.
Qed.

Lemma run_all_history (calls : list (string * string * World)) :
  forall st,
    (forall key, length (history st key) <= 1000) ->
    exists st',
      run_all calls st = Return st'
      /\ forall key,
           history st' key = newest 1000 (history st key ++ appended key calls).
Proof.
  induction calls as [|[[chainId tokenAddress] w] calls IH]; intros st Hinv.
  - exists st. split; [reflexivity|]. intros key. cbn [appended].
    rewrite app_nil_r. by rewrite newest_short.
  - destruct (run_history chainId tokenAddress w st) as (st1 & eff & res & Hrun & Hst1).
    destruct (IH st1) as (st' & Hall & Hst').
    { intros key. rewrite Hst1.
      destruct (price_point_of w); [|done].
      destruct (String.eqb _ key); [apply newest_length | done]. }
    exists st'. split.
    + cbn [run_all]. rewrite Hrun. cbn [bind fst]. exact Hall.
    + intros key. rewrite Hst', Hst1. cbn [appended].
      destruct (price_point_of w) as [p|]; [|reflexivity].
      destruct (String.eqb _ key); [|reflexivity].
      rewrite newest_app. by rewrite <- app_assoc.
Qed.

(** C9.  After any sequence of invocations from the start of the process,
    the history of every token holds the newest 1000 of the points appended
    for it, in append order; so it never has more than 1000 entries and the
    entries dropped are the oldest. *)
Theorem C9_history_newest_1000 (calls : list (string * string * World)) :
  exists st,
    run_all calls initial_stores = Return st
    /\ forall key,
         history st key = newest 1000 (appended key calls)
         /\ length (history st key) <= 1000
         /\ exists dropped, appended key calls = dropped ++ history st key.
Proof.
  destruct (run_all_history calls initial_stores) as (st & Hrun & Hst).
  { intros key. unfold history. cbn [initial_stores priceHistory].
    rewrite lookup_empty. cbn. lia. }
  exists st. split; [exact Hrun|]. intros key.
  assert (E : history st key = newest 1000 (appended key calls)).
  { rewrite Hst. unfold history at 1. cbn [initial_stores priceHistory].
    rewrite lookup_empty. reflexivity. }
  rewrite E. split; [reflexivity|]. split; [apply newest_length|].
  exists (take (length (appended key calls) - 1000) (appended key calls)).
  unfold newest. by rewrite take_drop.
Qed.

End HistoryClaims.

(** * The analyzers on an unchanged snapshot, and the score *)

Section Unchanged.
Local Open Scope string_scope.
Local Open Scope float_scope.

Lemma SFsub_self (m : positive) (e : Z) :
  SF64sub (S754_finite false m e) (S754_finite false m e) = S754_zero false.
Proof. unfold SF64sub, SFsub. cbn [cond_Zopp]. rewrite Z.sub_diag. reflexivity. Qed.

(** A value compared with itself has changed by 0 percent, or by no number
    at all when it is infinite; neither exceeds a threshold. *)
Lemma percent_self (p threshold : float) :
  (p >? 0) = true -> (0 <=? threshold) = true ->
  (percent_change p p >? threshold) = false.
Proof.
  intros Hp Ht. apply positive_spec_gt0 in Hp.
  rewrite leb_spec in Ht. change (Prim2SF 0) with (S754_zero false) in Ht.
  unfold percent_change, Math_abs.
  rewrite ltb_spec, mul_spec, div_spec, abs_spec, sub_spec.
  destruct (Prim2SF p) as [[|]|[|]| |[|] m e]; try contradiction.
  - destruct (Prim2SF threshold) as [[|]|[|]| |[|] ? ?]; reflexivity.
  - rewrite SFsub_self.
    destruct (Prim2SF threshold) as [[|]|[|]| |[|] ? ?]; try discriminate Ht; reflexivity.
Qed.

Lemma metric_alert_self (threshold p : float) (render : string -> string -> string) :
  (0 <=? threshold) = true -> metric_alert threshold p p render = [].
Proof.
  intros Ht. unfold metric_alert.
  destruct (p >? 0) eqn:Hp; [|reflexivity].
  by rewrite (percent_self p threshold Hp Ht).
Qed.

(** The lists of the analysis with a previous snapshot are those of the
    analysis without one, followed by the entry of the last rule if it fired. *)
Lemma analyzeTokenRisk_previous (now : float) (tokenData previousData : TokenData) :
  let price := parseFloat tokenData.(price_usd) in
  let price' := parseFloat previousData.(price_usd) in
  let sudden := (price' >? 0) && (percent_change price price' >? 10) in
  let r := analyzeTokenRisk now tokenData (Some previousData) in
  let r0 := analyzeTokenRisk now tokenData None in
  r.(vulnerabilities) =
    List.app r0.(vulnerabilities)
      (if sudden
       then ["Sudden price change: " ++ toFixed (percent_change price price') 2 ++ "%"]
       else [])
  /\ r.(recommendations) =
    List.app r0.(recommendations)
      (if sudden then ["Investigate price movement"] else [])
  /\ (sudden = false -> r = r0).
Proof.
  cbv zeta. unfold analyzeTokenRisk, percent_change. cbv zeta.
  cbv [ALERT_CONFIG price_change_threshold].
  destruct (parseFloat (price_usd previousData) >? 0);
    [destruct (_ / _ * 100 >? 10)|];
    cbn [when flag vulnerabilities recommendations andb push];
    rewrite ?app_nil_r; repeat split; try reflexivity; discriminate.
Qed.

Lemma detectAlerts_self (tokenData : TokenData) :
  detectAlerts tokenData (Some tokenData) = Return [].
Proof.
  rewrite detectAlerts_metrics. unfold price_alert, volume_alert, liquidity_alert.
  by rewrite !metric_alert_self.
Qed.

(** X1.  A snapshot compared with itself raises no alert, and the risk
    analysis against itself is the analysis of a first sight: a change of
    0 percent, or of no number when the value is infinite, exceeds no
    threshold. *)
Theorem unchanged_snapshot_is_quiet (now : float) (tokenData : TokenData) :
  detectAlerts tokenData (Some tokenData) = Return []
  /\ analyzeTokenRisk now tokenData (Some tokenData) = analyzeTokenRisk now tokenData None.
Proof.
  split; [apply detectAlerts_self|].
  apply (analyzeTokenRisk_previous now tokenData tokenData).
  destruct (parseFloat (price_usd tokenData) >? 0) eqn:Hp; [|reflexivity].
  by rewrite (percent_self _ 10 Hp).
Qed.

Lemma tagged_unfired (tag : string) (rules : list Rule) :
  forallb (fun r => negb (String.prefix tag r.(vulnerability))) rules = true ->
  tagged tag (List.map vulnerability (List.filter fired rules)) = [].
Proof.
  unfold tagged. induction rules as [|r rules IH]; [reflexivity|].
  cbn [forallb List.filter]. intros H. apply andb_prop in H as [Hr H].
  destruct (fired r); [|by apply IH].
  cbn [List.map List.filter]. apply negb_true_iff in Hr. rewrite Hr. by apply IH.
Qed.

(** X2.  The price alert of [detectAlerts] and the "Sudden price change"
    entry of [analyzeTokenRisk] are decided by the same condition and show the
    same percentage, although the two functions take the absolute value at
    different places.  The previous snapshot adds nothing else to the
    analysis: the lists are those of the analysis without it, followed by
    that entry. *)
Theorem price_alert_iff_sudden_change (now : float) (current previous : TokenData) :
  let price := parseFloat current.(price_usd) in
  let price' := parseFloat previous.(price_usd) in
  let sudden := (price' >? 0) && (percent_change price price' >? 10) in
  let shown := toFixed (percent_change price price') 2 in
  let r := analyzeTokenRisk now current (Some previous) in
  let r0 := analyzeTokenRisk now current None in
  (exists others,
     detectAlerts current (Some previous) =
     Return (List.app
               (if sudden
                then ["PRICE ALERT: " ++ current.(base_token).(symbol) ++ " "
                      ++ (if price >? price' then "increased" else "decreased")
                      ++ " by " ++ shown ++ "%"]
                else [])
               others)
     /\ tagged "PRICE ALERT: " others = [])
  /\ r.(vulnerabilities) =
       List.app r0.(vulnerabilities)
         (if sudden then ["Sudden price change: " ++ shown ++ "%"] else [])
  /\ r.(recommendations) =
       List.app r0.(recommendations)
         (if sudden then ["Investigate price movement"] else [])
  /\ tagged "Sudden price change: " r0.(vulnerabilities) = [].
Proof.
  cbv zeta. split; [|split; [|split]].
  - exists (volume_alert current previous ++ liquidity_alert current previous)%list.
    split; [apply detectAlerts_metrics|].
    rewrite tagged_app. unfold volume_alert, liquidity_alert, metric_alert.
    by destruct (_ && _), (_ && _).
  - apply analyzeTokenRisk_previous.
  - apply analyzeTokenRisk_previous.
  - rewrite analyzeTokenRisk_rules. cbn [vulnerabilities]. unfold fired_rules.
    apply tagged_unfired. reflexivity.
Qed.

(** X3.  Every vulnerability comes with its recommendation: the two lists
    have the same length, at most 9, and pair up as the messages of the rules
    that fired, in the order of the rules. *)
Theorem risk_lists_paired (now : float) (tokenData : TokenData)
    (previousData : option TokenData) :
  let r := analyzeTokenRisk now tokenData previousData in
  length r.(vulnerabilities) = length r.(recommendations)
  /\ length r.(vulnerabilities) <= 9
  /\ List.combine r.(vulnerabilities) r.(recommendations) =
     List.map (fun rule => (rule.(vulnerability), rule.(recommendation)))
              (fired_rules now tokenData previousData).
Proof.
  cbv zeta. rewrite analyzeTokenRisk_rules. cbn [vulnerabilities recommendations].
  rewrite !length_map. split; [reflexivity|]. split.
  - unfold fired_rules.
    etransitivity; [apply List.filter_length_le|].
    by destruct previousData.
  - induction (fired_rules now tokenData previousData) as [|rule l IH]; [reflexivity|].
    cbn [List.map List.combine]. by rewrite IH.
Qed.

Lemma clamped_sum_steps (rules : list Rule) :
  List.map weight rules = rule_weights ->
  let s := Math_min (weight_sum (List.filter fired rules)) 70 in
  In s [0; 5; 10; 15; 20; 25; 30; 35; 40; 45; 50; 55; 60; 65; 70]
  /\ (List.filter fired rules = [] -> s = 0)
  /\ (List.filter fired rules <> [] -> (5 <=? s) = true).
Proof.
  unfold rule_weights. intros H.
  do 10 (destruct rules as [|[[|] ?w ?v ?c] rules]; try discriminate H).
  all: cbn [List.map weight] in H.
  all: injection H as -> -> -> -> -> -> -> -> ->.
  all: cbn [List.filter fired].
  all: split; [|split].
  all: try (intros E; discriminate E).
  all: try (intros _; vm_compute; reflexivity).
  all: try (intros E; exfalso; apply E; reflexivity).
  all: vm_compute; repeat (first [left; reflexivity | right]).
Qed.

(** X4.  The score is a multiple of 5 between 0 and 70; it is 0 when nothing
    is flagged and at least 5 as soon as something is. *)
Theorem risk_score_steps (now : float) (tokenData : TokenData)
    (previousData : option TokenData) :
  let r := analyzeTokenRisk now tokenData previousData in
  In r.(risk_score) [0; 5; 10; 15; 20; 25; 30; 35; 40; 45; 50; 55; 60; 65; 70]
  /\ (r.(vulnerabilities) = [] -> r.(risk_score) = 0)
  /\ (r.(vulnerabilities) <> [] -> (5 <=? r.(risk_score)) = true).
Proof.
  cbv zeta. rewrite analyzeTokenRisk_rules. cbn [risk_score vulnerabilities].
  destruct (clamped_sum_steps (risk_rules now tokenData previousData)
              (risk_rules_weights now tokenData previousData)) as (Hin & H0 & H5).
  split; [exact Hin|]. unfold fired_rules. split.
  - intros E. apply H0. by destruct (List.filter _ _).
  - intros E. apply H5. intros E'. apply E. by rewrite E'.
Qed.

End Unchanged.

(** * The invocation step *)

Section Invocation.

Lemma process_alerts_block (tokenData previous : TokenData) :
  exists alerts,
    detectAlerts tokenData (Some previous) = Return alerts
    /\ process_alerts tokenData (Some previous) = Return (alert_block alerts)
    /\ length alerts <= 3.
Proof.
  exists (price_alert tokenData previous ++ volume_alert tokenData previous
          ++ liquidity_alert tokenData previous).
  split; [apply detectAlerts_metrics|]. split.
  - cbn [process_alerts]. rewrite detectAlerts_metrics. cbn [bind].
    by destruct (_ ++ _).
  - rewrite !length_app. unfold price_alert, volume_alert, liquidity_alert, metric_alert.
    destruct (_ && _), (_ && _), (_ && _); cbn; lia.
Qed.


Lemma record_price_frame (priceHistory : gmap string (list PricePoint.t))
    (tokenKey key : string) (pricePoint : PricePoint.t) :
  tokenKey <> key ->
  record_price priceHistory tokenKey pricePoint !! key = priceHistory !! key.
Proof.
  intros Hne. unfold record_price.
  destruct (1000 <? _)%nat; rewrite ?lookup_insert_ne by done;
    destruct (priceHistory !! tokenKey); by rewrite ?lookup_insert_ne by done.
Qed.

(** What a successful fetch leads to. *)
Lemma run_fetched (chainId tokenAddress : string) (w : World) (st : Stores)
    (tokenData : TokenData) :
  w.(fetched) = Some tokenData ->
  let tokenKey := token_key chainId tokenAddress in
  let previousData := st.(dataCache) !! tokenKey in
  let report :=
    generateAnalyticsReport w.(api_key) w.(now_report) tokenData
      (analyzeTokenRisk w.(now_risk) tokenData previousData) w.(weekly)
      (analyzeMarketSentiment tokenData None) in
  exists logged,
    process_alerts tokenData previousData = Return logged
    /\ run chainId tokenAddress w st =
       Return ({| dataCache := <[tokenKey := tokenData]> st.(dataCache);
                  priceHistory :=
                    record_price st.(priceHistory) tokenKey
                      {| PricePoint.timestamp := (w.(now_point) / 1000)%float;
                         PricePoint.price := parseFloat tokenData.(price_usd);
                         PricePoint.volume := tokenData.(volume).(h1) |} |},
               logged ++ [SaveWeeklyData tokenKey report],
               ReportText report).
Proof.
  intros Hf. cbv zeta. unfold run. fold (token_key chainId tokenAddress). rewrite Hf.
  destruct (process_alerts_returns tokenData
              (dataCache st !! token_key chainId tokenAddress)) as [logged Hl].
  exists logged. split; [exact Hl|]. rewrite Hl. reflexivity.
Qed.


(** X9.  An invocation touches the entries of its own token key only:
    for every other key the cached snapshot and the history are unchanged. *)
Theorem run_leaves_other_tokens (chainId tokenAddress : string) (w : World)
    (st : Stores) :
  exists st' effects result,
    run chainId tokenAddress w st = Return (st', effects, result)
    /\ forall key, key <> token_key chainId tokenAddress ->
         st'.(dataCache) !! key = st.(dataCache) !! key
         /\ st'.(priceHistory) !! key = st.(priceHistory) !! key.
Proof.
  destruct (fetched w) as [tokenData|] eqn:Hf.
  - destruct (run_fetched chainId tokenAddress w st tokenData Hf) as (logged & _ & Hrun).
    cbv zeta in Hrun. eexists _, _, _. split; [exact Hrun|].
    intros key Hne. cbn [dataCache priceHistory]. split.
    + by rewrite lookup_insert_ne.
    + by apply record_price_frame.
  - unfold run. rewrite Hf. eexists _, _, _. split; [reflexivity|]. done.
Qed.

(** X10.  Two successive invocations for one token compose through the
    cache: the second logs the alerts of its snapshot against the one the
    first fetched, between the two banner lines and only if there are any,
    and its report carries the risk against that snapshot. *)
Theorem successive_polls (chainId tokenAddress : string) (w1 w2 : World)
    (st : Stores) (first second : TokenData) :
  w1.(fetched) = Some first -> w2.(fetched) = Some second ->
  let tokenKey := token_key chainId tokenAddress in
  exists st1 effects1 result1 st2 alerts report,
    run chainId tokenAddress w1 st = Return (st1, effects1, result1)
    /\ detectAlerts second (Some first) = Return alerts
    /\ run chainId tokenAddress w2 st1 =
       Return (st2, alert_block alerts ++ [SaveWeeklyData tokenKey report],
               ReportText report)
    /\ report.(Report.risk) = analyzeTokenRisk w2.(now_risk) second (Some first)
    /\ st2.(dataCache) !! tokenKey = Some second.
Proof.
  intros Hf1 Hf2. cbv zeta.
  destruct (run_fetched chainId tokenAddress w1 st first Hf1) as (logged1 & _ & Hrun1).
  cbv zeta in Hrun1. eexists _, _, _. 
  match type of Hrun1 with _ = Return (?s, _, _) => set (st1 := s) in * end.
  destruct (run_fetched chainId tokenAddress w2 st1 second Hf2) as (logged2 & Hl2 & Hrun2).
  cbv zeta in Hrun2.
  assert (Hc : dataCache st1 !! token_key chainId tokenAddress = Some first).
  { subst st1. cbn [dataCache]. by rewrite lookup_insert_eq. }
  rewrite Hc in Hl2, Hrun2.
  destruct (process_alerts_block second first) as (alerts & Hd & Hb & _).
  rewrite Hb in Hl2. injection Hl2 as <-.
  eexists _, alerts, _. split; [exact Hrun1|]. split; [exact Hd|].
  split; [exact Hrun2|]. split; [reflexivity|].
  cbn [dataCache]. by rewrite lookup_insert_eq.
Qed.






Lemma append_String (x : ascii) (s t : string) :
  (String x s ++ t)%string = String x (s ++ t)%string.
Proof. reflexivity. Qed.

Lemma append_empty (t : string) : ("" ++ t)%string = t.
Proof. reflexivity. Qed.

(** X14.  Chain identifiers without a hyphen give every token a key of its
    own. *)
Theorem token_key_injective (chainId1 tokenAddress1 chainId2 tokenAddress2 : string) :
  has_char "-" chainId1 = false -> has_char "-" chainId2 = false ->
  token_key chainId1 tokenAddress1 = token_key chainId2 tokenAddress2 ->
  chainId1 = chainId2 /\ tokenAddress1 = tokenAddress2.
Proof.
  unfold token_key. revert chainId2.
  induction chainId1 as [|x c1 IH]; intros [|y c2] H1 H2 E;
    rewrite ?append_String, ?append_empty in E; cbn [has_char] in H1, H2.
  - injection E as E. by subst.
  - injection E as <- _. by rewrite Ascii.eqb_refl in H2.
  - injection E as -> _. by rewrite Ascii.eqb_refl in H1.
  - injection E as -> E.
    apply orb_false_elim in H1 as [_ H1]. apply orb_false_elim in H2 as [_ H2].
    destruct (IH c2 H1 H2 E) as [-> ->]. done.
Qed.

Lemma token_key_injective_witness :
  "solana"%string = "solana"%string /\ "So11"%string = "So11"%string.
Proof. apply (token_key_injective "solana" "So11" "solana" "So11"); reflexivity. Defined.

(** With a hyphen in the chain identifier two tokens can share a key. *)
Example token_key_shared :
  token_key "bsc-test" "0xab" = token_key "bsc" "test-0xab".
Proof. reflexivity. Qed.

End Invocation.

(** * A market with buys only, or sells only *)

Section OneSided.
Local Open Scope float_scope.

(** A number divided by itself is 1, whatever its size. *)
Lemma SFdiv_self (s : bool) (m : positive) (e : Z) :
  SF64div (S754_finite s m e) (S754_finite false m e) =
  S754_finite s 4503599627370496 (-52).
Proof.
  unfold SF64div, SFdiv.
  destruct (SFdiv_core_spec m m e e) as (q & r & -> & Hqr & Hr & Hq).
  replace (Z.pos (digits2_pos m) + e - (Z.pos (digits2_pos m) + e))%Z with 0%Z in * by lia.
  replace (e - e)%Z with 0%Z in * by lia.
  change (Z.min (SpecFloat.fexp prec emax 0) 0) with (-53)%Z in *.
  change (0 - -53)%Z with 53%Z in Hqr.
  assert (q = 2 ^ 53 /\ r = 0)%Z as [-> ->].
  { set (P := (2 ^ 53)%Z) in *. clearbody P.
    assert (Hk : (Z.pos m * (P - q) = r)%Z) by lia.
    assert (P - q = 0)%Z by nia. subst r. split; [lia|]. nia. }
  assert (El : new_location (Z.pos m) 0 = loc_Exact).
  { unfold new_location. by destruct (Z.even (Z.pos m)). }
  rewrite El, xorb_false_r. destruct s; reflexivity.
Qed.

Lemma or_zero_positive (x : float) : (0 <? x) = true -> or_zero x = x.
Proof.
  intros Hx. apply positive_spec_gt0 in Hx.
  unfold or_zero, truthy, is_zero, is_nan. rewrite !FloatAxioms.eqb_spec.
  change (Prim2SF PrimFloat.zero) with (S754_zero false).
  destruct (Prim2SF x) as [[|]|[|]| |[|] m e]; try contradiction; [reflexivity|].
  unfold SFeqb, SFcompare.
  change (Pos.compare_cont Eq m m) with (Pos.compare m m).
  by rewrite Z.compare_refl, Pos.compare_refl.
Qed.

Lemma or_zero_falsy (x : float) : truthy x = false -> or_zero x = 0.
Proof. unfold or_zero. by intros ->. Qed.

Lemma finite_positive (x : float) :
  (0 <? x) = true -> (x <? infinity) = true ->
  exists m e, Prim2SF x = S754_finite false m e.
Proof.
  rewrite !ltb_spec. change (Prim2SF 0) with (S754_zero false).
  change (Prim2SF infinity) with (S754_infinity false).
  destruct (Prim2SF x) as [[|]|[|]| |[|] m e]; try discriminate; eauto.
Qed.

(** Only buys: the net share is 1.  Only sells: it is -1. *)
Lemma net_share_one_sided (x : float) :
  (0 <? x) = true -> (x <? infinity) = true ->
  (if x + 0 >? 0 then (x - 0) / (x + 0) else 0) = 1
  /\ (if 0 + x >? 0 then (0 - x) / (0 + x) else 0) = -1.
Proof.
  intros H0 Hfin. destruct (finite_positive x H0 Hfin) as (m & e & Hx).
  assert (E1 : x + 0 = x).
  { apply Prim2SF_inj. by rewrite add_spec, Hx. }
  assert (E2 : 0 + x = x).
  { apply Prim2SF_inj. by rewrite add_spec, Hx. }
  rewrite E1, E2, H0. split; apply Prim2SF_inj.
  - rewrite div_spec, sub_spec, Hx. cbn [SF64sub SFsub]. apply SFdiv_self.
  - rewrite div_spec, sub_spec, Hx.
    change (Prim2SF 0) with (S754_zero false). cbn [SF64sub SFsub negb].
    apply SFdiv_self.
Qed.

(** X6.  With buys only, the transactions component is exactly 1; with sells
    only, exactly -1: a finite number divided by itself is rounded to 1. *)
Theorem one_sided_market (tokenData : TokenData) (previousSentiment : option Sentiment) :
  let counts := tokenData.(txns).(h24) in
  let r := analyzeMarketSentiment tokenData previousSentiment in
  ((0 <? counts.(buys)) = true -> (counts.(buys) <? infinity) = true ->
   truthy counts.(sells) = false ->
   r.(breakdown).(transactions) = 1)
  /\ ((0 <? counts.(sells)) = true -> (counts.(sells) <? infinity) = true ->
      truthy counts.(buys) = false ->
      r.(breakdown).(transactions) = -1).
Proof.
  cbv zeta. unfold analyzeMarketSentiment; cbv zeta. cbn [breakdown transactions].
  split; intros H0 Hfin Hz.
  - rewrite (or_zero_positive _ H0), (or_zero_falsy _ Hz).
    by apply net_share_one_sided.
  - rewrite (or_zero_positive _ H0), (or_zero_falsy _ Hz).
    by apply net_share_one_sided.
Qed.

Lemma one_sided_market_witness :
  (analyzeMarketSentiment (counted 7 0) None).(breakdown).(transactions) = 1
  /\ (analyzeMarketSentiment (counted 0 7) None).(breakdown).(transactions) = -1.
Proof.
  split.
  - apply (one_sided_market (counted 7 0) None); reflexivity.
  - apply (one_sided_market (counted 0 7) None); reflexivity.
Defined.

End OneSided.

(** * The file of a token's weekly data *)

Section WeeklyFile.
Local Open Scope string_scope.

Example replace_first_only :
  [replace "/" "_" "a/b/c"; replace "/" "_" "abc"; replace "" "x" "";
   replace "b" "[$&$$$`$'$1]" "abc"; replace "bc" "" "abcbc"]
  = ["a_b/c"; "abc"; "x"; "a[b$ac$1]c"; "abc"].
Proof. reflexivity. Qed.

Lemma split_no_slash (s : string) :
  has_char "/" s = false -> split_at_first "/" s = None.
Proof.
  induction s as [|c s IH]; [reflexivity|].
  cbn [has_char split_at_first String.prefix]. intros H.
  apply orb_false_elim in H as [Hc Hs].
  rewrite Ascii.eqb_sym in Hc.
  destruct (ascii_dec "/" c) as [<-|Hne]; [by rewrite Ascii.eqb_refl in Hc|].
  by rewrite (IH Hs).
Qed.

Lemma split_first_slash (a b : string) :
  has_char "/" a = false -> split_at_first "/" (a ++ "/" ++ b) = Some (a, b).
Proof.
  induction a as [|c a IH]; intros H.
  - rewrite append_empty. change ("/" ++ b) with (String "/" b).
    cbn [split_at_first String.prefix String.length skip].
    destruct (ascii_dec "/" "/"); [|done]. by rewrite prefix_empty.
  - rewrite append_String. cbn [has_char] in H.
    apply orb_false_elim in H as [Hc Ha].
    cbn [split_at_first String.prefix].
    destruct (ascii_dec "/" c) as [<-|Hne]; [by rewrite Ascii.eqb_refl in Hc|].
    by rewrite (IH Ha).
Qed.

Lemma string_append_assoc (s t u : string) : (s ++ t) ++ u = s ++ (t ++ u).
Proof. induction s as [|c s IH]; [reflexivity|]. by rewrite !append_String, IH. Qed.

Lemma weekly_file_no_slash (tokenKey : string) :
  has_char "/" tokenKey = false -> weekly_file tokenKey = tokenKey ++ ".json".
Proof. intros H. unfold weekly_file, replace. by rewrite split_no_slash. Qed.

(** X16.  Only the first slash of a token key is replaced in the name of its
    weekly file: a key without a slash keeps its text, and in a key with
    slashes whatever follows the first one is kept, further slashes
    included. *)
Theorem weekly_file_first_slash :
  (forall tokenKey, has_char "/" tokenKey = false ->
     weekly_file tokenKey = tokenKey ++ ".json")
  /\ (forall a b, has_char "/" a = false ->
        weekly_file (a ++ "/" ++ b) = a ++ "_" ++ b ++ ".json").
Proof.
  split.
  - apply weekly_file_no_slash.
  - intros a b H. unfold weekly_file, replace. rewrite split_first_slash by done.
    cbn [substitution]. by rewrite !string_append_assoc.
Qed.

Lemma list_ascii_of_append (s t : string) :
  list_ascii_of_string (s ++ t) = (list_ascii_of_string s ++ list_ascii_of_string t)%list.
Proof.
  induction s as [|c s IH]; [reflexivity|].
  rewrite append_String. cbn [list_ascii_of_string app]. by rewrite IH.
Qed.

Lemma append_inv_tail (s t u : string) : s ++ u = t ++ u -> s = t.
Proof.
  intros E. apply (f_equal list_ascii_of_string) in E.
  rewrite !list_ascii_of_append in E. apply app_inv_tail in E.
  rewrite <- (string_of_list_ascii_of_string s), <- (string_of_list_ascii_of_string t).
  by rewrite E.
Qed.

(** X17.  Token keys without a slash have weekly files of their own. *)
Theorem weekly_file_injective (tokenKey1 tokenKey2 : string) :
  has_char "/" tokenKey1 = false -> has_char "/" tokenKey2 = false ->
  weekly_file tokenKey1 = weekly_file tokenKey2 -> tokenKey1 = tokenKey2.
Proof.
  intros H1 H2. rewrite (weekly_file_no_slash _ H1), (weekly_file_no_slash _ H2).
  apply append_inv_tail.
Qed.

Lemma weekly_file_injective_witness : "solana-So11" = "solana-So11".
Proof. apply (weekly_file_injective "solana-So11" "solana-So11"); reflexivity. Defined.

(** With a slash, two token keys can share a file, and a second slash stays
    in the name. *)
Example weekly_file_shared :
  weekly_file "eth-a/b" = weekly_file "eth-a_b"
  /\ weekly_file "eth-a/b/c" = "eth-a_b/c.json".
Proof. split; reflexivity. Qed.

End WeeklyFile.

(** * Number::toString on known values *)

Section ToStringExamples.
Local Open Scope string_scope.
Local Open Scope float_scope.

Example Number_toString_plain :
  List.map Number_toString
    [0.1; 0.1 + 0.2; 1 / 3; 2 / 3; 100; 1.5; 0.5; 4.35; 1.005; 123456789;
     9007199254740992; 9007199254740993; 100000000000000000000; 123456789012345680000;
     0.000001; 0.000001234; -0; -1.5; 0.1 * 3; 1e15 + 0.3]
  = ["0.1"; "0.30000000000000004"; "0.3333333333333333"; "0.6666666666666666"; "100";
     "1.5"; "0.5"; "4.35"; "1.005"; "123456789";
     "9007199254740992"; "9007199254740992"; "100000000000000000000";
     "123456789012345680000"; "0.000001"; "0.000001234"; "0"; "-1.5";
     "0.30000000000000004"; "1000000000000000.2"]%string.
Proof. vm_compute. reflexivity. Qed.

Example Number_toString_exponent :
  List.map Number_toString
    [1e21; 1e-7; 1.5e-10; -1.5e-10; 5e-324; 1.7976931348623157e308; 1e300;
     1.2e21; 2.2250738585072014e-308; nan; infinity; neg_infinity; 1e23; 1.23e-7]
  = ["1e+21"; "1e-7"; "1.5e-10"; "-1.5e-10"; "5e-324"; "1.7976931348623157e+308";
     "1e+300"; "1.2e+21"; "2.2250738585072014e-308"; "NaN"; "Infinity"; "-Infinity";
     "1e+23"; "1.23e-7"]%string.
Proof. vm_compute. reflexivity. Qed.

End ToStringExamples.

(** * The normalizer and the fetch *)

Section Normalizer.
Local Open Scope string_scope.
Local Open Scope float_scope.

Example ToString_values :
  List.map ToString
    [Undefined; Null; Boolean true; Number 1.5; Text "abc"; Array [];
     Array [Number 1; Null; Text "x"; Array [Number 2; Number 3]; Undefined];
     Object []; Object [("toString", Number 1)]; Array [Object [("toString", Null)]]]
  = [Return "undefined"; Return "null"; Return "true"; Return "1.5"; Return "abc";
     Return ""; Return "1,,x,2,3,"; Return "[object Object]";
     Throw (TypeError "Cannot convert object to primitive value");
     Throw (TypeError "Cannot convert object to primitive value")].
Proof. vm_compute. reflexivity. Qed.

Example transformDexResponse_sample :
  exists snapshot,
    transformDexResponse (sample_pair "solana") = Return snapshot
    /\ snapshot.(Raw.chain_id) = Text "solana"
    /\ snapshot.(Raw.url) = Text ""
    /\ snapshot.(Raw.base_token).(Raw.symbol) = Text "SOL"
    /\ snapshot.(Raw.price_usd) = Text "1.15"
    /\ snapshot.(Raw.price_native) = Text "0"
    /\ snapshot.(Raw.txns).(h1) = no_counts
    /\ numbers snapshot = [0; 0; 0; 1234.5; 0; 0; -25; 0; 50000; 0; 0; 0; 0]
    /\ snapshot.(Raw.pair_created_at) = Number 1761782400000
    /\ snapshot.(Raw.info) = Undefined.
Proof. eexists. vm_compute. repeat split; reflexivity. Qed.

Example transformDexResponse_throws :
  transformDexResponse Undefined =
    Throw (TypeError "Cannot read properties of undefined (reading 'chainId')")
  /\ transformDexResponse (Object [("fdv", Object [("toString", Text "x")])]) =
    Throw (TypeError "Cannot convert object to primitive value")
  /\ (exists snapshot, transformDexResponse (Number 5) = Return snapshot).
Proof. vm_compute. repeat split; try reflexivity. by eexists. Qed.

(** [x || 0] is a number, and no negative zero. *)
Lemma or_zero_clean (x : float) :
  is_nan (or_zero x) = false /\ (is_zero (or_zero x) = true -> or_zero x = 0).
Proof.
  unfold or_zero, truthy. destruct (is_nan x) eqn:Hn, (is_zero x) eqn:Hz;
    cbn [orb negb]; split; try reflexivity; try done.
  intros E. congruence.
Qed.

Lemma parseFloat_or_zero_clean (v : Value) (x : float) :
  parseFloat_or_zero v = Return x ->
  is_nan x = false /\ (is_zero x = true -> x = 0).
Proof.
  unfold parseFloat_or_zero, parseFloat_value.
  destruct (ToString v); cbn [bind]; [discriminate|].
  intros [= <-]. apply or_zero_clean.
Qed.

Lemma transformDexResponse_numbers (pair : Value) (snapshot : Raw.t) :
  transformDexResponse pair = Return snapshot ->
  Forall (fun x => is_nan x = false /\ (is_zero x = true -> x = 0)) (numbers snapshot).
Proof.
  unfold transformDexResponse.
  repeat match goal with
  | |- context [bind ?c _] => destruct c eqn:?; cbn [bind]; [discriminate|]
  end.
  intros [= <-]. unfold numbers. cbn.
  repeat constructor; eapply parseFloat_or_zero_clean; eassumption.
Qed.

(** X18.  Whatever the pair holds, every number [transformDexResponse] reads
    through [parseFloat(...) || 0] is a number, and no negative zero; and the
    two prices and the four transaction windows, which have a default, are
    never falsy. *)
Theorem normalized_snapshot (pair : Value) (snapshot : Raw.t) :
  transformDexResponse pair = Return snapshot ->
  Forall (fun x => is_nan x = false /\ (is_zero x = true -> x = 0)) (numbers snapshot)
  /\ Forall (fun v => truthy_value v = true)
       [snapshot.(Raw.price_native); snapshot.(Raw.price_usd);
        snapshot.(Raw.txns).(m5); snapshot.(Raw.txns).(h1);
        snapshot.(Raw.txns).(h6); snapshot.(Raw.txns).(h24)].
Proof.
  intros H. split; [by apply (transformDexResponse_numbers pair)|].
  revert H. unfold transformDexResponse.
  repeat match goal with
  | |- context [bind ?c _] => destruct c eqn:?; cbn [bind]; [discriminate|]
  end.
  intros [= <-]. cbn [Raw.price_native Raw.price_usd Raw.txns m5 h1 h6 h24].
  repeat constructor; unfold or_else;
    match goal with |- context [truthy_value ?v] => by destruct (truthy_value v) eqn:? end.
Qed.

Lemma normalized_snapshot_witness :
  exists snapshot,
    transformDexResponse (sample_pair "solana") = Return snapshot
    /\ Forall (fun x => is_nan x = false /\ (is_zero x = true -> x = 0))
              (numbers snapshot)
    /\ snapshot.(Raw.price_native) = Text "0".
Proof.
  eexists. split; [reflexivity|]. split; [|reflexivity].
  apply (normalized_snapshot (sample_pair "solana")). reflexivity.
Defined.

Lemma Array_find_spec (chainId : string) (items : list Value) (found : Value) :
  Array_find (is_chain chainId) items = Return found <->
  (found = Undefined /\ Forall (fun p => is_chain chainId p = Return false) items)
  \/ (exists before after,
        items = (before ++ found :: after)%list
        /\ Forall (fun p => is_chain chainId p = Return false) before
        /\ is_chain chainId found = Return true).
Proof.
  induction items as [|item rest IH]; cbn [Array_find].
  - split.
    + intros [= <-]. left. by split.
    + intros [[-> _]|(before & after & E & _)]; [done|]. by destruct before.
  - destruct (is_chain chainId item) as [e|[|]] eqn:Hitem; cbn [bind].
    + split; [discriminate|].
      intros [[_ H]|(before & after & E & H & Hf)].
      * inversion H; congruence.
      * destruct before as [|b before]; injection E as -> E; [congruence|].
        inversion H; congruence.
    + split.
      * intros [= <-]. right. exists [], rest. by repeat split.
      * intros [[_ H]|(before & after & E & H & Hf)].
        -- inversion H; congruence.
        -- destruct before as [|b before]; injection E as -> E; [done|].
           inversion H; congruence.
    + rewrite IH. split.
      * intros [[-> H]|(before & after & -> & H & Hf)].
        -- left. split; [done|]. by constructor.
        -- right. exists (item :: before), after. repeat split; [|done]. by constructor.
      * intros [[-> H]|(before & after & E & H & Hf)].
        -- left. split; [done|]. by inversion H.
        -- destruct before as [|b before]; injection E as -> E; [congruence|].
           right. exists before, after. repeat split; [done| |done]. by inversion H.
Qed.

Lemma is_chain_true (chainId : string) (p : Value) :
  is_chain chainId p = Return true ->
  truthy_value p = true /\ get_property p "chainId" = Return (Text chainId).
Proof.
  unfold is_chain. destruct p as [| | | | | |properties]; cbn [get_property bind];
    try discriminate.
  destruct (own properties "chainId") as [| | | |s| |]; try discriminate.
  intros [= E]. apply String.eqb_eq in E as ->. done.
Qed.

Lemma transformDexResponse_chain (chainId : string) (pair : Value) (snapshot : Raw.t) :
  get_property pair "chainId" = Return (Text chainId) ->
  transformDexResponse pair = Return snapshot ->
  snapshot.(Raw.chain_id) = Text chainId.
Proof.
  intros Hc. unfold transformDexResponse. rewrite Hc. cbn [bind].
  repeat match goal with
  | |- context [bind ?c _] => destruct c eqn:?; cbn [bind]; [discriminate|]
  end.
  intros [= <-]. cbn [Raw.chain_id]. unfold or_else. cbn [truthy_value].
  by destruct (String.eqb_spec chainId "") as [->|].
Qed.

(** X19.  [getTokenData] returns a snapshot exactly when the response holds
    an array [pairs] in which a pair of the requested chain comes after
    elements that all are of other chains, none of them [null], and the
    normalizer accepts that pair; the snapshot is its normalization, the
    [chain_id] of the snapshot is the requested chain, and nothing was
    caught. *)
Theorem getTokenData_first_match (request : string -> option Value)
    (chainId tokenAddress : string) (snapshot : Raw.t) :
  (fst (getTokenData request chainId tokenAddress) = Some snapshot <->
   exists data before pair after,
     request (endpoint tokenAddress) = Some data
     /\ get_property data "pairs" = Return (Array (before ++ pair :: after))
     /\ Forall (fun p => is_chain chainId p = Return false) before
     /\ is_chain chainId pair = Return true
     /\ transformDexResponse pair = Return snapshot)
  /\ (fst (getTokenData request chainId tokenAddress) = Some snapshot ->
      snapshot.(Raw.chain_id) = Text chainId
      /\ snd (getTokenData request chainId tokenAddress) = None).
Proof.
  assert (Hfwd : fst (getTokenData request chainId tokenAddress) = Some snapshot ->
    (exists data before pair after,
       request (endpoint tokenAddress) = Some data
       /\ get_property data "pairs" = Return (Array (before ++ pair :: after))
       /\ Forall (fun p => is_chain chainId p = Return false) before
       /\ is_chain chainId pair = Return true
       /\ transformDexResponse pair = Return snapshot)
    /\ snd (getTokenData request chainId tokenAddress) = None).
  { unfold getTokenData; cbv zeta.
    destruct (request (endpoint tokenAddress)) as [data|]; [|discriminate].
    destruct (truthy_value data); [|discriminate].
    destruct (get_property data "pairs") as [e|pairs] eqn:Hpairs; [discriminate|].
    cbn [bind]. destruct (truthy_value pairs); [|discriminate].
    destruct pairs as [| | | | |items|]; try discriminate.
    destruct (Array_find (is_chain chainId) items) as [e|pair] eqn:Hfind;
      [discriminate|].
    cbn [bind]. destruct (truthy_value pair) eqn:Ht; [|discriminate].
    destruct (transformDexResponse pair) as [e|r] eqn:Hr; [discriminate|].
    cbn [bind fst snd]. intros [= ->]. split; [|reflexivity].
    apply Array_find_spec in Hfind as [[-> _]|(before & after & -> & Hb & Hp)];
      [discriminate Ht|].
    by exists data, before, pair, after. }
  split; [split|].
  - intros H. by apply Hfwd.
  - intros (data & before & pair & after & Hreq & Hpairs & Hb & Hp & Hr).
    unfold getTokenData; cbv zeta. rewrite Hreq.
    assert (Hd : truthy_value data = true).
    { destruct data; try discriminate Hpairs; reflexivity || injection Hpairs; discriminate. }
    rewrite Hd, Hpairs. cbn [bind truthy_value].
    assert (Hfind : Array_find (is_chain chainId) (before ++ pair :: after)
                    = Return pair).
    { apply Array_find_spec. right. by exists before, after. }
    rewrite Hfind. cbn [bind].
    destruct (is_chain_true _ _ Hp) as [-> _]. by rewrite Hr.
  - intros H. destruct (Hfwd H) as [(data & before & pair & after & _ & _ & _ & Hp & Hr) Hs].
    split; [|exact Hs].
    destruct (is_chain_true _ _ Hp) as [_ Hc].
    by apply (transformDexResponse_chain chainId pair).
Qed.

Example getTokenData_sample :
  let request := fun url =>
    if String.eqb url "https://api.dexscreener.com/latest/dex/tokens/So11"
    then Some (Object [("schemaVersion", Text "1.0.0");
                       ("pairs", Array [sample_pair "ethereum"; sample_pair "solana";
                                        Object [("chainId", Text "solana");
                                                ("dexId", Text "orca")]])])
    else None in
  (exists snapshot,
     getTokenData request "solana" "So11" = (Some snapshot, None)
     /\ snapshot.(Raw.dex_id) = Text "raydium")
  /\ getTokenData request "base" "So11" = (None, None)
  /\ getTokenData request "solana" "other" = (None, Some Rejected)
  /\ getTokenData (fun _ => Some (Object [("pairs", Array [Null])])) "solana" "So11"
     = (None, Some (Thrown (TypeError
          "Cannot read properties of null (reading 'chainId')")))
  /\ getTokenData (fun _ => Some (Text "<html>")) "solana" "So11" = (None, None)
  /\ getTokenData (fun _ => Some (Object [("pairs", Null)])) "solana" "So11" = (None, None)
  /\ getTokenData (fun _ => Some (Object [("pairs", Text "none")])) "solana" "So11"
     = (None, Some (Thrown (TypeError "data.pairs.find is not a function"))).
Proof. vm_compute. split; [eexists; split; reflexivity|]. repeat split; reflexivity. Qed.

End Normalizer.

Section Fetched.
Local Open Scope string_scope.
Local Open Scope float_scope.

Lemma typed_numbers (snapshot : Raw.t) (tokenData : TokenData) :
  typed snapshot = Some tokenData ->
  parsed_numbers tokenData = numbers snapshot
  /\ as_text snapshot.(Raw.chain_id) = Some tokenData.(chain_id).
Proof.
  unfold typed. intros H.
  repeat match type of H with
  | (?c ≫= _) = Some _ => destruct c eqn:?; cbn [mbind option_bind] in H; [|discriminate H]
  end.
  injection H as <-. split; [reflexivity|]. cbn [chain_id]. done.
Qed.

Lemma fetch_inv (request : string -> option Value) (chainId tokenAddress : string)
    (tokenData : TokenData) :
  fetch request chainId tokenAddress = Some tokenData ->
  exists pair snapshot,
    get_property pair "chainId" = Return (Text chainId)
    /\ transformDexResponse pair = Return snapshot
    /\ typed snapshot = Some tokenData.
Proof.
  unfold fetch, getTokenData; cbv zeta.
  destruct (request (endpoint tokenAddress)) as [data|]; [|discriminate].
  destruct (truthy_value data); [|discriminate].
  destruct (get_property data "pairs") as [e|pairs]; [discriminate|].
  cbn [bind]. destruct (truthy_value pairs); [|discriminate].
  destruct pairs as [| | | | |items|]; try discriminate.
  destruct (Array_find (is_chain chainId) items) as [e|pair] eqn:Hfind; [discriminate|].
  cbn [bind]. destruct (truthy_value pair) eqn:Ht; [|discriminate].
  destruct (transformDexResponse pair) as [e|snapshot] eqn:Hr; [discriminate|].
  cbn [bind fst mbind option_bind]. intros Htyped.
  apply Array_find_spec in Hfind as [[-> _]|(before & after & -> & Hb & Hp)];
    [discriminate Ht|].
  destruct (is_chain_true _ _ Hp) as [_ Hc]. by exists pair, snapshot.
Qed.

Lemma fetch_clean (request : string -> option Value) (chainId tokenAddress : string)
    (tokenData : TokenData) :
  fetch request chainId tokenAddress = Some tokenData ->
  tokenData.(chain_id) = chainId
  /\ Forall (fun x => is_nan x = false /\ (is_zero x = true -> x = 0))
            (parsed_numbers tokenData).
Proof.
  intros H. destruct (fetch_inv _ _ _ _ H) as (pair & snapshot & Hc & Hr & Ht).
  destruct (typed_numbers _ _ Ht) as [-> Hchain]. split.
  - rewrite (transformDexResponse_chain chainId pair snapshot Hc Hr) in Hchain.
    by injection Hchain.
  - by apply (transformDexResponse_numbers pair).
Qed.

(** X20.  A fetched snapshot is of the requested chain, and none of the
    numbers it holds, or the report shows, for volume, price change,
    liquidity, valuation and market capitalization is NaN or a negative
    zero. *)
Theorem fetched_snapshot_numbers (request : string -> option Value)
    (chainId tokenAddress : string) (tokenData : TokenData)
    (CLAUDE_API_KEY : option string) (now : float) (riskAnalysis : RiskAnalysis)
    (weeklyData : option Report.t) (sentiment : Sentiment) :
  fetch request chainId tokenAddress = Some tokenData ->
  let report := generateAnalyticsReport CLAUDE_API_KEY now tokenData riskAnalysis
                  weeklyData sentiment in
  let metrics := report.(Report.metrics) in
  tokenData.(chain_id) = chainId
  /\ Forall (fun x => is_nan x = false /\ (is_zero x = true -> x = 0))
            (parsed_numbers tokenData)
  /\ Forall (fun x => is_nan x = false /\ (is_zero x = true -> x = 0))
       [metrics.(Report.price).(Report.change).(Report.h1);
        metrics.(Report.price).(Report.change).(Report.h6);
        metrics.(Report.price).(Report.change).(Report.h24);
        metrics.(Report.volume).(Report.h1);
        metrics.(Report.volume).(Report.h6);
        metrics.(Report.volume).(Report.h24);
        metrics.(Report.liquidity); metrics.(Report.market_cap);
        metrics.(Report.fdv)].
Proof.
  intros H. cbv zeta. destruct (fetch_clean _ _ _ _ H) as [Hc Hn].
  split; [exact Hc|]. split; [exact Hn|].
  unfold parsed_numbers in Hn. cbn.
  repeat match goal with
  | H : Forall _ (_ :: _) |- _ => apply Forall_cons in H as [? H]
  end.
  repeat constructor; tauto.
Qed.

Lemma float_ltb_negb_leb (x y : float) :
  is_nan x = false -> is_nan y = false -> (x <? y) = negb (y <=? x).
Proof.
  intros Hx Hy. apply is_nan_false in Hx, Hy.
  rewrite ltb_spec, leb_spec. unfold SFltb, SFleb, SFcompare.
  destruct (Prim2SF x) as [[|]|[|]| |[|] ? ?], (Prim2SF y) as [[|]|[|]| |[|] ? ?];
    try congruence; try reflexivity.
  all: order_cases; cbn [negb]; try reflexivity; try lia.
Qed.

(** X21.  For a fetched snapshot the two rules on liquidity decide exactly:
    the token is flagged "Low liquidity" unless its liquidity is at least
    100000, and "Market cap < liquidity" exactly when its market
    capitalization is positive and not at least the liquidity. *)
Theorem fetched_liquidity_rules (request : string -> option Value)
    (chainId tokenAddress : string) (tokenData : TokenData)
    (now : float) (previousData : option TokenData) :
  fetch request chainId tokenAddress = Some tokenData ->
  let r := analyzeTokenRisk now tokenData previousData in
  let usd := tokenData.(liquidity).(usd) in
  let cap := tokenData.(market_cap) in
  (In "Low liquidity" r.(vulnerabilities) <-> (100000 <=? usd) = false)
  /\ (In "Market cap < liquidity" r.(vulnerabilities) <->
      (0 <? cap) = true /\ (usd <=? cap) = false).
Proof.
  intros H. cbv zeta. destruct (fetch_clean _ _ _ _ H) as [_ Hn].
  unfold parsed_numbers in Hn.
  assert (Husd : is_nan tokenData.(liquidity).(usd) = false).
  { do 8 apply Forall_cons in Hn as [_ Hn]. apply Forall_cons in Hn as [[? _] _]. done. }
  assert (Hcap : is_nan tokenData.(market_cap) = false).
  { do 12 apply Forall_cons in Hn as [_ Hn]. apply Forall_cons in Hn as [[? _] _]. done. }
  rewrite !In_fired_vulnerability. split; split.
  - intros (rule & Hin & Hf & Hv).
    destruct previousData; rule_rows Hin; cbn in Hf, Hv; try discriminate Hv.
    all: rewrite (float_ltb_negb_leb _ 100000 Husd eq_refl) in Hf.
    all: by apply negb_true_iff in Hf.
  - intros Hlow.
    eexists {| fired := _; weight := 30; vulnerability := _; recommendation := _ |}.
    split; [|split; [|reflexivity]].
    + unfold risk_rules; cbv zeta. left. reflexivity.
    + cbn [fired]. rewrite (float_ltb_negb_leb _ 100000 Husd eq_refl). by rewrite Hlow.
  - intros (rule & Hin & Hf & Hv).
    destruct previousData; rule_rows Hin; cbn in Hf, Hv; try discriminate Hv.
    all: apply andb_prop in Hf as [H0 H1]; split; [exact H0|].
    all: rewrite (float_ltb_negb_leb _ _ Hcap Husd) in H1.
    all: by apply negb_true_iff in H1.
  - intros [H0 H1].
    eexists {| fired := _; weight := 20; vulnerability := _; recommendation := _ |}.
    split; [|split; [|reflexivity]].
    + unfold risk_rules; cbv zeta. do 4 right. left. reflexivity.
    + cbn [fired]. rewrite H0, (float_ltb_negb_leb _ _ Hcap Husd), H1. reflexivity.
Qed.

End Fetched.

(** * A drop is at most 100 percent *)

Section Drop.
Local Open Scope Z_scope.

Lemma scaled_one : scaled (Zpos 4503599627370496) (-52) = 2 ^ 3000.
Proof.
  unfold scaled. change (Zpos 4503599627370496) with (2 ^ 52).
  change (-52 + 3000) with 2948. rewrite <- (pow2_split 52 2948) by lia. reflexivity.
Qed.

(** A hundred times a number that is at most one is at most a hundred. *)
Lemma SFmul_hundred_below (m : positive) (e : Z) :
  canonical m e ->
  SFleb (S754_finite false m e) one_spec = true ->
  SFleb (SF64mul (S754_finite false m e) (S754_finite false 7036874417766400 (-46)))
        (S754_finite false 7036874417766400 (-46)) = true.
Proof.
  intros Hc Hle.
  assert (Hs : scaled (Zpos m) e <= 2 ^ 3000).
  { unfold SFleb, one_spec in Hle.
    rewrite (compare_canonical m 4503599627370496 e (-52) Hc eq_refl) in Hle.
    rewrite scaled_one in Hle.
    destruct (Z.compare_spec (scaled (Zpos m) e) (2 ^ 3000)); try discriminate Hle; lia. }
  pose proof (canonical_exponent _ _ Hc) as He.
  unfold SF64mul, SFmul. cbn [xorb].
  apply round_below; [lia | lia | | reflexivity | lia | | discriminate].
  - assert (Hd : 52 < Zdigits2 (Zpos (m * 7036874417766400))).
    { apply Zdigits2_ge; [lia|]. change (2 ^ 52) with 4503599627370496. lia. }
    rewrite fexp_eq. lia.
  - unfold scaled in *. 
    set (A := 2 ^ (e + 3000)) in *. set (C := 2 ^ 3000) in *.
    assert (HA : 0 < A) by (apply pow2_pos; lia).
    assert (E1 : 2 ^ (e + -46 + 3000) * 2 ^ 46 = A).
    { subst A. rewrite <- pow2_split by lia. f_equal. lia. }
    assert (E2 : 2 ^ (-46 + 3000) * 2 ^ 46 = C).
    { subst C. rewrite <- pow2_split by lia. reflexivity. }
    assert (H46 : 0 < 2 ^ 46) by (apply pow2_pos; lia).
    apply (Z.mul_le_mono_pos_r _ _ (2 ^ 46) H46).
    rewrite <- !Z.mul_assoc, E1, E2. rewrite Pos2Z.inj_mul. nia.
Qed.

End Drop.

Section DropAlerts.
Local Open Scope string_scope.
Local Open Scope float_scope.

Lemma float_leb_not_gt (x y : float) : (x <=? y) = true -> (x >? y) = false.
Proof.
  rewrite leb_spec, ltb_spec. unfold SFleb, SFltb, SFcompare.
  destruct (Prim2SF x) as [[|]|[|]| |[|] ? ?], (Prim2SF y) as [[|]|[|]| |[|] ? ?];
    try discriminate; try reflexivity; intros; order_cases.
Qed.

(** From a value that is not negative down to a smaller one, the change is
    at most 100 percent. *)
Lemma percent_drop (c p : float) :
  (0 <=? c) = true -> (c <=? p) = true -> (0 <? p) = true -> (p <? infinity) = true ->
  (percent_change c p <=? 100) = true.
Proof.
  rewrite !leb_spec, !ltb_spec. unfold percent_change, Math_abs.
  rewrite mul_spec, div_spec, abs_spec, sub_spec.
  change (Prim2SF 0) with (S754_zero false).
  change (Prim2SF infinity) with (S754_infinity false).
  change (Prim2SF 100) with (S754_finite false 7036874417766400 (-46)).
  pose proof (Prim2SF_valid c) as Hvc. pose proof (Prim2SF_valid p) as Hvp.
  assert (Hvd : valid_binary (SF64sub (Prim2SF c) (Prim2SF p)) = true).
  { rewrite <- sub_spec. apply Prim2SF_valid. }
  assert (Hvq : valid_binary (SF64div (SFabs (SF64sub (Prim2SF c) (Prim2SF p)))
                                      (Prim2SF p)) = true).
  { rewrite <- sub_spec, <- abs_spec, <- div_spec. apply Prim2SF_valid. }
  destruct (Prim2SF p) as [[|]|[|]| |[|] mp ep]; try discriminate.
  intros H0 Hcp _ _. apply valid_canonical in Hvp as [Hcanp Hep].
  destruct (Prim2SF c) as [sc|[|]| |[|] mc ec]; try discriminate.
  - (* from zero *)
    cbn [SF64sub SFsub SFabs negb]. rewrite SFdiv_self.
    by apply SFmul_hundred_below.
  - apply valid_canonical in Hvc as [Hcanc Hec].
    pose proof (SFsub_below mc mp ec ep Hcanc Hec Hcanp Hep) as Hd. cbv zeta in Hd.
    assert (Hdp : SFleb (SFabs (SF64sub (S754_finite false mc ec)
                                        (S754_finite false mp ep)))
                        (S754_finite false mp ep) = true).
    { destruct Hd as [Hd|Hd]; [|exact Hd]. eapply SFleb_trans; eauto. }
    clear Hd.
    set (d := SF64sub _ _) in *.
    assert (Hq : SFabs (SF64div (SFabs d) (S754_finite false mp ep))
                 = SF64div (SFabs d) (S754_finite false mp ep)).
    { rewrite SFabs_div by exact I. by destruct d. }
    destruct d as [sd|[|]| |sd md ed]; cbn [SFabs] in *;
      try (cbv [SFleb SFcompare] in Hdp; discriminate Hdp).
    + reflexivity.
    + apply valid_canonical in Hvd as [Hcand Hed].
      assert (Hle : (scaled (Zpos md) ed <= scaled (Zpos mp) ep)%Z).
      { unfold SFleb in Hdp. rewrite (compare_canonical md mp ed ep Hcand Hcanp) in Hdp.
        destruct (Z.compare_spec (scaled (Zpos md) ed) (scaled (Zpos mp) ep));
          try discriminate Hdp; lia. }
      pose proof (SFdiv_below_one false md mp ed ep Hcand Hed Hcanp Hep Hle) as H1.
      rewrite Hq in H1.
      destruct (SF64div _ _) as [sq|[|]| |sq mq eq]; cbn [SFabs] in *;
        try discriminate Hq;
        try (cbv [SFleb SFcompare one_spec] in H1; discriminate H1).
      * by destruct sq.
      * injection Hq as <-.
        apply valid_canonical in Hvq as [Hcanq _].
        by apply SFmul_hundred_below.
Qed.

Lemma tagged_metrics (current previous : TokenData) :
  let alerts := (price_alert current previous ++ volume_alert current previous
                 ++ liquidity_alert current previous)%list in
  tagged "PRICE ALERT: " alerts = price_alert current previous
  /\ tagged "VOLUME ALERT: " alerts = volume_alert current previous
  /\ tagged "LIQUIDITY ALERT: " alerts = liquidity_alert current previous.
Proof.
  cbv zeta. rewrite !tagged_app.
  unfold price_alert, volume_alert, liquidity_alert, metric_alert.
  repeat split.
  all: destruct (_ && _), (_ && _), (_ && _); simpl; rewrite ?prefix_empty; reflexivity.
Qed.

Lemma metric_alert_drop (threshold current previous : float)
    (render : string -> string -> string) :
  (0 <=? current) = true -> (current <=? previous) = true ->
  (previous <? infinity) = true ->
  metric_alert threshold current previous render = []
  \/ exists pct,
       (pct <=? 100) = true
       /\ metric_alert threshold current previous render
          = [render "decreased" (toFixed pct 2)].
Proof.
  intros H0 Hle Hfin. unfold metric_alert, direction.
  destruct (previous >? 0) eqn:Hp; [|by left].
  destruct (percent_change current previous >? threshold); [|by left].
  right. exists (percent_change current previous).
  split; [by apply percent_drop|].
  cbn [andb]. by rewrite (float_leb_not_gt _ _ Hle).
Qed.

(** X5.  A value that is not negative and has not grown is never reported to
    have moved by more than 100 percent, and an alert about it says
    "decreased": this holds for the price, the hourly volume and the
    liquidity, with the rounding of the three operations. *)
Theorem drop_alert_at_most_100 (current previous : TokenData) :
  let price := parseFloat current.(price_usd) in
  let price' := parseFloat previous.(price_usd) in
  let vol := current.(volume).(h1) in
  let vol' := previous.(volume).(h1) in
  let liq := current.(liquidity).(usd) in
  let liq' := previous.(liquidity).(usd) in
  exists alerts,
    detectAlerts current (Some previous) = Return alerts
    /\ ((0 <=? price) = true -> (price <=? price') = true -> (price' <? infinity) = true ->
        tagged "PRICE ALERT: " alerts = []
        \/ exists pct,
             (pct <=? 100) = true
             /\ tagged "PRICE ALERT: " alerts =
                ["PRICE ALERT: " ++ current.(base_token).(symbol) ++ " decreased by "
                 ++ toFixed pct 2 ++ "%"])
    /\ ((0 <=? vol) = true -> (vol <=? vol') = true -> (vol' <? infinity) = true ->
        tagged "VOLUME ALERT: " alerts = []
        \/ exists pct,
             (pct <=? 100) = true
             /\ tagged "VOLUME ALERT: " alerts =
                ["VOLUME ALERT: Volume decreased by " ++ toFixed pct 2 ++ "%"])
    /\ ((0 <=? liq) = true -> (liq <=? liq') = true -> (liq' <? infinity) = true ->
        tagged "LIQUIDITY ALERT: " alerts = []
        \/ exists pct,
             (pct <=? 100) = true
             /\ tagged "LIQUIDITY ALERT: " alerts =
                ["LIQUIDITY ALERT: Liquidity decreased by " ++ toFixed pct 2 ++ "%"]).
Proof.
  cbv zeta. eexists. split; [apply detectAlerts_metrics|].
  destruct (tagged_metrics current previous) as (-> & -> & ->).
  unfold price_alert, volume_alert, liquidity_alert.
  repeat split; intros H0 Hle Hfin.
  - destruct (metric_alert_drop 10 _ _
      (fun dir pct => "PRICE ALERT: " ++ current.(base_token).(symbol) ++ " " ++ dir
                      ++ " by " ++ pct ++ "%") H0 Hle Hfin) as [->|(pct & ? & ->)];
      [by left|right; by exists pct].
  - destruct (metric_alert_drop 50 _ _
      (fun dir pct => "VOLUME ALERT: Volume " ++ dir ++ " by " ++ pct ++ "%")
      H0 Hle Hfin) as [->|(pct & ? & ->)]; [by left|right; by exists pct].
  - destruct (metric_alert_drop 20 _ _
      (fun dir pct => "LIQUIDITY ALERT: Liquidity " ++ dir ++ " by " ++ pct ++ "%")
      H0 Hle Hfin) as [->|(pct & ? & ->)]; [by left|right; by exists pct].
Qed.

End DropAlerts.

Section Witnesses.
Local Open Scope string_scope.
Local Open Scope float_scope.

Lemma drop_alert_at_most_100_witness :
  exists alerts,
    detectAlerts (trading 40 500) (Some (trading 100 1000)) = Return alerts
    /\ (tagged "VOLUME ALERT: " alerts = []
        \/ exists pct,
             (pct <=? 100) = true
             /\ tagged "VOLUME ALERT: " alerts =
                ["VOLUME ALERT: Volume decreased by " ++ toFixed pct 2 ++ "%"]).
Proof.
  destruct (drop_alert_at_most_100 (trading 40 500) (trading 100 1000))
    as (alerts & H & _ & Hv & _).
  exists alerts. split; [exact H|]. apply Hv; reflexivity.
Defined.

Lemma successive_polls_witness :
  exists st1 effects1 result1 st2 alerts report,
    run "solana" "So11" (fetching (trading 100 1000)) initial_stores
      = Return (st1, effects1, result1)
    /\ detectAlerts (trading 40 500) (Some (trading 100 1000)) = Return alerts
    /\ run "solana" "So11" (fetching (trading 40 500)) st1 =
       Return (st2,
               List.app (alert_block alerts)
                        [SaveWeeklyData (token_key "solana" "So11") report],
               ReportText report)
    /\ report.(Report.risk) = analyzeTokenRisk 0 (trading 40 500) (Some (trading 100 1000))
    /\ st2.(dataCache) !! token_key "solana" "So11" = Some (trading 40 500).
Proof.
  apply (successive_polls "solana" "So11" (fetching (trading 100 1000))
           (fetching (trading 40 500)) initial_stores); reflexivity.
Defined.


Lemma fetched_snapshot_numbers_witness :
  exists tokenData,
    fetch sample_request "solana" "So11" = Some tokenData
    /\ tokenData.(chain_id) = "solana"
    /\ Forall (fun x => is_nan x = false /\ (is_zero x = true -> x = 0))
              (parsed_numbers tokenData).
Proof.
  destruct (fetch sample_request "solana" "So11") as [tokenData|] eqn:E;
    [|vm_compute in E; discriminate E].
  exists tokenData. split; [reflexivity|].
  destruct (fetched_snapshot_numbers sample_request "solana" "So11" tokenData None 0
              (analyzeTokenRisk 0 tokenData None) None
              (analyzeMarketSentiment tokenData None) E) as (Hc & Hn & _).
  by split.
Defined.

Lemma fetched_liquidity_rules_witness :
  exists tokenData,
    fetch sample_request "solana" "So11" = Some tokenData
    /\ (In "Low liquidity" (analyzeTokenRisk 0 tokenData None).(vulnerabilities)
        <-> (100000 <=? tokenData.(liquidity).(usd)) = false).
Proof.
  destruct (fetch sample_request "solana" "So11") as [tokenData|] eqn:E;
    [|vm_compute in E; discriminate E].
  exists tokenData. split; [reflexivity|].
  apply (fetched_liquidity_rules sample_request "solana" "So11" tokenData 0 None E).
Defined.

End Witnesses.

Section DeadInputs.
Local Open Scope string_scope.

(** X15.  The stored weekly data and the text of the API key change nothing:
    an invocation reads the file but never uses it, and of the key only its
    presence. *)
Theorem run_ignores_stored_data (chainId tokenAddress : string) (st : Stores)
    (fetched : option TokenData) (now_point now_risk now_report : float) :
  (forall (weekly1 weekly2 : option Report.t) (api_key : option string),
     run chainId tokenAddress
         {| fetched := fetched; now_point := now_point; now_risk := now_risk;
            now_report := now_report; weekly := weekly1; api_key := api_key |} st
     = run chainId tokenAddress
         {| fetched := fetched; now_point := now_point; now_risk := now_risk;
            now_report := now_report; weekly := weekly2; api_key := api_key |} st)
  /\ (forall (weekly : option Report.t) (key1 key2 : string),
        key1 <> "" -> key2 <> "" ->
        run chainId tokenAddress
            {| fetched := fetched; now_point := now_point; now_risk := now_risk;
               now_report := now_report; weekly := weekly; api_key := Some key1 |} st
        = run chainId tokenAddress
            {| fetched := fetched; now_point := now_point; now_risk := now_risk;
               now_report := now_report; weekly := weekly; api_key := Some key2 |} st).
Proof.
  split.
  - intros weekly1 weekly2 key. reflexivity.
  - intros weekly [|c1 k1] [|c2 k2] H1 H2; done.
Qed.

End DeadInputs.

Section SentimentShift.
Local Open Scope string_scope.
Local Open Scope float_scope.

Lemma SFsub_same (x : spec_float) :
  match SF64sub x x with
  | S754_zero _ | S754_nan => True
  | _ => False
  end.
Proof.
  destruct x as [[|]|[|]| |s m e]; try exact I.
  unfold SF64sub, SFsub. rewrite Z.sub_diag. exact I.
Qed.

(** A number is never far from itself. *)
Lemma distance_self (x threshold : float) :
  (0 <=? threshold) = true -> (Math_abs (x - x) >? threshold) = false.
Proof.
  rewrite leb_spec, ltb_spec. unfold Math_abs. rewrite abs_spec, sub_spec.
  change (Prim2SF 0) with (S754_zero false).
  pose proof (SFsub_same (Prim2SF x)) as H.
  destruct (SF64sub _ _) as [?|?| |? ? ?]; try contradiction;
    destruct (Prim2SF threshold) as [[|]|[|]| |[|] ? ?]; try discriminate; reflexivity.
Qed.

(** X7.  Handing the sentiment analyzer the sentiment of the same snapshot
    reports no shift: the result is the one without a previous sentiment. *)
Theorem sentiment_of_same_snapshot (tokenData : TokenData)
    (previousSentiment : option Sentiment) :
  analyzeMarketSentiment tokenData
    (Some (analyzeMarketSentiment tokenData previousSentiment))
  = analyzeMarketSentiment tokenData None.
Proof.
  unfold analyzeMarketSentiment at 1 3. cbv zeta. cbn [score].
  unfold analyzeMarketSentiment at 1. cbv zeta. cbn [score].
  by rewrite distance_self.
Qed.

End SentimentShift.

(** * The cache over a sequence of invocations *)

Section Cache.




End Cache.
